(** * Node liveness (pkg/storage/node_liveness.go): a shallow embedding

    The liveness subsystem keeps one record per node in a replicated
    key-value table and mirrors the latest known records in an in-memory
    cache.  This development embeds the mutators ([heartbeatInternal],
    [IncrementEpoch], [setDrainingInternal], [SetDecommissioning]), the
    shared update path ([updateLiveness], [updateLivenessAttempt]), the
    cache merge ([maybeUpdate], [shouldReplaceLiveness]) and the snapshot
    query ([GetIsLiveMap]) as functions in a state monad, and proves the
    behaviour the specification promises for them.

    Scope of the model.  Executions are sequential: the per-node gate
    (the [sem] channel) is free and wins the [select] against the
    context, and callbacks are opaque functions whose invocations are
    recorded in a trace.  The external collaborators are inputs:
    - the clock is a sequence of readings, one consumed by every call
      of [nl.clock.Now()];
    - every attempt of the update path is driven by an [AttemptEvent]
      describing what the disks, a concurrent writer and the key-value
      layer do during that attempt; when the events run out the context
      has expired.
    The latency histogram, tracing spans and log lines are not modelled. *)

From stdpp Require Import base option list gmap.
From Stdlib Require Import ZArith Lia Bool.

Local Open Scope Z_scope.

(* ===================================================================== *)
(** ** Machine integers *)
(* ===================================================================== *)

(** Go's [int64] and [int32] arithmetic wraps around silently. *)
Definition wrap64 (z : Z) : Z := (z + 2 ^ 63) mod 2 ^ 64 - 2 ^ 63.
Definition wrap32 (z : Z) : Z := (z + 2 ^ 31) mod 2 ^ 32 - 2 ^ 31.

Definition MaxInt64 : Z := 2 ^ 63 - 1.

(* ===================================================================== *)
(** ** Data model *)
(* ===================================================================== *)

(** [roachpb.NodeID]; it is also the key of a record in the liveness
    table ([keys.NodeLivenessKey]). *)
Abbreviation roachpb_NodeID := Z.

(** Modelled from the spec: the hybrid logical timestamp of section 3
    ("physical nanoseconds + logical counter"), whose declaration
    (package hlc) is not among the sources.  [WallTime] is an [int64],
    [Logical] an [int32]. *)
Record Timestamp : Type := mkTimestamp {
  WallTime : Z;
  Logical : Z
}.

(** Modelled from the spec: [Timestamp.Less], the order in which one
    expiration is "strictly greater" or "earlier" than another: wall time
    first, logical counter second. *)
Definition Less (t u : Timestamp) : bool :=
  (WallTime t <? WallTime u) ||
  ((WallTime t =? WallTime u) && (Logical t <? Logical u)).

(** Modelled from the spec: [Timestamp.Add], "now() + duration" of
    section 4.5, in the machine arithmetic of the two fields. *)
Definition Add (t : Timestamp) (wallTime logical : Z) : Timestamp :=
  {| WallTime := wrap64 (WallTime t + wallTime);
     Logical := wrap32 (Logical t + logical) |}.

(** [storagepb.Liveness]. *)
Record Liveness : Type := mkLiveness {
  NodeID : roachpb_NodeID;
  Epoch : Z;
  Expiration : Timestamp;
  Draining : bool;
  Decommissioning : bool
}.

(** The zero value [storagepb.Liveness{}]: what a Go map lookup and
    [GetProto] leave behind when there is no record. *)
Definition LivenessZero : Liveness :=
  {| NodeID := 0; Epoch := 0; Expiration := mkTimestamp 0 0;
     Draining := false; Decommissioning := false |}.

#[global] Instance Timestamp_eq_dec : EqDecision Timestamp.
Proof. solve_decision. Defined.

#[global] Instance Liveness_eq_dec : EqDecision Liveness.
Proof. solve_decision. Defined.

(** Modelled from the spec: [Liveness.IsLive] (package storagepb, not
    among the sources), by invariant 3 of section 3: a record is live at
    time [t] iff [t + max_clock_offset < expiration]. *)
Definition IsLive (l : Liveness) (now : Timestamp) (maxOffset : Z) : bool :=
  Less (Add now maxOffset 0) (Expiration l).

(** Field updates of a record, as the assignments of the source. *)
Definition withEpoch (l : Liveness) (e : Z) : Liveness :=
  {| NodeID := NodeID l; Epoch := e; Expiration := Expiration l;
     Draining := Draining l; Decommissioning := Decommissioning l |}.
Definition withExpiration (l : Liveness) (t : Timestamp) : Liveness :=
  {| NodeID := NodeID l; Epoch := Epoch l; Expiration := t;
     Draining := Draining l; Decommissioning := Decommissioning l |}.
Definition withDraining (l : Liveness) (b : bool) : Liveness :=
  {| NodeID := NodeID l; Epoch := Epoch l; Expiration := Expiration l;
     Draining := b; Decommissioning := Decommissioning l |}.
Definition withDecommissioning (l : Liveness) (b : bool) : Liveness :=
  {| NodeID := NodeID l; Epoch := Epoch l; Expiration := Expiration l;
     Draining := Draining l; Decommissioning := b |}.

(** [livenessUpdate]: the record to write and the [ignoreCache] flag. *)
Record livenessUpdate : Type := mkUpdate {
  ULiveness : Liveness;
  ignoreCache : bool
}.

(* ===================================================================== *)
(** ** The cache's dominance rule *)
(* ===================================================================== *)

(** [shouldReplaceLiveness(old, new)]. *)
Definition shouldReplaceLiveness (old new : Liveness) : bool :=
  if decide (old = LivenessZero) then true
  else if negb (Epoch old =? Epoch new) then Epoch old <? Epoch new
  else if negb (bool_decide (Expiration old = Expiration new))
       then Less (Expiration old) (Expiration new)
  else negb (eqb (Draining old) (Draining new))
       || negb (eqb (Decommissioning old) (Decommissioning new)).

(* ===================================================================== *)
(** ** Errors *)
(* ===================================================================== *)

(** Errors of the key-value client, as [updateLivenessAttempt] tells them
    apart. *)
Inductive kvError : Type :=
| ConditionFailedError (ActualValue : option Liveness)
| TransactionStatusError
| AmbiguousResultError
| OtherKVError.

(** The errors of the package; the comment gives the Go value. *)
Inductive error : Type :=
| ErrNoLivenessRecord            (* "node not in the liveness table" *)
| errChangeDecommissioningFailed (* "failed to change the decommissioning status" *)
| ErrEpochIncremented            (* "heartbeat failed on epoch increment" *)
| errNodeDrainingSet             (* "node is already draining" *)
| errNodeAlreadyLive             (* "node already live" *)
| errEpochAlreadyIncremented     (* "epoch already incremented" *)
| errExpiresEarlier  (* "proposed liveness update expires earlier than previous record" *)
| errCannotIncrementLive (liveness : Liveness)
                     (* "cannot increment epoch on live node: %+v" *)
| errUnexpectedEpoch (actual expected : Z)
                     (* "unexpected liveness epoch %d; expected >= %d" *)
| errMismatchIncrementing (liveness actual : Liveness)
                     (* "mismatch incrementing epoch for %+v; actual is %+v" *)
| errFailedToUpdate  (* "failed to update liveness record" *)
| errRetryLiveness (e : kvError)       (* &errRetryLiveness{err} *)
| errKV (e : kvError)                  (* an error of db.Txn, returned as it is *)
| errUnableToGetLiveness (e : kvError) (* errors.Wrap(err, "unable to get liveness") *)
| errLogDataFails    (* "couldn't update node liveness because LogData to disk fails" *)
| errCommitFails     (* "couldn't update node liveness because Commit to disk fails" *)
| errDiskIO          (* the engine's own error under the two wrappers above *)
| errContext.        (* ctx.Err() *)

(** [errors.Cause]: the innermost error under the wrappers. *)
Definition Cause (e : error) : error :=
  match e with
  | errRetryLiveness k | errUnableToGetLiveness k => errKV k
  | errLogDataFails | errCommitFails => errDiskIO
  | _ => e
  end.

(* ===================================================================== *)
(** ** State of a node's liveness service and of its collaborators *)
(* ===================================================================== *)

(** What an observer sees of a run: conditional puts sent to the
    key-value layer, with their outcome ([None]: committed), and
    callback invocations.  Callbacks are named by a number. *)
Inductive Event : Type :=
| EvCPut (key : roachpb_NodeID) (value : Liveness) (expected : option Liveness)
         (res : option kvError)
| EvIsLiveCallback (fn : nat) (nodeID : roachpb_NodeID)
| EvHeartbeatCallback (fn : nat).

(** [LivenessMetrics], the three counters. *)
Record LivenessMetrics : Type := mkMetrics {
  HeartbeatSuccesses : Z;
  HeartbeatFailures : Z;
  EpochIncrements : Z
}.

(** The immutable part of [NodeLiveness] and of its clock.
    [ClocklessMaxOffset] stands for the constant
    [timeutil.ClocklessMaxOffset], declared outside the sources. *)
Record Config : Type := mkConfig {
  gossipNodeID : roachpb_NodeID;   (* nl.gossip.NodeID.Get() *)
  livenessThreshold : Z;           (* nanoseconds *)
  clockMaxOffset : Z;              (* nl.clock.MaxOffset(), nanoseconds *)
  clockNow : nat -> Timestamp;     (* the k-th reading of nl.clock.Now() *)
  ClocklessMaxOffset : Z
}.

(** The mutable part: [nl.mu], the metrics, and the world around. *)
Record State : Type := mkState {
  clockReads : nat;                          (* readings taken so far *)
  kv : gmap roachpb_NodeID Liveness;         (* the liveness table *)
  nodes : gmap roachpb_NodeID Liveness;      (* nl.mu.nodes *)
  callbacks : list nat;                      (* nl.mu.callbacks *)
  heartbeatCallback : option nat;            (* nl.mu.heartbeatCallback *)
  metrics : LivenessMetrics;
  trace : list Event
}.

Definition setClockReads (n : nat) (s : State) : State :=
  mkState n (kv s) (nodes s) (callbacks s) (heartbeatCallback s) (metrics s) (trace s).
Definition setKv (m : gmap roachpb_NodeID Liveness) (s : State) : State :=
  mkState (clockReads s) m (nodes s) (callbacks s) (heartbeatCallback s) (metrics s) (trace s).
Definition setNodes (m : gmap roachpb_NodeID Liveness) (s : State) : State :=
  mkState (clockReads s) (kv s) m (callbacks s) (heartbeatCallback s) (metrics s) (trace s).
Definition setCallbacks (l : list nat) (s : State) : State :=
  mkState (clockReads s) (kv s) (nodes s) l (heartbeatCallback s) (metrics s) (trace s).
Definition setHeartbeatCallback (cb : option nat) (s : State) : State :=
  mkState (clockReads s) (kv s) (nodes s) (callbacks s) cb (metrics s) (trace s).
Definition setMetrics (m : LivenessMetrics) (s : State) : State :=
  mkState (clockReads s) (kv s) (nodes s) (callbacks s) (heartbeatCallback s) m (trace s).
Definition emit (evs : list Event) (s : State) : State :=
  mkState (clockReads s) (kv s) (nodes s) (callbacks s) (heartbeatCallback s) (metrics s)
          (trace s ++ evs).

(** The state monad the methods of [NodeLiveness] run in. *)
Definition M (A : Type) : Type := State -> A * State.

Definition ret {A : Type} (a : A) : M A := fun s => (a, s).
Definition bind {A B : Type} (m : M A) (k : A -> M B) : M B :=
  fun s => let (a, s') := m s in k a s'.
Definition modify (f : State -> State) : M unit := fun s => (tt, f s).
Definition gets {A : Type} (f : State -> A) : M A := fun s => (f s, s).

Notation "'let*' x ':=' m 'in' k" := (bind m (fun x => k))
  (at level 10, x pattern, m at level 100, k at level 200).
Notation "m ';;;' k" := (bind m (fun _ => k))
  (at level 100, k at level 200, right associativity).

Section NodeLiveness.

Variable nl : Config.

(** [nl.clock.Now()]: the next reading. *)
Definition Now : M Timestamp :=
  fun s => (clockNow nl (clockReads s), setClockReads (S (clockReads s)) s).

(** [metrics.X.Inc(1)]. *)
Definition HeartbeatSuccesses_Inc : M unit :=
  modify (fun s => setMetrics (mkMetrics (HeartbeatSuccesses (metrics s) + 1)
    (HeartbeatFailures (metrics s)) (EpochIncrements (metrics s))) s).
Definition HeartbeatFailures_Inc : M unit :=
  modify (fun s => setMetrics (mkMetrics (HeartbeatSuccesses (metrics s))
    (HeartbeatFailures (metrics s) + 1) (EpochIncrements (metrics s))) s).
Definition EpochIncrements_Inc : M unit :=
  modify (fun s => setMetrics (mkMetrics (HeartbeatSuccesses (metrics s))
    (HeartbeatFailures (metrics s)) (EpochIncrements (metrics s) + 1)) s).

(** [RegisterCallback(cb)]. *)
Definition RegisterCallback (cb : nat) : M unit :=
  modify (fun s => setCallbacks (callbacks s ++ [cb]) s).

(** [getLivenessLocked] / [GetLiveness] / [Self]: a cached record or
    [ErrNoLivenessRecord]. *)
Definition GetLiveness (nodeID : roachpb_NodeID) : M (option Liveness) :=
  gets (fun s => nodes s !! nodeID).
Definition Self : M (option Liveness) := GetLiveness (gossipNodeID nl).

(** [maybeUpdate(new)]: replace the cached record if [new] appears newer,
    and run the becomes-live callbacks if the node became live. *)
Definition maybeUpdate (new : Liveness) : M unit :=
  let* old := gets (fun s => default LivenessZero (nodes s !! NodeID new)) in
  let should := shouldReplaceLiveness old new in
  let* callbacks :=
    if should
    then modify (fun s => setNodes (<[NodeID new := new]> (nodes s)) s) ;;;
         gets callbacks
    else ret [] in
  if negb should then ret tt
  else
    let* now := Now in
    let offset := clockMaxOffset nl in
    if negb (IsLive old now offset) && IsLive new now offset
    then modify (emit (map (fun fn => EvIsLiveCallback fn (NodeID new)) callbacks))
    else ret tt.

(** [IsLiveMapEntry] and [GetIsLiveMap]. *)
Record IsLiveMapEntry : Type := mkEntry {
  EIsLive : bool;
  EEpoch : Z
}.

Definition GetIsLiveMap : M (gmap roachpb_NodeID IsLiveMapEntry) :=
  let* now := Now in
  let maxOffset := clockMaxOffset nl in
  gets (fun s =>
    omap (fun l : Liveness =>
            let isLive := IsLive l now maxOffset in
            if negb isLive && Decommissioning l then None
            else Some {| EIsLive := isLive; EEpoch := Epoch l |})
         (nodes s)).

(* --------------------------------------------------------------------- *)
(** *** The collaborators of one attempt *)
(* --------------------------------------------------------------------- *)

Inductive DiskFault : Type := LogDataFails | CommitFails.

(** What the key-value layer does to the transaction besides evaluating
    the condition: nothing, a transaction-status error, an ambiguous
    result (the write may or may not have been applied), another error. *)
Inductive TxnFault : Type :=
| NoFault
| FaultStatus
| FaultAmbiguous (applied : bool)
| FaultOther.

(** One attempt of the update path, seen from outside: a disk that fails
    to sync, a concurrent writer that stored [ev_remote] under the key
    just before the transaction, and the fault of the transaction. *)
Record AttemptEvent : Type := mkAttempt {
  ev_disk : option DiskFault;
  ev_remote : option Liveness;
  ev_txn : TxnFault
}.

(** The loop over [nl.engines]: [LogData] and [Commit(sync)] on each. *)
Definition syncEngines (ev : AttemptEvent) : option error :=
  match ev_disk ev with
  | Some LogDataFails => Some errLogDataFails
  | Some CommitFails => Some errCommitFails
  | None => None
  end.

(** The table as the transaction of an attempt finds it: after the
    concurrent writer, if there is one. *)
Definition kvSeen (ev : AttemptEvent) (key : roachpb_NodeID)
    (table : gmap roachpb_NodeID Liveness) : gmap roachpb_NodeID Liveness :=
  match ev_remote ev with
  | Some l => <[key := l]> table
  | None => table
  end.

(** Modelled from the spec: the key-value layer (package client, not
    among the sources), by section 6 and the glossary: a linearizable
    conditional put on one key, "write succeeds only if the stored value
    equals a supplied expected value; on mismatch returns the actual
    stored value", run as one transaction ([nl.db.Txn] with [b.CPut]);
    [None] is a commit. *)
Definition db_Txn_CPut (ev : AttemptEvent) (key : roachpb_NodeID)
    (value : Liveness) (expected : option Liveness) : M (option kvError) :=
  fun s =>
    let kv0 := kvSeen ev key (kv s) in
    let holds := bool_decide (kv0 !! key = expected) in
    let '(res, kv1) :=
      match ev_txn ev with
      | NoFault =>
          if holds then (None, <[key := value]> kv0)
          else (Some (ConditionFailedError (kv0 !! key)), kv0)
      | FaultStatus => (Some TransactionStatusError, kv0)
      | FaultAmbiguous applied =>
          (Some AmbiguousResultError,
           if applied && holds then <[key := value]> kv0 else kv0)
      | FaultOther => (Some OtherKVError, kv0)
      end in
    (res, emit [EvCPut key value expected res] (setKv kv1 s)).

(** Modelled from the spec: [nl.db.GetProto] on the liveness key,
    "read(node_id) -> record | not-found | transient_error"; a missing
    record leaves the zero value in the destination. *)
Definition db_GetProto (fault : option kvError) (key : roachpb_NodeID)
    : M (option kvError * Liveness) :=
  match fault with
  | Some e => ret (Some e, LivenessZero)
  | None => gets (fun s => (None, default LivenessZero (kv s !! key)))
  end.

(* --------------------------------------------------------------------- *)
(** *** The shared update path *)
(* --------------------------------------------------------------------- *)

(** [updateLivenessAttempt].  The closure [handleCondFailed] may assign
    to variables of its caller; [C] is the type of those variables, which
    are threaded through.  Every caller passes a handler, so it is not
    optional here; the actual value of a failed condition is a record
    that decodes. *)
Definition updateLivenessAttempt {C : Type} (ev : AttemptEvent)
    (update : livenessUpdate) (oldLiveness : option Liveness)
    (handleCondFailed : Liveness -> C -> M (option error * C)) (c : C)
    : M (option error * C) :=
  let key := NodeID (ULiveness update) in
  let* known :=
    if negb (ignoreCache update) then
      let* l := GetLiveness key in
      match l, oldLiveness with
      | Some l, None => ret (Some l)
      | Some l, Some old => if decide (l = old) then ret None else ret (Some l)
      | None, _ => ret None
      end
    else ret None in
  match known with
  | Some l => handleCondFailed l c
  | None =>
      let* res := db_Txn_CPut ev key (ULiveness update) oldLiveness in
      match res with
      | Some (ConditionFailedError actual) =>
          handleCondFailed (default LivenessZero actual) c
      | Some TransactionStatusError =>
          ret (Some (errRetryLiveness TransactionStatusError), c)
      | Some AmbiguousResultError =>
          ret (Some (errRetryLiveness AmbiguousResultError), c)
      | Some OtherKVError => ret (Some (errKV OtherKVError), c)
      | None =>
          let* cb := gets heartbeatCallback in
          match cb with
          | Some fn => modify (emit [EvHeartbeatCallback fn]) ;;; ret (None, c)
          | None => ret (None, c)
          end
      end
  end.

(** [updateLiveness]: the retry loop.  Each iteration consumes one event
    of the script; an empty script is an expired context. *)
Fixpoint updateLiveness {C : Type} (script : list AttemptEvent)
    (update : livenessUpdate) (oldLiveness : option Liveness)
    (handleCondFailed : Liveness -> C -> M (option error * C)) (c : C)
    : M (option error * C) :=
  match script with
  | [] => ret (Some errContext, c)
  | ev :: script' =>
      match syncEngines ev with
      | Some err => ret (Some err, c)
      | None =>
          let* r := updateLivenessAttempt ev update oldLiveness handleCondFailed c in
          match r with
          | (Some (errRetryLiveness _), c') =>
              updateLiveness script' update oldLiveness handleCondFailed c'
          | _ => ret r
          end
      end
  end.

(* --------------------------------------------------------------------- *)
(** *** Heartbeat *)
(* --------------------------------------------------------------------- *)

(** The record a mutator starts from when it is given none. *)
Definition firstLiveness (nodeID : roachpb_NodeID) : Liveness :=
  {| NodeID := nodeID; Epoch := 1; Expiration := mkTimestamp 0 0;
     Draining := false; Decommissioning := false |}.

(** The expiration [heartbeatInternal] proposes at the reading [now]. *)
Definition heartbeatExpiration (now : Timestamp) : Timestamp :=
  let maxOffset := clockMaxOffset nl in
  let maxOffset := if maxOffset =? ClocklessMaxOffset nl then 0 else maxOffset in
  Add now (wrap64 (livenessThreshold nl + maxOffset)) 0.

(** The handler [heartbeatInternal] passes to the update path. *)
Definition heartbeatCondFailed (incrementEpoch : bool) (actual : Liveness)
    (c : unit) : M (option error * unit) :=
  maybeUpdate actual ;;;
  let* now := Now in
  if IsLive actual now (clockMaxOffset nl) && negb incrementEpoch
  then ret (Some errNodeAlreadyLive, c)
  else ret (Some ErrEpochIncremented, c).

(** The record [heartbeatInternal] proposes at the reading [now]: the
    expected record, with the epoch bumped and the draining flag cleared
    if [incrementEpoch], or else a first record for this node; in both
    cases with the new expiration. *)
Definition heartbeatUpdate (liveness : option Liveness) (incrementEpoch : bool)
    (now : Timestamp) : Liveness :=
  let nodeID := gossipNodeID nl in
  let update :=
    match liveness with
    | Some l =>
        if incrementEpoch
        then withDraining (withEpoch l (wrap64 (Epoch l + 1))) false
        else l
    | None => firstLiveness nodeID
    end in
  withExpiration update (heartbeatExpiration now).

(** [heartbeatInternal(ctx, liveness, incrementEpoch)]. *)
Definition heartbeatInternal (script : list AttemptEvent)
    (liveness : option Liveness) (incrementEpoch : bool) : M (option error) :=
  let* now := Now in
  let update := heartbeatUpdate liveness incrementEpoch now in
  if match liveness with
     | Some l => Less (Expiration update) (Expiration l)
     | None => false
     end
  then ret (Some errExpiresEarlier)
  else
    let* r := updateLiveness script (mkUpdate update false) liveness
                (heartbeatCondFailed incrementEpoch) tt in
    match fst r with
    | Some errNodeAlreadyLive => HeartbeatSuccesses_Inc ;;; ret None
    | Some err => HeartbeatFailures_Inc ;;; ret (Some err)
    | None => maybeUpdate update ;;; HeartbeatSuccesses_Inc ;;; ret None
    end.

(** [Heartbeat(ctx, liveness)]. *)
Definition Heartbeat (script : list AttemptEvent) (liveness : option Liveness)
    : M (option error) :=
  heartbeatInternal script liveness false.

(** [heartbeatInternal] from its first statement.  Before anything else
    the function selects between sending on the semaphore of the node
    and [ctx.Done()]; [heartbeatInternal] above is the function from the
    point where the semaphore is held.  [acquired] tells which case the
    [select] takes: when it is [ctx.Done()] the call returns [ctx.Err()]
    at once, before any counter is touched. *)
Definition heartbeatInternal_sem (acquired : bool) (script : list AttemptEvent)
    (liveness : option Liveness) (incrementEpoch : bool) : M (option error) :=
  if acquired then heartbeatInternal script liveness incrementEpoch
  else ret (Some errContext).

(* --------------------------------------------------------------------- *)
(** *** IncrementEpoch *)
(* --------------------------------------------------------------------- *)

(** The error the handler of [IncrementEpoch] chooses. *)
Definition incrementEpochError (liveness actual : Liveness) : error :=
  if Epoch liveness <? Epoch actual then errEpochAlreadyIncremented
  else if Epoch actual <? Epoch liveness
       then errUnexpectedEpoch (Epoch actual) (Epoch liveness)
  else errMismatchIncrementing liveness actual.

(** The handler: the deferred [maybeUpdate(actual)] runs once the error
    has been chosen. *)
Definition incrementEpochCondFailed (liveness actual : Liveness) (c : unit)
    : M (option error * unit) :=
  let err := incrementEpochError liveness actual in
  maybeUpdate actual ;;; ret (Some err, c).

(** [IncrementEpoch(ctx, liveness)]; the pointer is dereferenced on the
    first line, so the argument is a record. *)
Definition IncrementEpoch (script : list AttemptEvent) (liveness : Liveness)
    : M (option error) :=
  let* now := Now in
  if IsLive liveness now (clockMaxOffset nl)
  then ret (Some (errCannotIncrementLive liveness))
  else
    let update := withEpoch liveness (wrap64 (Epoch liveness + 1)) in
    let* r := updateLiveness script (mkUpdate update false) (Some liveness)
                (incrementEpochCondFailed liveness) tt in
    match fst r with
    | Some errEpochAlreadyIncremented => ret None
    | Some err => ret (Some err)
    | None => maybeUpdate update ;;; EpochIncrements_Inc ;;; ret None
    end.

(* --------------------------------------------------------------------- *)
(** *** Draining *)
(* --------------------------------------------------------------------- *)

Definition setDrainingCondFailed (update : Liveness) (actual : Liveness)
    (c : unit) : M (option error * unit) :=
  maybeUpdate actual ;;;
  if eqb (Draining actual) (Draining update)
  then ret (Some errNodeDrainingSet, c)
  else ret (Some errFailedToUpdate, c).

(** [setDrainingInternal(ctx, liveness, drain)]. *)
Definition setDrainingInternal (script : list AttemptEvent)
    (liveness : option Liveness) (drain : bool) : M (option error) :=
  let nodeID := gossipNodeID nl in
  let update := withDraining (default (firstLiveness nodeID) liveness) drain in
  let* r := updateLiveness script (mkUpdate update true) liveness
              (setDrainingCondFailed update) tt in
  match fst r with
  | Some errNodeDrainingSet => ret None
  | Some err => ret (Some err)
  | None => maybeUpdate update ;;; ret None
  end.

(** [SetDraining(ctx, drain)]: one script per iteration of the retry
    loop; the loop ends when the context is done. *)
Fixpoint SetDraining (rounds : list (list AttemptEvent)) (drain : bool) : M unit :=
  match rounds with
  | [] => ret tt
  | script :: rounds' =>
      let* liveness := Self in
      let* err := setDrainingInternal script liveness drain in
      match err with
      | None => ret tt
      | Some _ => SetDraining rounds' drain
      end
  end.

(* --------------------------------------------------------------------- *)
(** *** Decommissioning *)
(* --------------------------------------------------------------------- *)

(** The handler; the captured variable is [conditionFailed]. *)
Definition setDecommissioningCondFailed (update : Liveness) (actual : Liveness)
    (conditionFailed : bool) : M (option error * bool) :=
  let conditionFailed := true in
  if eqb (Decommissioning actual) (Decommissioning update)
  then ret (None, conditionFailed)
  else ret (Some errChangeDecommissioningFailed, conditionFailed).

(** [setDecommissioningInternal]; the result is [None] when the code
    dereferences a nil [liveness]. *)
Definition setDecommissioningInternal (script : list AttemptEvent)
    (nodeID : roachpb_NodeID) (liveness : option Liveness) (decommission : bool)
    : M (option (bool * option error)) :=
  let update := withDecommissioning (default (firstLiveness nodeID) liveness)
                                    decommission in
  let* r := updateLiveness script (mkUpdate update true) liveness
              (setDecommissioningCondFailed update) false in
  match r with
  | (Some err, _) => ret (Some (false, Some err))
  | (None, conditionFailed) =>
      if conditionFailed then ret (Some (false, None))
      else match liveness with
           | Some l =>
               ret (Some (negb (eqb (Decommissioning l) decommission), None))
           | None => ret None
           end
  end.

(** One iteration of the loop of [SetDecommissioning]: whether the read
    fails, and the script of the update that follows. *)
Record DecommissionRound : Type := mkRound {
  rd_read : option kvError;
  rd_script : list AttemptEvent
}.

(** The closure [attempt] of [SetDecommissioning]. *)
Definition SetDecommissioning_attempt (r : DecommissionRound)
    (nodeID : roachpb_NodeID) (decommission : bool)
    : M (option (bool * option error)) :=
  let* got := db_GetProto (rd_read r) nodeID in
  match got with
  | (Some e, _) => ret (Some (false, Some (errUnableToGetLiveness e)))
  | (None, oldLiveness) =>
      if decide (oldLiveness = LivenessZero)
      then ret (Some (false, Some ErrNoLivenessRecord))
      else
        maybeUpdate oldLiveness ;;;
        setDecommissioningInternal (rd_script r) nodeID (Some oldLiveness)
                                   decommission
  end.

(** [SetDecommissioning(ctx, nodeID, decommission)]: when the rounds run
    out the context is done and the gate returns its error. *)
Fixpoint SetDecommissioning (rounds : list DecommissionRound)
    (nodeID : roachpb_NodeID) (decommission : bool)
    : M (option (bool * option error)) :=
  match rounds with
  | [] => ret (Some (false, Some errContext))
  | r :: rounds' =>
      let* res := SetDecommissioning_attempt r nodeID decommission in
      match res with
      | Some (_, Some err) =>
          match Cause err with
          | errChangeDecommissioningFailed =>
              SetDecommissioning rounds' nodeID decommission
          | _ => ret res
          end
      | _ => ret res
      end
  end.

End NodeLiveness.

(* ===================================================================== *)
(** ** Queries, gossip and the heartbeat loop *)
(* ===================================================================== *)

Section NodeLivenessService.

Variable nl : Config.

(** [(nl *NodeLiveness) IsLive(nodeID)]: the liveness of the cached
    record, or [ErrNoLivenessRecord]. *)
Definition NodeLiveness_IsLive (nodeID : roachpb_NodeID)
    : M (bool * option error) :=
  let* liveness := GetLiveness nodeID in
  match liveness with
  | None => ret (false, Some ErrNoLivenessRecord)
  | Some l =>
      let* now := Now nl in
      ret (IsLive l now (clockMaxOffset nl), None)
  end.

(** [numLiveNodes()]: the number of cached records that are live, or 0
    when this node has no identifier yet, is unknown to the cache or is
    not live itself.  The counter cannot overflow: it is at most the
    length of a Go map. *)
Definition numLiveNodes : M Z :=
  let selfID := gossipNodeID nl in
  if selfID =? 0 then ret 0
  else
    let* now := Now nl in
    let maxOffset := clockMaxOffset nl in
    let* self := GetLiveness selfID in
    match self with
    | None => ret 0
    | Some self =>
        if negb (IsLive self now maxOffset) then ret 0
        else
          gets (fun s =>
            Z.of_nat (length (List.filter
              (fun kl : roachpb_NodeID * Liveness => IsLive (snd kl) now maxOffset)
              (map_to_list (nodes s)))))
    end.

(** The errors of the closure [AsLiveClock] returns: an error of
    [GetLiveness], or [errLiveClockNotLive] ("not live"). *)
Inductive liveClockError : Type :=
| liveClockLookup (err : error)
| errLiveClockNotLive.

(** The closure returned by [AsLiveClock()], applied to [nodeID]. *)
Definition AsLiveClock (nodeID : roachpb_NodeID)
    : M (Timestamp * Z * option liveClockError) :=
  let* now := Now nl in
  let* liveness := GetLiveness nodeID in
  match liveness with
  | None => ret (mkTimestamp 0 0, 0, Some (liveClockLookup ErrNoLivenessRecord))
  | Some l =>
      if negb (IsLive l now (clockMaxOffset nl))
      then ret (mkTimestamp 0 0, 0, Some errLiveClockNotLive)
      else ret (now, Epoch l, None)
  end.

(** [livenessGossipUpdate(key, content)]; [content] is [None] when the
    value does not decode, which is logged and dropped. *)
Definition livenessGossipUpdate (content : option Liveness) : M unit :=
  match content with
  | None => ret tt
  | Some liveness => maybeUpdate nl liveness
  end.

(** The retry loop of one tick of the heartbeat loop (the closure in
    [StartHeartbeat]): one script per iteration; the loop ends when the
    context of the tick is done.  The result is [incrementEpoch] as the
    tick leaves it. *)
Fixpoint heartbeatTick (rounds : list (list AttemptEvent))
    (incrementEpoch : bool) : M bool :=
  match rounds with
  | [] => ret incrementEpoch
  | script :: rounds' =>
      let* liveness := Self nl in
      let* err := heartbeatInternal nl script liveness incrementEpoch in
      match err with
      | Some ErrEpochIncremented => heartbeatTick rounds' incrementEpoch
      | Some _ => ret incrementEpoch
      | None => ret false
      end
  end.

(** The worker of [StartHeartbeat]: one list of rounds per tick, until
    the stopper stops it.  The heartbeat token is taken and put back by
    every tick; the loop is not paused. *)
Fixpoint heartbeatLoop (ticks : list (list (list AttemptEvent)))
    (incrementEpoch : bool) : M bool :=
  match ticks with
  | [] => ret incrementEpoch
  | rounds :: ticks' =>
      let* incrementEpoch := heartbeatTick rounds incrementEpoch in
      heartbeatLoop ticks' incrementEpoch
  end.

(** [StartHeartbeat(ctx, stopper, alive)]. *)
Definition StartHeartbeat (alive : option nat)
    (ticks : list (list (list AttemptEvent))) : M unit :=
  modify (setHeartbeatCallback alive) ;;;
  heartbeatLoop ticks true ;;;
  ret tt.

End NodeLivenessService.

(** The pause switch of the heartbeat loop: [heartbeatPaused], a
    [uint32] that is 0 or 1, and the number of tokens in the channel
    [heartbeatToken], whose capacity is 1. *)
Record HeartbeatGate : Type := mkGate {
  heartbeatPaused : Z;
  heartbeatToken : nat
}.

(** The gate as [NewNodeLiveness] leaves it: not paused, one token. *)
Definition newHeartbeatGate : HeartbeatGate :=
  {| heartbeatPaused := 0; heartbeatToken := 1 |}.

(** [PauseHeartbeat(pause)] when no heartbeat holds the token; [None]
    when the call would block on the channel. *)
Definition PauseHeartbeat (pause : bool) (g : HeartbeatGate)
    : option HeartbeatGate :=
  if pause then
    if heartbeatPaused g =? 0 then
      match heartbeatToken g with
      | S n => Some {| heartbeatPaused := 1; heartbeatToken := n |}
      | O => None
      end
    else Some g
  else
    if heartbeatPaused g =? 1 then
      match heartbeatToken g with
      | O => Some {| heartbeatPaused := 0; heartbeatToken := 1 |}
      | S _ => None
      end
    else Some g.

(* ===================================================================== *)
(** ** Vocabulary of the statements *)
(* ===================================================================== *)

(** An attempt that is retried whatever the table holds: the disks sync
    and the transaction ends in a status error or an ambiguous result. *)
Definition retryable (ev : AttemptEvent) : bool :=
  match ev_disk ev, ev_txn ev with
  | None, (FaultStatus | FaultAmbiguous _) => true
  | _, _ => false
  end.

(** An attempt in which neither the disks nor the transaction fail, so
    that the conditional put is decided by the table alone. *)
Definition faultless (ev : AttemptEvent) : bool :=
  match ev_disk ev, ev_txn ev with
  | None, NoFault => true
  | _, _ => false
  end.

(** The state once the transactions of the attempts [pre] have run. *)
Fixpoint afterRetries (pre : list AttemptEvent) (key : roachpb_NodeID)
    (value : Liveness) (expected : option Liveness) (s : State) : State :=
  match pre with
  | [] => s
  | ev :: pre' =>
      afterRetries pre' key value expected
        (snd (db_Txn_CPut ev key value expected s))
  end.

(** The check of [updateLivenessAttempt] against the cache lets the
    update through: the cache is ignored, or knows no record for the
    node, or knows the expected one. *)
Definition cacheAgrees (update : livenessUpdate) (oldLiveness : option Liveness)
    (s : State) : Prop :=
  ignoreCache update = true
  \/ nodes s !! NodeID (ULiveness update) = None
  \/ nodes s !! NodeID (ULiveness update) = oldLiveness.

(** The state in which a handler runs when the conditional put of the
    attempt [ev] has failed on the stored value [actual]. *)
Definition condFailedState (ev : AttemptEvent) (update : Liveness)
    (oldLiveness : option Liveness) (s : State) : State :=
  let key := NodeID update in
  let table := kvSeen ev key (kv s) in
  emit [EvCPut key update oldLiveness (Some (ConditionFailedError (table !! key)))]
       (setKv table s).

(** In a trace, is every committed conditional put followed at once by an
    invocation of the heartbeat callback [cb], with no other invocation
    of a heartbeat callback?  [pending] tells that a commit was the last
    event. *)
Fixpoint hbFollowsCommits (cb : nat) (pending : bool) (evs : list Event) : bool :=
  match evs with
  | [] => negb pending
  | EvCPut _ _ _ None :: evs' => negb pending && hbFollowsCommits cb true evs'
  | EvHeartbeatCallback fn :: evs' =>
      pending && Nat.eqb fn cb && hbFollowsCommits cb false evs'
  | _ :: evs' => negb pending && hbFollowsCommits cb false evs'
  end.

(** Conditional puts acknowledged as committed (the transaction returned
    no error), and invocations of becomes-live callbacks, among the
    events of a trace. *)
Definition isCommit (e : Event) : bool :=
  match e with
  | EvCPut _ _ _ None => true
  | _ => false
  end.

Definition isIsLiveCallback (e : Event) : bool :=
  match e with
  | EvIsLiveCallback _ _ => true
  | _ => false
  end.


(** [m] keeps the registered heartbeat callback [cb] and adds to the
    trace events among which the callback follows the commits. *)
Definition hbStep (cb : nat) (s s' : State) : Prop :=
  heartbeatCallback s' = Some cb /\
  exists evs, trace s' = trace s ++ evs /\ hbFollowsCommits cb false evs = true.

Definition hbKeeps {A : Type} (cb : nat) (m : M A) : Prop :=
  forall s, heartbeatCallback s = Some cb -> hbStep cb s (snd (m s)).

(** A run of gossip updates, in order. *)
Fixpoint gossipUpdates (nl : Config) (contents : list (option Liveness))
    : M unit :=
  match contents with
  | [] => ret tt
  | content :: contents' =>
      livenessGossipUpdate nl content ;;; gossipUpdates nl contents'
  end.

(** [new] is not older than [old]: its epoch is greater, or the epochs
    are equal and its expiration is not earlier. *)
Definition notOlder (old new : Liveness) : Prop :=
  Epoch old < Epoch new
  \/ (Epoch old = Epoch new /\ Less (Expiration new) (Expiration old) = false).

(** The cache holds every record under the node identifier the record
    carries, as [maybeUpdate] stores it. *)
Definition wellKeyed (cache : gmap roachpb_NodeID Liveness) : Prop :=
  forall n l, cache !! n = Some l -> NodeID l = n.

(** [m] only adds events that satisfy [P] to the trace. *)
Definition sends {A : Type} (P : Event -> bool) (m : M A) : Prop :=
  forall s, exists evs, trace (snd (m s)) = trace s ++ evs /\
                        forallb P evs = true.

(** An event is no conditional put, or one under the key of the value it
    writes, whose value and expected record satisfy [Q]. *)
Definition cputOK (Q : Liveness -> option Liveness -> bool) (e : Event) : bool :=
  match e with
  | EvCPut key value expected _ => (key =? NodeID value) && Q value expected
  | _ => true
  end.

(** A conditional put acknowledged as committed that replaces a record
    by one with another epoch. *)
Definition isEpochBump (e : Event) : bool :=
  match e with
  | EvCPut _ value (Some l) None => negb (Epoch value =? Epoch l)
  | _ => false
  end.

(** An error that carries a transaction-status error or an ambiguous
    result of the key-value layer, whatever wraps it. *)
Definition carriesRetryCause (e : error) : bool :=
  match e with
  | errRetryLiveness _ => true
  | errKV (TransactionStatusError | AmbiguousResultError) => true
  | errUnableToGetLiveness (TransactionStatusError | AmbiguousResultError) => true
  | _ => false
  end.

(** A sequence of calls of [PauseHeartbeat], none of which blocks. *)
Fixpoint pauseAll (calls : list bool) (g : HeartbeatGate) : option HeartbeatGate :=
  match calls with
  | [] => Some g
  | pause :: calls' =>
      match PauseHeartbeat pause g with
      | Some g' => pauseAll calls' g'
      | None => None
      end
  end.

(* ===================================================================== *)
(** ** Timestamps: the order is strict *)
(* ===================================================================== *)

Lemma Timestamp_eq (t u : Timestamp) :
  WallTime t = WallTime u -> Logical t = Logical u -> t = u.
Proof. destruct t, u; simpl; intros -> ->; reflexivity. Qed.

Lemma Less_irrefl (t : Timestamp) : Less t t = false.
Proof.
  unfold Less. rewrite !Z.ltb_irrefl, Z.eqb_refl. reflexivity.
Qed.

Lemma Less_asym (t u : Timestamp) : Less t u = true -> Less u t = false.
Proof.
  unfold Less. intros H.
  apply orb_true_iff in H as [H | H].
  - apply Z.ltb_lt in H. apply orb_false_iff. split.
    + apply Z.ltb_ge. lia.
    + apply andb_false_iff. left. apply Z.eqb_neq. lia.
  - apply andb_true_iff in H as [Hw Hl].
    apply Z.eqb_eq in Hw. apply Z.ltb_lt in Hl.
    apply orb_false_iff. split.
    + apply Z.ltb_ge. lia.
    + apply andb_false_iff. right. apply Z.ltb_ge. lia.
Qed.

Lemma Less_neq (t u : Timestamp) : Less t u = true -> t <> u.
Proof. intros H ->. rewrite Less_irrefl in H. discriminate. Qed.

(* ===================================================================== *)
(** ** The dominance rule *)
(* ===================================================================== *)

Lemma bool_neq_eqb (a b : bool) : a <> b <-> eqb a b = false.
Proof. destruct a, b; simpl; split; congruence. Qed.

(** C3.  [shouldReplaceLiveness old new] accepts the candidate exactly
    when there is no prior record (the stored value is the zero record),
    or the candidate's epoch is greater, or the epochs are equal and the
    candidate's expiration is strictly greater, or epoch and expiration
    are equal and the draining or the decommissioning flag differs.  In
    particular, against a prior record, a candidate with a strictly
    smaller epoch, or with the same epoch and a strictly smaller
    expiration, is rejected. *)
Theorem shouldReplaceLiveness_dominance (old new : Liveness) :
  (shouldReplaceLiveness old new = true <->
     old = LivenessZero
     \/ Epoch old < Epoch new
     \/ (Epoch old = Epoch new /\
         Less (Expiration old) (Expiration new) = true)
     \/ (Epoch old = Epoch new /\ Expiration old = Expiration new /\
         (Draining old <> Draining new \/
          Decommissioning old <> Decommissioning new)))
  /\ (old <> LivenessZero ->
      Epoch new < Epoch old \/
      (Epoch new = Epoch old /\
       Less (Expiration new) (Expiration old) = true) ->
      shouldReplaceLiveness old new = false).
Proof.
  unfold shouldReplaceLiveness. split.
  - destruct (decide (old = LivenessZero)) as [Hz | Hz]; [tauto |].
    destruct (Z.eqb_spec (Epoch old) (Epoch new)) as [He | He]; simpl.
    + destruct (bool_decide_reflect (Expiration old = Expiration new))
        as [Hx | Hx]; simpl.
      * rewrite orb_true_iff, !negb_true_iff, <- !bool_neq_eqb.
        split.
        -- intros H. right. right. right. auto.
        -- intros [H | [H | [[_ H] | [_ [_ H]]]]]; [tauto | lia | | exact H].
           rewrite Hx, Less_irrefl in H. discriminate.
      * split.
        -- intros H. right. right. left. auto.
        -- intros [H | [H | [[_ H] | [_ [H _]]]]]; [tauto | lia | exact H | tauto].
    + rewrite Z.ltb_lt. split.
      * intros H. right. left. exact H.
      * intros [H | [H | [[H _] | [H _]]]]; [tauto | exact H | lia | lia].
  - intros Hz H.
    destruct (decide (old = LivenessZero)) as [Hz' | _]; [tauto |].
    destruct H as [H | [He Hx]].
    + destruct (Z.eqb_spec (Epoch old) (Epoch new)) as [He | He]; simpl; [lia |].
      apply Z.ltb_ge. lia.
    + rewrite He, Z.eqb_refl. simpl.
      destruct (bool_decide_reflect (Expiration old = Expiration new))
        as [Hx' | Hx']; simpl.
      * rewrite Hx', Less_irrefl in Hx. discriminate.
      * apply Less_asym. exact Hx.
Qed.

Lemma shouldReplaceLiveness_dominance_witness :
  let old := mkLiveness 3 5 (mkTimestamp 100 0) false false in
  let new := mkLiveness 3 5 (mkTimestamp 90 7) true false in
  old <> LivenessZero /\
  (Epoch new = Epoch old /\ Less (Expiration new) (Expiration old) = true) /\
  shouldReplaceLiveness old new = false.
Proof.
  intros old new.
  assert (Hz : old <> LivenessZero) by discriminate.
  assert (Hx : Epoch new = Epoch old /\
               Less (Expiration new) (Expiration old) = true)
    by (split; reflexivity).
  split; [exact Hz |]. split; [exact Hx |].
  exact (proj2 (shouldReplaceLiveness_dominance old new) Hz (or_intror Hx)).
Defined.

(* ===================================================================== *)
(** ** Running the monad *)
(* ===================================================================== *)

Ltac run_monad := unfold bind, ret, gets, modify, Now in *; simpl in *.

(* ===================================================================== *)
(** ** The cache *)
(* ===================================================================== *)

(** [maybeUpdate], as one equation on the state. *)
Lemma maybeUpdate_eq (nl : Config) (new : Liveness) (s : State) :
  let old := default LivenessZero (nodes s !! NodeID new) in
  let now := clockNow nl (clockReads s) in
  let offset := clockMaxOffset nl in
  maybeUpdate nl new s =
    (tt,
     if shouldReplaceLiveness old new then
       let s1 := setClockReads (S (clockReads s))
                   (setNodes (<[NodeID new := new]> (nodes s)) s) in
       if negb (IsLive old now offset) && IsLive new now offset
       then emit (map (fun fn => EvIsLiveCallback fn (NodeID new)) (callbacks s)) s1
       else s1
     else s).
Proof.
  unfold maybeUpdate. run_monad.
  destruct (shouldReplaceLiveness _ new); simpl; [| reflexivity].
  destruct (negb _ && _); reflexivity.
Qed.

(** C8.  When [maybeUpdate] accepts a record, the record cached before
    for that node was not live at the clock reading it takes and the
    accepted record is live, then every registered becomes-live callback
    is invoked, in registration order, with the node identifier.  When
    the record is rejected, or the node was live already, no callback is
    invoked (and a rejected record leaves the cache as it was). *)
Theorem maybeUpdate_becomes_live (nl : Config) (new : Liveness) (s : State) :
  let old := default LivenessZero (nodes s !! NodeID new) in
  let now := clockNow nl (clockReads s) in
  let offset := clockMaxOffset nl in
  let s' := snd (maybeUpdate nl new s) in
  (shouldReplaceLiveness old new = true ->
   IsLive old now offset = false -> IsLive new now offset = true ->
   nodes s' = <[NodeID new := new]> (nodes s) /\
   trace s' = trace s ++
     map (fun fn => EvIsLiveCallback fn (NodeID new)) (callbacks s))
  /\ (shouldReplaceLiveness old new = false \/ IsLive old now offset = true ->
      trace s' = trace s)
  /\ (shouldReplaceLiveness old new = false -> nodes s' = nodes s).
Proof.
  intros old now offset s'. subst s'. rewrite maybeUpdate_eq. simpl.
  fold old now offset.
  split; [| split].
  - intros -> -> ->. simpl. split; reflexivity.
  - intros [-> | Hl]; [reflexivity |].
    destruct (shouldReplaceLiveness old new); [| reflexivity].
    rewrite Hl. reflexivity.
  - intros ->. reflexivity.
Qed.

Lemma maybeUpdate_becomes_live_witness :
  let nl := mkConfig 1 10 2 (fun _ => mkTimestamp 100 0) MaxInt64 in
  let s := mkState 0 ∅ ∅ [7%nat; 8%nat] None (mkMetrics 0 0 0) [] in
  let new := mkLiveness 4 1 (mkTimestamp 500 0) false false in
  trace (snd (maybeUpdate nl new s)) =
    [EvIsLiveCallback 7 4; EvIsLiveCallback 8 4].
Proof.
  intros nl s new.
  exact (proj2 (proj1 (maybeUpdate_becomes_live nl new s)
                 eq_refl eq_refl eq_refl)).
Defined.

(** C9.  For a cached node, [GetIsLiveMap] has an entry exactly when the
    node is live at the clock reading taken or is not decommissioning;
    the entry carries the liveness bit and the epoch of the cached
    record.  A node that is neither live nor free of the decommissioning
    mark is left out, and so is a node the cache does not know. *)
Theorem GetIsLiveMap_entries (nl : Config) (s : State) (n : roachpb_NodeID) :
  let now := clockNow nl (clockReads s) in
  let lMap := fst (GetIsLiveMap nl s) in
  match nodes s !! n with
  | Some l =>
      let isLive := IsLive l now (clockMaxOffset nl) in
      (lMap !! n = Some (mkEntry isLive (Epoch l)) <->
         isLive = true \/ Decommissioning l = false)
      /\ (is_Some (lMap !! n) <-> isLive = true \/ Decommissioning l = false)
      /\ (isLive = false /\ Decommissioning l = true -> lMap !! n = None)
  | None => lMap !! n = None
  end.
Proof.
  intros now lMap. subst lMap. unfold GetIsLiveMap. run_monad.
  rewrite lookup_omap. fold now.
  destruct (nodes s !! n) as [l |]; simpl; [| reflexivity].
  destruct (IsLive l now (clockMaxOffset nl)), (Decommissioning l); simpl.
  all: repeat split; try tauto; try congruence; try (intros [? ?]; congruence);
    try (intros [? | ?]; congruence); eauto.
Qed.

Lemma GetIsLiveMap_entries_witness :
  let nl := mkConfig 1 10 2 (fun _ => mkTimestamp 100 0) MaxInt64 in
  let gone := mkLiveness 3 4 (mkTimestamp 50 0) false true in
  let s := mkState 0 ∅ {[ 3 := gone ]} [] None (mkMetrics 0 0 0) [] in
  fst (GetIsLiveMap nl s) !! 3 = None.
Proof.
  intros nl gone s.
  exact (proj2 (proj2 (GetIsLiveMap_entries nl s 3)) (conj eq_refl eq_refl)).
Defined.

(* ===================================================================== *)
(** ** Rejections before any write *)
(* ===================================================================== *)

(** C1.  [IncrementEpoch] on a record that is live at the clock reading
    it takes fails with the cannot-increment-live error; no conditional
    put is sent, and the table, the cache, the counters and the trace
    are as before: only the clock has been read. *)
Theorem IncrementEpoch_live_rejected (nl : Config)
    (script : list AttemptEvent) (liveness : Liveness) (s : State) :
  IsLive liveness (clockNow nl (clockReads s)) (clockMaxOffset nl) = true ->
  IncrementEpoch nl script liveness s =
    (Some (errCannotIncrementLive liveness), setClockReads (S (clockReads s)) s)
  /\ (let s' := snd (IncrementEpoch nl script liveness s) in
      kv s' = kv s /\ nodes s' = nodes s /\ trace s' = trace s /\
      metrics s' = metrics s).
Proof.
  intros Hlive.
  assert (E : IncrementEpoch nl script liveness s =
              (Some (errCannotIncrementLive liveness),
               setClockReads (S (clockReads s)) s)).
  { unfold IncrementEpoch. run_monad. rewrite Hlive. reflexivity. }
  split; [exact E |]. rewrite E. simpl. auto.
Qed.

Lemma IncrementEpoch_live_rejected_witness :
  let nl := mkConfig 1 10 2 (fun _ => mkTimestamp 100 0) MaxInt64 in
  let s := mkState 0 ∅ ∅ [] None (mkMetrics 0 0 0) [] in
  let l := mkLiveness 2 5 (mkTimestamp 500 0) false false in
  fst (IncrementEpoch nl [mkAttempt None None NoFault] l s) =
    Some (errCannotIncrementLive l).
Proof.
  intros nl s l.
  exact (f_equal fst
    (proj1 (IncrementEpoch_live_rejected nl [mkAttempt None None NoFault] l s
              eq_refl))).
Defined.

(** Outside the clockless configuration the expiration a heartbeat
    proposes is [now + liveness_threshold + max_clock_offset]. *)
Lemma wrap64_small (z : Z) : - 2 ^ 63 <= z < 2 ^ 63 -> wrap64 z = z.
Proof. intros H. unfold wrap64. rewrite Z.mod_small; lia. Qed.

Lemma wrap32_small (z : Z) : - 2 ^ 31 <= z < 2 ^ 31 -> wrap32 z = z.
Proof. intros H. unfold wrap32. rewrite Z.mod_small; lia. Qed.

Lemma Less_spec (t u : Timestamp) :
  Less t u = true <->
  WallTime t < WallTime u \/ (WallTime t = WallTime u /\ Logical t < Logical u).
Proof.
  unfold Less. rewrite orb_true_iff, andb_true_iff, !Z.ltb_lt, Z.eqb_eq.
  reflexivity.
Qed.

(** With non-negative 64-bit wall times and durations, an expiration
    that is too early when computed over the integers as
    [now + liveness_threshold + max_clock_offset] is too early as the
    code computes it, clockless configuration included. *)
Lemma heartbeatExpiration_ideal (nl : Config) (now expiration : Timestamp) :
  0 <= WallTime now -> 0 <= livenessThreshold nl -> 0 <= clockMaxOffset nl ->
  - 2 ^ 31 <= Logical now < 2 ^ 31 ->
  WallTime expiration <= MaxInt64 ->
  Less (mkTimestamp (WallTime now + livenessThreshold nl + clockMaxOffset nl)
                    (Logical now)) expiration = true ->
  Less (heartbeatExpiration nl now) expiration = true.
Proof.
  intros Hn Ht Ho Hl He H. apply Less_spec in H. simpl in H.
  apply Less_spec. unfold heartbeatExpiration, Add, MaxInt64 in *. simpl.
  rewrite Z.add_0_r, (wrap32_small _ Hl).
  destruct (clockMaxOffset nl =? ClocklessMaxOffset nl).
  - rewrite Z.add_0_r. rewrite (wrap64_small (livenessThreshold nl)) by lia.
    rewrite wrap64_small by lia. lia.
  - rewrite (wrap64_small (livenessThreshold nl + clockMaxOffset nl)) by lia.
    rewrite wrap64_small by lia. lia.
Qed.

(** C2.  A heartbeat with an expected record fails with the
    expiration-regress error when the expiration it computes at the
    clock reading it takes is earlier than the expected record's; no
    conditional put is sent and nothing but the clock reading changes.
    This holds for the expiration as the code computes it and, for
    non-negative wall times and durations, for
    [now + liveness_threshold + max_clock_offset] computed over the
    integers.  [Heartbeat] is the case [incrementEpoch = false]. *)
Theorem heartbeat_expiration_regress (nl : Config)
    (script : list AttemptEvent) (expected : Liveness)
    (incrementEpoch : bool) (s : State) :
  let now := clockNow nl (clockReads s) in
  let rejected :=
    heartbeatInternal nl script (Some expected) incrementEpoch s =
      (Some errExpiresEarlier, setClockReads (S (clockReads s)) s)
    /\ Heartbeat nl script (Some expected) s =
      (Some errExpiresEarlier, setClockReads (S (clockReads s)) s)
    /\ (let s' := snd (heartbeatInternal nl script (Some expected)
                         incrementEpoch s) in
        kv s' = kv s /\ nodes s' = nodes s /\ trace s' = trace s /\
        metrics s' = metrics s) in
  (Less (heartbeatExpiration nl now) (Expiration expected) = true -> rejected)
  /\ (0 <= WallTime now -> 0 <= livenessThreshold nl ->
      0 <= clockMaxOffset nl -> - 2 ^ 31 <= Logical now < 2 ^ 31 ->
      WallTime (Expiration expected) <= MaxInt64 ->
      Less (mkTimestamp
              (WallTime now + livenessThreshold nl + clockMaxOffset nl)
              (Logical now))
           (Expiration expected) = true ->
      rejected).
Proof.
  intros now rejected.
  assert (A : Less (heartbeatExpiration nl now) (Expiration expected) = true ->
              rejected).
  { intros Hlt.
    assert (E : forall inc, heartbeatInternal nl script (Some expected) inc s =
                (Some errExpiresEarlier, setClockReads (S (clockReads s)) s)).
    { intros inc. unfold heartbeatInternal. run_monad. fold now.
      destruct inc; simpl; rewrite Hlt; reflexivity. }
    unfold rejected.
    split; [apply E |]. split; [apply E |]. rewrite E. simpl. auto. }
  split; [exact A |].
  intros Hn Ht Ho Hl He H. apply A.
  apply heartbeatExpiration_ideal; assumption.
Qed.

Lemma heartbeat_expiration_regress_witness :
  let nl := mkConfig 1 10 2 (fun _ => mkTimestamp 100 0) MaxInt64 in
  let s := mkState 0 ∅ ∅ [] None (mkMetrics 0 0 0) [] in
  let l := mkLiveness 1 5 (mkTimestamp 500 0) false false in
  fst (Heartbeat nl [mkAttempt None None NoFault] (Some l) s) =
    Some errExpiresEarlier.
Proof.
  intros nl s l.
  assert (H := proj2 (heartbeat_expiration_regress nl
                        [mkAttempt None None NoFault] l false s)
                 ltac:(simpl; lia) ltac:(simpl; lia) ltac:(simpl; lia)
                 ltac:(simpl; lia) ltac:(vm_compute; discriminate) eq_refl).
  exact (f_equal fst (proj1 (proj2 H))).
Defined.

(* ===================================================================== *)
(** ** The shared update path *)
(* ===================================================================== *)

Section UpdatePath.

Context {C : Type}.
Variable update : livenessUpdate.
Variable oldLiveness : option Liveness.
Variable handleCondFailed : Liveness -> C -> M (option error * C).

Let key := NodeID (ULiveness update).

Lemma db_Txn_CPut_frame (ev : AttemptEvent) (k : roachpb_NodeID)
    (v : Liveness) (e : option Liveness) (s : State) :
  let s' := snd (db_Txn_CPut ev k v e s) in
  nodes s' = nodes s /\ clockReads s' = clockReads s /\
  callbacks s' = callbacks s /\ heartbeatCallback s' = heartbeatCallback s /\
  metrics s' = metrics s.
Proof.
  unfold db_Txn_CPut. destruct (ev_txn ev); simpl.
  - destruct (bool_decide _); simpl; auto.
  - auto.
  - auto.
  - auto.
Qed.

Lemma afterRetries_frame (pre : list AttemptEvent) (k : roachpb_NodeID)
    (v : Liveness) (e : option Liveness) (s : State) :
  let s' := afterRetries pre k v e s in
  nodes s' = nodes s /\ clockReads s' = clockReads s /\
  callbacks s' = callbacks s /\ heartbeatCallback s' = heartbeatCallback s /\
  metrics s' = metrics s.
Proof.
  revert s. induction pre as [| ev pre IH]; intros s; simpl; [auto |].
  destruct (IH (snd (db_Txn_CPut ev k v e s))) as (H1 & H2 & H3 & H4 & H5).
  destruct (db_Txn_CPut_frame ev k v e s) as (G1 & G2 & G3 & G4 & G5).
  simpl in *. rewrite H1, H2, H3, H4, H5. auto.
Qed.

(** The check against the cache, when it lets the update through. *)
Lemma cache_check_passes (ev : AttemptEvent) (c : C) (s : State) :
  cacheAgrees update oldLiveness s ->
  updateLivenessAttempt ev update oldLiveness handleCondFailed c s =
    bind (db_Txn_CPut ev key (ULiveness update) oldLiveness)
      (fun res =>
         match res with
         | Some (ConditionFailedError actual) =>
             handleCondFailed (default LivenessZero actual) c
         | Some TransactionStatusError =>
             ret (Some (errRetryLiveness TransactionStatusError), c)
         | Some AmbiguousResultError =>
             ret (Some (errRetryLiveness AmbiguousResultError), c)
         | Some OtherKVError => ret (Some (errKV OtherKVError), c)
         | None =>
             bind (gets heartbeatCallback) (fun cb =>
               match cb with
               | Some fn => modify (emit [EvHeartbeatCallback fn]) ;;; ret (None, c)
               | None => ret (None, c)
               end)
         end) s.
Proof.
  intros Hc. unfold updateLivenessAttempt, GetLiveness. fold key.
  destruct (ignoreCache update) eqn:Hi; simpl; [reflexivity |].
  unfold bind at 1. unfold bind at 1. unfold gets at 1. simpl.
  destruct Hc as [Hc | [Hc | Hc]]; [congruence | |]; fold key in Hc; rewrite Hc.
  - reflexivity.
  - destruct oldLiveness as [old |]; [| reflexivity].
    destruct (decide (old = old)); [reflexivity | congruence].
Qed.

(** A retryable attempt runs its transaction and goes round the loop. *)
Lemma updateLiveness_retry (ev : AttemptEvent) (script : list AttemptEvent)
    (c : C) (s : State) :
  retryable ev = true ->
  cacheAgrees update oldLiveness s ->
  updateLiveness (ev :: script) update oldLiveness handleCondFailed c s =
    updateLiveness script update oldLiveness handleCondFailed c
      (snd (db_Txn_CPut ev key (ULiveness update) oldLiveness s)).
Proof.
  intros Hr Hc. simpl. unfold retryable in Hr. unfold syncEngines.
  destruct (ev_disk ev); [discriminate |].
  unfold bind at 1. rewrite (cache_check_passes ev c s Hc).
  unfold bind at 1. unfold db_Txn_CPut.
  destruct (ev_txn ev); try discriminate; reflexivity.
Qed.

Lemma updateLiveness_afterRetries (pre script : list AttemptEvent)
    (c : C) (s : State) :
  Forall (fun ev => retryable ev = true) pre ->
  cacheAgrees update oldLiveness s ->
  updateLiveness (pre ++ script) update oldLiveness handleCondFailed c s =
    updateLiveness script update oldLiveness handleCondFailed c
      (afterRetries pre key (ULiveness update) oldLiveness s).
Proof.
  intros Hpre. revert s.
  induction Hpre as [| ev pre Hev _ IH]; intros s Hc; [reflexivity |].
  rewrite <- app_comm_cons, (updateLiveness_retry _ _ _ _ Hev Hc). simpl.
  apply IH.
  destruct (db_Txn_CPut_frame ev key (ULiveness update) oldLiveness s) as [Hn _].
  unfold cacheAgrees in *. simpl in Hn. fold key in Hc |- *. rewrite Hn. exact Hc.
Qed.

(** A faultless attempt whose condition fails hands the stored value to
    the handler. *)
Lemma updateLivenessAttempt_condition_failed (ev : AttemptEvent)
    (c : C) (s : State) :
  faultless ev = true ->
  cacheAgrees update oldLiveness s ->
  kvSeen ev key (kv s) !! key <> oldLiveness ->
  updateLivenessAttempt ev update oldLiveness handleCondFailed c s =
    handleCondFailed (default LivenessZero (kvSeen ev key (kv s) !! key)) c
      (condFailedState ev (ULiveness update) oldLiveness s).
Proof.
  intros Hf Hc Hne. rewrite (cache_check_passes ev c s Hc).
  unfold faultless in Hf. unfold bind at 1. unfold db_Txn_CPut.
  destruct (ev_disk ev); [discriminate |].
  destruct (ev_txn ev); try discriminate.
  rewrite bool_decide_eq_false_2 by exact Hne. reflexivity.
Qed.

(** A faultless attempt whose condition holds writes the record and
    invokes the heartbeat callback, if one is registered. *)
Lemma updateLivenessAttempt_commit (ev : AttemptEvent) (c : C) (s : State) :
  faultless ev = true ->
  cacheAgrees update oldLiveness s ->
  kvSeen ev key (kv s) !! key = oldLiveness ->
  updateLivenessAttempt ev update oldLiveness handleCondFailed c s =
    ((None, c),
     emit (EvCPut key (ULiveness update) oldLiveness None ::
           match heartbeatCallback s with
           | Some fn => [EvHeartbeatCallback fn]
           | None => []
           end)
          (setKv (<[key := ULiveness update]> (kvSeen ev key (kv s))) s)).
Proof.
  intros Hf Hc He. rewrite (cache_check_passes ev c s Hc).
  unfold faultless in Hf. unfold bind at 1. unfold db_Txn_CPut.
  destruct (ev_disk ev); [discriminate |].
  destruct (ev_txn ev); try discriminate.
  rewrite bool_decide_eq_true_2 by exact He.
  run_monad. destruct (heartbeatCallback s); simpl.
  - unfold emit; simpl. rewrite <- app_assoc. reflexivity.
  - reflexivity.
Qed.

End UpdatePath.

Lemma bind_eq {A B : Type} (m : M A) (k : A -> M B) (s : State) :
  bind m k s = k (fst (m s)) (snd (m s)).
Proof. unfold bind. destruct (m s). reflexivity. Qed.

(* ===================================================================== *)
(** ** Condition failures *)
(* ===================================================================== *)

(** C4.  Take a heartbeat that passes the expiration check and the check
    against the cache and, after any number of retried attempts, sends a
    conditional put that fails on a stored record [actual].  The actual
    record is offered to the cache; then, if it is live at the next
    clock reading and the heartbeat does not increment the epoch, the
    heartbeat returns success and adds one to heartbeatsuccesses;
    otherwise it returns the epoch-incremented error and adds one to
    heartbeatfailures. *)
Theorem heartbeat_condition_failed (nl : Config)
    (pre : list AttemptEvent) (ev : AttemptEvent) (rest : list AttemptEvent)
    (liveness : option Liveness) (incrementEpoch : bool)
    (actual : Liveness) (s : State) :
  let update := heartbeatUpdate nl liveness incrementEpoch
                  (clockNow nl (clockReads s)) in
  let key := NodeID update in
  let s1 := afterRetries pre key update liveness
              (setClockReads (S (clockReads s)) s) in
  let s2 := snd (maybeUpdate nl actual (condFailedState ev update liveness s1)) in
  let live := IsLive actual (clockNow nl (clockReads s2)) (clockMaxOffset nl) in
  let s3 := setClockReads (S (clockReads s2)) s2 in
  match liveness with
  | Some l => Less (Expiration update) (Expiration l) = false
  | None => True
  end ->
  cacheAgrees (mkUpdate update false) liveness s ->
  Forall (fun e => retryable e = true) pre ->
  faultless ev = true ->
  kvSeen ev key (kv s1) !! key = Some actual ->
  Some actual <> liveness ->
  heartbeatInternal nl (pre ++ ev :: rest) liveness incrementEpoch s =
    if live && negb incrementEpoch
    then (None, snd (HeartbeatSuccesses_Inc s3))
    else (Some ErrEpochIncremented, snd (HeartbeatFailures_Inc s3)).
Proof.
  intros update key s1 s2 live s3 Hreg Hc Hpre Hf Hkv Hne.
  unfold heartbeatInternal. rewrite bind_eq.
  change (Now nl s) with
    (clockNow nl (clockReads s), setClockReads (S (clockReads s)) s).
  cbn [fst snd].
  fold update.
  assert (Hreg' : match liveness with
                  | Some l => Less (Expiration update) (Expiration l)
                  | None => false
                  end = false).
  { destruct liveness; [exact Hreg | reflexivity]. }
  rewrite Hreg', bind_eq.
  rewrite updateLiveness_afterRetries; [| exact Hpre | exact Hc].
  change (NodeID (ULiveness {| ULiveness := update; ignoreCache := false |}))
    with key.
  cbn [ULiveness]. fold s1.
  assert (Hc1 : cacheAgrees (mkUpdate update false) liveness s1).
  { destruct (afterRetries_frame pre key update liveness
                (setClockReads (S (clockReads s)) s)) as [Hn _].
    unfold cacheAgrees in *. fold s1 in Hn. simpl in *. rewrite Hn. exact Hc. }
  cbn [updateLiveness]. unfold syncEngines.
  assert (Hd : ev_disk ev = None).
  { unfold faultless in Hf. destruct (ev_disk ev); [discriminate | reflexivity]. }
  rewrite Hd, bind_eq.
  rewrite updateLivenessAttempt_condition_failed;
    [| exact Hf | exact Hc1
     | change (kvSeen ev key (kv s1) !! key <> liveness); rewrite Hkv; exact Hne].
  change (NodeID (ULiveness {| ULiveness := update; ignoreCache := false |}))
    with key.
  rewrite Hkv.
  change (default LivenessZero (Some actual)) with actual. cbn [ULiveness].
  unfold heartbeatCondFailed. rewrite !bind_eq. fold s2.
  unfold Now. cbn [fst snd]. fold live. fold s3.
  destruct (live && negb incrementEpoch); cbn [fst snd ret];
    rewrite ?bind_eq; reflexivity.
Qed.

Lemma heartbeat_condition_failed_witness :
  let nl := mkConfig 1 10 2 (fun _ => mkTimestamp 100 0) MaxInt64 in
  let expected := mkLiveness 1 5 (mkTimestamp 105 0) false false in
  let actual := mkLiveness 1 5 (mkTimestamp 400 0) false false in
  let s := mkState 0 {[ 1 := actual ]} ∅ [] None (mkMetrics 0 0 0) [] in
  let r := heartbeatInternal nl ([] ++ [mkAttempt None None NoFault])
             (Some expected) false s in
  fst r = None /\ HeartbeatSuccesses (metrics (snd r)) = 1.
Proof.
  intros nl expected actual s r.
  assert (H := heartbeat_condition_failed nl [] (mkAttempt None None NoFault) []
                 (Some expected) false actual s eq_refl
                 (or_intror (or_introl eq_refl)) ltac:(constructor)
                 eq_refl eq_refl ltac:(discriminate)).
  split.
  - exact (f_equal fst H).
  - exact (f_equal (fun p => HeartbeatSuccesses (metrics (snd p))) H).
Defined.

(** C5.  Take an [IncrementEpoch] on a record that is not live, that
    passes the check against the cache and, after any number of retried
    attempts, sends a conditional put that fails on a stored record
    [actual].  If the actual epoch is greater than the expected one the
    call returns success; if it is smaller the call fails with the
    unexpected-epoch error; if the epochs are equal it fails with the
    mismatch error.  In the three cases nothing is written, the epoch
    counter stays, and what is left is the state in which the actual
    record has been offered to the cache. *)
Theorem IncrementEpoch_condition_failed (nl : Config)
    (pre : list AttemptEvent) (ev : AttemptEvent) (rest : list AttemptEvent)
    (liveness actual : Liveness) (s : State) :
  let update := withEpoch liveness (wrap64 (Epoch liveness + 1)) in
  let key := NodeID liveness in
  let s1 := afterRetries pre key update (Some liveness)
              (setClockReads (S (clockReads s)) s) in
  let s2 := condFailedState ev update (Some liveness) s1 in
  let r := IncrementEpoch nl (pre ++ ev :: rest) liveness s in
  IsLive liveness (clockNow nl (clockReads s)) (clockMaxOffset nl) = false ->
  cacheAgrees (mkUpdate update false) (Some liveness) s ->
  Forall (fun e => retryable e = true) pre ->
  faultless ev = true ->
  kvSeen ev key (kv s1) !! key = Some actual ->
  actual <> liveness ->
  (Epoch liveness < Epoch actual -> fst r = None)
  /\ (Epoch actual < Epoch liveness ->
      fst r = Some (errUnexpectedEpoch (Epoch actual) (Epoch liveness)))
  /\ (Epoch actual = Epoch liveness ->
      fst r = Some (errMismatchIncrementing liveness actual))
  /\ snd r = snd (maybeUpdate nl actual s2)
  /\ kv (snd r) = kvSeen ev key (kv s1)
  /\ EpochIncrements (metrics (snd r)) = EpochIncrements (metrics s).
Proof.
  intros update key s1 s2 r Hlive Hc Hpre Hf Hkv Hne.
  assert (E : r = (match incrementEpochError liveness actual with
                   | errEpochAlreadyIncremented => None
                   | err => Some err
                   end, snd (maybeUpdate nl actual s2))).
  { unfold r, IncrementEpoch. rewrite bind_eq.
    change (Now nl s) with
      (clockNow nl (clockReads s), setClockReads (S (clockReads s)) s).
    cbn [fst snd]. rewrite Hlive. fold update. rewrite bind_eq.
    rewrite updateLiveness_afterRetries; [| exact Hpre | exact Hc].
    change (NodeID (ULiveness {| ULiveness := update; ignoreCache := false |}))
      with key.
    cbn [ULiveness]. fold s1.
    assert (Hc1 : cacheAgrees (mkUpdate update false) (Some liveness) s1).
    { destruct (afterRetries_frame pre key update (Some liveness)
                  (setClockReads (S (clockReads s)) s)) as [Hn _].
      unfold cacheAgrees in *. fold s1 in Hn. simpl in *. rewrite Hn. exact Hc. }
    cbn [updateLiveness]. unfold syncEngines.
    assert (Hd : ev_disk ev = None).
    { unfold faultless in Hf. destruct (ev_disk ev); [discriminate | reflexivity]. }
    rewrite Hd, bind_eq.
    rewrite updateLivenessAttempt_condition_failed;
      [| exact Hf | exact Hc1
       | change (kvSeen ev key (kv s1) !! key <> Some liveness);
         rewrite Hkv; congruence].
    change (NodeID (ULiveness {| ULiveness := update; ignoreCache := false |}))
      with key.
    rewrite Hkv.
    change (default LivenessZero (Some actual)) with actual. cbn [ULiveness].
    fold s2. unfold incrementEpochCondFailed. rewrite !bind_eq.
    cbn [fst snd ret].
    destruct (incrementEpochError liveness actual) eqn:He;
      try reflexivity.
    unfold incrementEpochError in He.
    destruct (Epoch liveness <? Epoch actual); [discriminate |].
    destruct (Epoch actual <? Epoch liveness); discriminate. }
  assert (Hs2 : kv (snd (maybeUpdate nl actual s2)) = kvSeen ev key (kv s1)
                /\ metrics (snd (maybeUpdate nl actual s2)) = metrics s).
  { rewrite maybeUpdate_eq. cbn [snd].
    destruct (afterRetries_frame pre key update (Some liveness)
                (setClockReads (S (clockReads s)) s))
      as (_ & _ & _ & _ & Hm).
    fold s1 in Hm.
    destruct (shouldReplaceLiveness _ actual) eqn:Hsr; simpl; auto.
    destruct (negb _ && _); simpl; auto. }
  rewrite E. cbn [fst snd]. unfold incrementEpochError.
  destruct Hs2 as [Hk Hm].
  repeat split.
  - intros H. apply Z.ltb_lt in H. rewrite H. reflexivity.
  - intros H. assert (H' : (Epoch liveness <? Epoch actual) = false)
      by (apply Z.ltb_ge; lia).
    rewrite H'. apply Z.ltb_lt in H. rewrite H. reflexivity.
  - intros H. rewrite H, Z.ltb_irrefl. reflexivity.
  - exact Hk.
  - rewrite Hm. reflexivity.
Qed.

Lemma IncrementEpoch_condition_failed_witness :
  let nl := mkConfig 1 10 2 (fun _ => mkTimestamp 100 0) MaxInt64 in
  let expected := mkLiveness 2 5 (mkTimestamp 50 0) false false in
  let actual := mkLiveness 2 6 (mkTimestamp 50 0) false false in
  let s := mkState 0 {[ 2 := actual ]} ∅ [] None (mkMetrics 0 0 0) [] in
  fst (IncrementEpoch nl ([] ++ [mkAttempt None None NoFault]) expected s) = None.
Proof.
  intros nl expected actual s.
  assert (H := IncrementEpoch_condition_failed nl []
                 (mkAttempt None None NoFault) [] expected actual s eq_refl
                 (or_intror (or_introl eq_refl)) ltac:(constructor)
                 eq_refl eq_refl ltac:(discriminate)).
  exact (proj1 H ltac:(simpl; lia)).
Defined.

(* ===================================================================== *)
(** ** The first heartbeat *)
(* ===================================================================== *)

(** C6, as amended.  Under every configuration of the clock, a first
    heartbeat (no expected record, [incrementEpoch = true]) of a node the
    cache knows nothing about, whose conditional put finds no record in
    the table, proposes and stores
    [{node_id: self, epoch: 1, expiration: now + liveness_threshold +
    max_clock_offset, draining: false, decommissioning: false}], where
    max_clock_offset counts as 0 when the clock's maximum offset is
    [ClocklessMaxOffset]: the epoch is 1, not 2.  The call succeeds, the
    cache holds the record, and heartbeatsuccesses grows by one.  The
    expiration is the one the code computes in 64-bit arithmetic; for
    non-negative wall times and durations that do not overflow it is
    the sum over the integers. *)
Theorem first_heartbeat_record (nl : Config)
    (pre : list AttemptEvent) (ev : AttemptEvent) (rest : list AttemptEvent)
    (s : State) :
  let now := clockNow nl (clockReads s) in
  let self := gossipNodeID nl in
  let offset :=
    if clockMaxOffset nl =? ClocklessMaxOffset nl then 0
    else clockMaxOffset nl in
  let record :=
    {| NodeID := self; Epoch := 1;
       Expiration := Add now (wrap64 (livenessThreshold nl + offset)) 0;
       Draining := false; Decommissioning := false |} in
  let s1 := afterRetries pre self record None
              (setClockReads (S (clockReads s)) s) in
  let r := heartbeatInternal nl (pre ++ ev :: rest) None true s in
  nodes s !! self = None ->
  Forall (fun e => retryable e = true) pre ->
  faultless ev = true ->
  kvSeen ev self (kv s1) !! self = None ->
  fst r = None
  /\ In (EvCPut self record None None) (trace (snd r))
  /\ kv (snd r) = <[self := record]> (kvSeen ev self (kv s1))
  /\ kv (snd r) !! self = Some record
  /\ nodes (snd r) !! self = Some record
  /\ HeartbeatSuccesses (metrics (snd r)) = HeartbeatSuccesses (metrics s) + 1
  /\ HeartbeatFailures (metrics (snd r)) = HeartbeatFailures (metrics s)
  /\ (0 <= WallTime now -> 0 <= livenessThreshold nl -> 0 <= offset ->
      WallTime now + livenessThreshold nl + offset <= MaxInt64 ->
      - 2 ^ 31 <= Logical now < 2 ^ 31 ->
      Expiration record =
        mkTimestamp (WallTime now + livenessThreshold nl + offset) (Logical now)).
Proof.
  intros now self offset record s1 r Hcache Hpre Hf Hkv.
  assert (Hideal : 0 <= WallTime now -> 0 <= livenessThreshold nl -> 0 <= offset ->
            WallTime now + livenessThreshold nl + offset <= MaxInt64 ->
            - 2 ^ 31 <= Logical now < 2 ^ 31 ->
            Expiration record =
              mkTimestamp (WallTime now + livenessThreshold nl + offset)
                          (Logical now)).
  { intros Hn Ht Ho Hmax Hl. unfold MaxInt64 in Hmax.
    cbn [record Expiration]. unfold Add.
    rewrite Z.add_0_r, (wrap32_small _ Hl).
    rewrite (wrap64_small (livenessThreshold nl + offset)) by lia.
    rewrite wrap64_small by lia. rewrite Z.add_assoc. reflexivity. }
  assert (Hu : heartbeatUpdate nl None true now = record) by reflexivity.
  assert (Hc : cacheAgrees (mkUpdate record false) None s).
  { right. left. exact Hcache. }
  destruct (afterRetries_frame pre self record None
              (setClockReads (S (clockReads s)) s))
    as (Hn1 & _ & _ & Hh1 & Hm1).
  fold s1 in Hn1, Hh1, Hm1. simpl in Hn1, Hh1, Hm1.
  assert (Hc1 : cacheAgrees (mkUpdate record false) None s1).
  { right. left. simpl. rewrite Hn1. exact Hcache. }
  set (s2 := emit (EvCPut self record None None ::
                   match heartbeatCallback s1 with
                   | Some fn => [EvHeartbeatCallback fn]
                   | None => []
                   end)
                  (setKv (<[self := record]> (kvSeen ev self (kv s1))) s1)).
  assert (E : r = (None, snd (HeartbeatSuccesses_Inc
                                (snd (maybeUpdate nl record s2))))).
  { unfold r, heartbeatInternal. rewrite bind_eq.
    change (Now nl s) with
      (clockNow nl (clockReads s), setClockReads (S (clockReads s)) s).
    cbn [fst snd]. fold now. rewrite Hu, bind_eq.
    rewrite updateLiveness_afterRetries; [| exact Hpre | exact Hc].
    change (NodeID (ULiveness {| ULiveness := record; ignoreCache := false |}))
      with self.
    cbn [ULiveness]. fold s1.
    cbn [updateLiveness]. unfold syncEngines.
    assert (Hd : ev_disk ev = None).
    { unfold faultless in Hf. destruct (ev_disk ev); [discriminate | reflexivity]. }
    rewrite Hd, bind_eq.
    rewrite updateLivenessAttempt_commit; [| exact Hf | exact Hc1 | exact Hkv].
    change (NodeID (ULiveness {| ULiveness := record; ignoreCache := false |}))
      with self.
    cbn [ULiveness fst snd ret]. fold s2.
    rewrite !bind_eq. reflexivity. }
  assert (Hold : default LivenessZero (nodes s2 !! NodeID record) = LivenessZero).
  { simpl. rewrite Hn1. fold self. rewrite Hcache. reflexivity. }
  assert (Hsr : shouldReplaceLiveness LivenessZero record = true)
    by reflexivity.
  rewrite E. cbn [fst snd]. rewrite maybeUpdate_eq. cbn [snd].
  rewrite Hold, Hsr.
  assert (Hin : In (EvCPut self record None None) (trace s2)).
  { simpl. apply in_or_app. right. left. reflexivity. }
  destruct (negb _ && _); simpl; rewrite Hm1.
  all: repeat split; try reflexivity; try apply lookup_insert_eq;
    try exact Hideal.
  - apply in_or_app. left. exact Hin.
  - exact Hin.
Qed.

Lemma first_heartbeat_record_witness :
  let nl := mkConfig 1 10 2 (fun _ => mkTimestamp 100 0) MaxInt64 in
  let s := mkState 0 ∅ ∅ [] None (mkMetrics 0 0 0) [] in
  let r := heartbeatInternal nl ([] ++ [mkAttempt None None NoFault]) None true s in
  fst r = None /\
  kv (snd r) !! 1 = Some (mkLiveness 1 1 (mkTimestamp 112 0) false false) /\
  HeartbeatSuccesses (metrics (snd r)) = 1.
Proof.
  intros nl s r.
  assert (H := first_heartbeat_record nl [] (mkAttempt None None NoFault) [] s
                 eq_refl ltac:(constructor) eq_refl eq_refl).
  destruct H as (H1 & _ & _ & H4 & _ & H6 & _).
  split; [exact H1 |]. split; [exact H4 | exact H6].
Defined.

(** C6 as written fails under the clockless configuration: the clock's
    maximum offset is then [ClocklessMaxOffset], the code counts it as
    zero, and the stored expiration is [now + liveness_threshold], which
    is not [now + liveness_threshold + max_clock_offset], neither in
    64-bit arithmetic nor over the integers. *)
Lemma first_heartbeat_clockless_counterexample :
  let nl := mkConfig 1 10 MaxInt64 (fun _ => mkTimestamp 100 0) MaxInt64 in
  let s := mkState 0 ∅ ∅ [] None (mkMetrics 0 0 0) [] in
  let r := heartbeatInternal nl [mkAttempt None None NoFault] None true s in
  let claimed :=
    {| NodeID := 1; Epoch := 1;
       Expiration := Add (mkTimestamp 100 0)
                         (wrap64 (livenessThreshold nl + clockMaxOffset nl)) 0;
       Draining := false; Decommissioning := false |} in
  fst r = None
  /\ kv (snd r) !! 1 = Some (mkLiveness 1 1 (mkTimestamp 110 0) false false)
  /\ kv (snd r) !! 1 <> Some claimed
  /\ 110 <> 100 + livenessThreshold nl + clockMaxOffset nl.
Proof.
  intros nl s r claimed. vm_compute.
  repeat split; intros H; discriminate H.
Qed.

(* ===================================================================== *)
(** ** The heartbeat callback follows the commits *)
(* ===================================================================== *)

Lemma hbFollowsCommits_app (cb : nat) (a b : list Event) (pending : bool) :
  hbFollowsCommits cb pending a = true ->
  hbFollowsCommits cb pending (a ++ b) = hbFollowsCommits cb false b.
Proof.
  revert pending. induction a as [| e a IH]; intros pending H; simpl in *.
  - destruct pending; [discriminate | reflexivity].
  - destruct e as [k v x [err |] | fn n | fn].
    + apply andb_true_iff in H as [-> H]. simpl. apply IH. exact H.
    + apply andb_true_iff in H as [-> H]. simpl. apply IH. exact H.
    + apply andb_true_iff in H as [-> H]. simpl. apply IH. exact H.
    + apply andb_true_iff in H as [H1 H]. rewrite H1. simpl. apply IH. exact H.
Qed.

Lemma hbFollowsCommits_isLive (cb : nat) (evs : list Event) :
  forallb isIsLiveCallback evs = true -> hbFollowsCommits cb false evs = true.
Proof.
  induction evs as [| e evs IH]; simpl; [reflexivity |].
  intros H. apply andb_true_iff in H as [He H].
  destruct e; try discriminate. simpl. apply IH. exact H.
Qed.

Lemma forallb_isLive_map (n : roachpb_NodeID) (cbs : list nat) :
  forallb isIsLiveCallback (map (fun fn => EvIsLiveCallback fn n) cbs) = true.
Proof. induction cbs; simpl; auto. Qed.

Section HeartbeatCallback.

Variable nl : Config.
Variable cb : nat.

Lemma hbStep_refl (s : State) : heartbeatCallback s = Some cb -> hbStep cb s s.
Proof.
  intros H. split; [exact H |]. exists []. rewrite app_nil_r. auto.
Qed.

Lemma hbStep_trans (s1 s2 s3 : State) :
  hbStep cb s1 s2 -> hbStep cb s2 s3 -> hbStep cb s1 s3.
Proof.
  intros [_ (a & Ha & Hfa)] [H3 (b & Hb & Hfb)].
  split; [exact H3 |]. exists (a ++ b). split.
  - rewrite Hb, Ha, app_assoc. reflexivity.
  - rewrite (hbFollowsCommits_app cb a b false Hfa). exact Hfb.
Qed.

Lemma hbStep_frame (s s' : State) :
  heartbeatCallback s = Some cb ->
  heartbeatCallback s' = heartbeatCallback s -> trace s' = trace s ->
  hbStep cb s s'.
Proof.
  intros H Hh Ht. split; [congruence |]. exists []. rewrite app_nil_r. auto.
Qed.

Lemma hbKeeps_ret {A : Type} (a : A) : hbKeeps cb (ret a).
Proof. intros s H. apply hbStep_refl. exact H. Qed.

Lemma hbKeeps_bind {A B : Type} (m : M A) (k : A -> M B) :
  hbKeeps cb m -> (forall a, hbKeeps cb (k a)) -> hbKeeps cb (bind m k).
Proof.
  intros Hm Hk s H. rewrite bind_eq.
  pose proof (Hm s H) as H1.
  apply (hbStep_trans _ _ _ H1). apply Hk. exact (proj1 H1).
Qed.

Lemma hbKeeps_gets {A : Type} (f : State -> A) : hbKeeps cb (gets f).
Proof. intros s H. apply hbStep_refl. exact H. Qed.

Lemma hbKeeps_Now : hbKeeps cb (Now nl).
Proof. intros s H. apply hbStep_frame; auto. Qed.

Lemma hbKeeps_HeartbeatSuccesses_Inc : hbKeeps cb HeartbeatSuccesses_Inc.
Proof. intros s H. apply hbStep_frame; auto. Qed.

Lemma hbKeeps_HeartbeatFailures_Inc : hbKeeps cb HeartbeatFailures_Inc.
Proof. intros s H. apply hbStep_frame; auto. Qed.

Lemma hbKeeps_EpochIncrements_Inc : hbKeeps cb EpochIncrements_Inc.
Proof. intros s H. apply hbStep_frame; auto. Qed.

Lemma hbKeeps_maybeUpdate (new : Liveness) : hbKeeps cb (maybeUpdate nl new).
Proof.
  intros s H. rewrite maybeUpdate_eq. cbn [snd].
  destruct (shouldReplaceLiveness _ new); [| apply hbStep_refl; exact H].
  destruct (negb _ && _).
  - split; [exact H |]. eexists. split; [reflexivity |].
    apply hbFollowsCommits_isLive, forallb_isLive_map.
  - apply hbStep_frame; auto.
Qed.

Lemma hbKeeps_if {A : Type} (b : bool) (m1 m2 : M A) :
  hbKeeps cb m1 -> hbKeeps cb m2 -> hbKeeps cb (if b then m1 else m2).
Proof. destruct b; auto. Qed.

(** One attempt: the callback is invoked right after the commit, and in
    no other case. *)
Lemma hbKeeps_updateLivenessAttempt {C : Type} (ev : AttemptEvent)
    (update : livenessUpdate) (oldLiveness : option Liveness)
    (handleCondFailed : Liveness -> C -> M (option error * C)) (c : C) :
  (forall actual c', hbKeeps cb (handleCondFailed actual c')) ->
  hbKeeps cb (updateLivenessAttempt ev update oldLiveness handleCondFailed c).
Proof.
  intros Hh. unfold updateLivenessAttempt.
  apply hbKeeps_bind.
  - destruct (negb (ignoreCache update)); [| apply hbKeeps_ret].
    apply hbKeeps_bind; [apply hbKeeps_gets |].
    intros [l |]; [| apply hbKeeps_ret].
    destruct oldLiveness as [old |]; [| apply hbKeeps_ret].
    destruct (decide (l = old)); apply hbKeeps_ret.
  - intros [l |]; [apply Hh |].
    intros s H. rewrite bind_eq.
    set (key := NodeID (ULiveness update)).
    set (holds := bool_decide (kvSeen ev key (kv s) !! key = oldLiveness)).
    unfold db_Txn_CPut. fold key. fold holds.
    destruct (ev_txn ev) as [| | applied |].
    + destruct holds; cbn [fst snd].
      * rewrite bind_eq. unfold gets. cbn [fst snd heartbeatCallback emit setKv].
        rewrite H. rewrite bind_eq. unfold modify, ret. cbn [fst snd].
        split; [exact H |]. eexists. split.
        -- simpl. rewrite <- app_assoc. reflexivity.
        -- simpl. rewrite Nat.eqb_refl. reflexivity.
      * eapply hbStep_trans; [| apply Hh; exact H].
        split; [exact H |]. eexists. split; reflexivity.
    + cbn [fst snd]. split; [exact H |]. eexists. split; reflexivity.
    + cbn [fst snd]. split; [exact H |]. eexists. split; reflexivity.
    + cbn [fst snd]. split; [exact H |]. eexists. split; reflexivity.
Qed.

Lemma hbKeeps_updateLiveness {C : Type} (script : list AttemptEvent)
    (update : livenessUpdate) (oldLiveness : option Liveness)
    (handleCondFailed : Liveness -> C -> M (option error * C)) (c : C) :
  (forall actual c', hbKeeps cb (handleCondFailed actual c')) ->
  hbKeeps cb (updateLiveness script update oldLiveness handleCondFailed c).
Proof.
  intros Hh. revert c.
  induction script as [| ev script IH]; intros c; cbn [updateLiveness].
  - apply hbKeeps_ret.
  - destruct (syncEngines ev); [apply hbKeeps_ret |].
    apply hbKeeps_bind; [apply hbKeeps_updateLivenessAttempt; exact Hh |].
    intros [[err |] c']; [| apply hbKeeps_ret].
    destruct err; try apply hbKeeps_ret. apply IH.
Qed.

Lemma hbKeeps_heartbeatInternal (script : list AttemptEvent)
    (liveness : option Liveness) (incrementEpoch : bool) :
  hbKeeps cb (heartbeatInternal nl script liveness incrementEpoch).
Proof.
  unfold heartbeatInternal.
  apply hbKeeps_bind; [apply hbKeeps_Now |]. intros now.
  apply hbKeeps_if; [apply hbKeeps_ret |].
  apply hbKeeps_bind.
  - apply hbKeeps_updateLiveness. intros actual c'. unfold heartbeatCondFailed.
    apply hbKeeps_bind; [apply hbKeeps_maybeUpdate |]. intros _.
    apply hbKeeps_bind; [apply hbKeeps_Now |]. intros now'.
    apply hbKeeps_if; apply hbKeeps_ret.
  - intros [[err |] c']; cbn [fst].
    + destruct err;
        (apply hbKeeps_bind;
         [first [apply hbKeeps_HeartbeatSuccesses_Inc
                | apply hbKeeps_HeartbeatFailures_Inc]
         | intros _; apply hbKeeps_ret]).
    + apply hbKeeps_bind; [apply hbKeeps_maybeUpdate |]. intros _.
      apply hbKeeps_bind; [apply hbKeeps_HeartbeatSuccesses_Inc |]. intros _.
      apply hbKeeps_ret.
Qed.

Lemma hbKeeps_IncrementEpoch (script : list AttemptEvent) (liveness : Liveness) :
  hbKeeps cb (IncrementEpoch nl script liveness).
Proof.
  unfold IncrementEpoch.
  apply hbKeeps_bind; [apply hbKeeps_Now |]. intros now.
  apply hbKeeps_if; [apply hbKeeps_ret |].
  apply hbKeeps_bind.
  - apply hbKeeps_updateLiveness. intros actual c'.
    unfold incrementEpochCondFailed.
    apply hbKeeps_bind; [apply hbKeeps_maybeUpdate |]. intros _.
    apply hbKeeps_ret.
  - intros [[err |] c']; cbn [fst].
    + destruct err; apply hbKeeps_ret.
    + apply hbKeeps_bind; [apply hbKeeps_maybeUpdate |]. intros _.
      apply hbKeeps_bind; [apply hbKeeps_EpochIncrements_Inc |]. intros _.
      apply hbKeeps_ret.
Qed.

Lemma hbKeeps_setDrainingInternal (script : list AttemptEvent)
    (liveness : option Liveness) (drain : bool) :
  hbKeeps cb (setDrainingInternal nl script liveness drain).
Proof.
  unfold setDrainingInternal.
  apply hbKeeps_bind.
  - apply hbKeeps_updateLiveness. intros actual c'.
    unfold setDrainingCondFailed.
    apply hbKeeps_bind; [apply hbKeeps_maybeUpdate |]. intros _.
    apply hbKeeps_if; apply hbKeeps_ret.
  - intros [[err |] c']; cbn [fst].
    + destruct err; apply hbKeeps_ret.
    + apply hbKeeps_bind; [apply hbKeeps_maybeUpdate |]. intros _.
      apply hbKeeps_ret.
Qed.

Lemma hbKeeps_SetDraining (rounds : list (list AttemptEvent)) (drain : bool) :
  hbKeeps cb (SetDraining nl rounds drain).
Proof.
  induction rounds as [| script rounds IH]; cbn [SetDraining].
  - apply hbKeeps_ret.
  - apply hbKeeps_bind; [apply hbKeeps_gets |]. intros liveness.
    apply hbKeeps_bind; [apply hbKeeps_setDrainingInternal |].
    intros [err |]; [apply IH | apply hbKeeps_ret].
Qed.

Lemma hbKeeps_setDecommissioningInternal (script : list AttemptEvent)
    (nodeID : roachpb_NodeID) (liveness : option Liveness) (decommission : bool) :
  hbKeeps cb (setDecommissioningInternal script nodeID liveness decommission).
Proof.
  unfold setDecommissioningInternal.
  apply hbKeeps_bind.
  - apply hbKeeps_updateLiveness. intros actual c'.
    unfold setDecommissioningCondFailed. apply hbKeeps_if; apply hbKeeps_ret.
  - intros [[err |] c']; [apply hbKeeps_ret |].
    destruct c'; [apply hbKeeps_ret |].
    destruct liveness; apply hbKeeps_ret.
Qed.

Lemma hbKeeps_SetDecommissioning (rounds : list DecommissionRound)
    (nodeID : roachpb_NodeID) (decommission : bool) :
  hbKeeps cb (SetDecommissioning nl rounds nodeID decommission).
Proof.
  induction rounds as [| r rounds IH]; cbn [SetDecommissioning].
  - apply hbKeeps_ret.
  - apply hbKeeps_bind.
    + unfold SetDecommissioning_attempt. apply hbKeeps_bind.
      * unfold db_GetProto. destruct (rd_read r);
          [apply hbKeeps_ret | apply hbKeeps_gets].
      * intros [[e |] oldLiveness]; [apply hbKeeps_ret |].
        destruct (decide (oldLiveness = LivenessZero)); [apply hbKeeps_ret |].
        apply hbKeeps_bind; [apply hbKeeps_maybeUpdate |]. intros _.
        apply hbKeeps_setDecommissioningInternal.
    + intros [[changed [err |]] |]; try apply hbKeeps_ret.
      destruct (Cause err); try apply hbKeeps_ret. apply IH.
Qed.

End HeartbeatCallback.

(** C10.  With a heartbeat callback registered, in the events any of the
    mutators adds to the trace every committed conditional put is
    followed at once by an invocation of that callback, whichever node's
    record was written ([IncrementEpoch] on any record, [SetDraining],
    [SetDecommissioning] of any node, the heartbeat), and the callback is
    invoked at no other point: not after a condition failure, hence not
    on the node-already-live outcome either. *)
Theorem heartbeat_callback_follows_commits (nl : Config) (cb : nat) (s : State) :
  heartbeatCallback s = Some cb ->
  (forall script liveness incrementEpoch,
     exists evs,
       trace (snd (heartbeatInternal nl script liveness incrementEpoch s))
         = trace s ++ evs /\
       hbFollowsCommits cb false evs = true)
  /\ (forall script liveness,
        exists evs,
          trace (snd (IncrementEpoch nl script liveness s)) = trace s ++ evs /\
          hbFollowsCommits cb false evs = true)
  /\ (forall rounds drain,
        exists evs,
          trace (snd (SetDraining nl rounds drain s)) = trace s ++ evs /\
          hbFollowsCommits cb false evs = true)
  /\ (forall rounds nodeID decommission,
        exists evs,
          trace (snd (SetDecommissioning nl rounds nodeID decommission s))
            = trace s ++ evs /\
          hbFollowsCommits cb false evs = true).
Proof.
  intros H. repeat split; intros.
  - exact (proj2 (hbKeeps_heartbeatInternal nl cb _ _ _ s H)).
  - exact (proj2 (hbKeeps_IncrementEpoch nl cb _ _ s H)).
  - exact (proj2 (hbKeeps_SetDraining nl cb _ _ s H)).
  - exact (proj2 (hbKeeps_SetDecommissioning nl cb _ _ _ s H)).
Qed.

(* ===================================================================== *)
(** ** Decommissioning *)
(* ===================================================================== *)

Lemma filter_isCommit_isLive (evs : list Event) :
  forallb isIsLiveCallback evs = true -> List.filter isCommit evs = [].
Proof.
  induction evs as [| e evs IH]; simpl; [reflexivity |].
  intros H. apply andb_true_iff in H as [He H].
  destruct e; try discriminate. simpl. apply IH. exact H.
Qed.

Lemma maybeUpdate_trace (nl : Config) (new : Liveness) (s : State) :
  let s' := snd (maybeUpdate nl new s) in
  kv s' = kv s /\
  exists evs, trace s' = trace s ++ evs /\ forallb isIsLiveCallback evs = true.
Proof.
  rewrite maybeUpdate_eq. cbn [snd].
  destruct (shouldReplaceLiveness _ new).
  - destruct (negb _ && _); (split; [reflexivity |]).
    + eexists. split; [reflexivity | apply forallb_isLive_map].
    + exists []. rewrite app_nil_r. auto.
  - split; [reflexivity |]. exists []. rewrite app_nil_r. auto.
Qed.











Lemma heartbeat_callback_follows_commits_witness :
  let nl := mkConfig 1 10 2 (fun _ => mkTimestamp 100 0) MaxInt64 in
  let expired := mkLiveness 2 5 (mkTimestamp 50 0) false false in
  let s := mkState 0 {[ 2 := expired ]} ∅ [] (Some 9%nat) (mkMetrics 0 0 0) [] in
  exists evs,
    trace (snd (IncrementEpoch nl [mkAttempt None None NoFault] expired s))
      = [] ++ evs /\
    hbFollowsCommits 9 false evs = true.
Proof.
  intros nl expired s.
  exact (proj1 (proj2 (heartbeat_callback_follows_commits nl 9%nat s eq_refl))
           [mkAttempt None None NoFault] expired).
Defined.

(* ===================================================================== *)
(** ** More on the dominance rule and the cache *)
(* ===================================================================== *)

Lemma Less_total (t u : Timestamp) :
  Less t u = false -> Less u t = false -> t = u.
Proof.
  intros H1 H2.
  assert (N1 : ~ (WallTime t < WallTime u \/
                  (WallTime t = WallTime u /\ Logical t < Logical u))).
  { intros H. apply Less_spec in H. congruence. }
  assert (N2 : ~ (WallTime u < WallTime t \/
                  (WallTime u = WallTime t /\ Logical u < Logical t))).
  { intros H. apply Less_spec in H. congruence. }
  apply Timestamp_eq; lia.
Qed.

Lemma Less_false_trans (t u v : Timestamp) :
  Less u t = false -> Less v u = false -> Less v t = false.
Proof.
  intros H1 H2.
  assert (N1 : ~ (WallTime u < WallTime t \/
                  (WallTime u = WallTime t /\ Logical u < Logical t))).
  { intros H. apply Less_spec in H. congruence. }
  assert (N2 : ~ (WallTime v < WallTime u \/
                  (WallTime v = WallTime u /\ Logical v < Logical u))).
  { intros H. apply Less_spec in H. congruence. }
  destruct (Less v t) eqn:E; [| reflexivity].
  apply Less_spec in E. lia.
Qed.

(** X1.  Two records, neither the zero record, replace each other
    exactly when they have the same epoch and expiration and differ in
    the draining or the decommissioning flag: this is the only way in
    which the rule lets the cache go back and forth. *)
Theorem shouldReplaceLiveness_mutual (a b : Liveness) :
  a <> LivenessZero -> b <> LivenessZero ->
  (shouldReplaceLiveness a b = true /\ shouldReplaceLiveness b a = true <->
   Epoch a = Epoch b /\ Expiration a = Expiration b /\
   (Draining a <> Draining b \/ Decommissioning a <> Decommissioning b)).
Proof.
  intros Ha Hb. unfold shouldReplaceLiveness.
  destruct (decide (a = LivenessZero)) as [| _]; [tauto |].
  destruct (decide (b = LivenessZero)) as [| _]; [tauto |].
  destruct (Z.eqb_spec (Epoch a) (Epoch b)) as [He | He].
  - rewrite <- He, Z.eqb_refl. cbn [negb].
    destruct (bool_decide_reflect (Expiration a = Expiration b)) as [Hx | Hx].
    + rewrite <- Hx, bool_decide_eq_true_2 by reflexivity. cbn [negb].
      rewrite !orb_true_iff, !negb_true_iff, <- !bool_neq_eqb.
      split.
      * intros [H _]. auto.
      * intros (_ & _ & H). split; [exact H |].
        destruct H as [H | H]; [left | right]; congruence.
    + rewrite bool_decide_eq_false_2 by congruence. cbn [negb].
      split.
      * intros [H1 H2]. apply Less_asym in H1. congruence.
      * intros (_ & H & _). tauto.
  - destruct (Z.eqb_spec (Epoch b) (Epoch a)) as [He' | He']; [congruence |].
    cbn [negb]. rewrite !Z.ltb_lt. split; [lia | tauto].
Qed.

Lemma shouldReplaceLiveness_mutual_witness :
  let a := mkLiveness 3 5 (mkTimestamp 100 0) false false in
  let b := mkLiveness 3 5 (mkTimestamp 100 0) true false in
  shouldReplaceLiveness a b = true /\ shouldReplaceLiveness b a = true.
Proof.
  intros a b.
  apply (proj2 (shouldReplaceLiveness_mutual a b
                  ltac:(discriminate) ltac:(discriminate))).
  split; [reflexivity |]. split; [reflexivity |]. left. discriminate.
Defined.

Lemma shouldReplaceLiveness_not_older (old new : Liveness) :
  old <> LivenessZero -> shouldReplaceLiveness old new = true ->
  notOlder old new.
Proof.
  intros Hz. unfold shouldReplaceLiveness, notOlder.
  destruct (decide (old = LivenessZero)) as [| _]; [tauto |].
  destruct (Z.eqb_spec (Epoch old) (Epoch new)) as [He | He]; cbn [negb].
  - destruct (bool_decide_reflect (Expiration old = Expiration new))
      as [Hx | Hx]; cbn [negb].
    + intros _. right. split; [exact He |]. rewrite Hx. apply Less_irrefl.
    + intros H. right. split; [exact He |]. apply Less_asym. exact H.
  - rewrite Z.ltb_lt. auto.
Qed.

Lemma notOlder_refl (l : Liveness) : notOlder l l.
Proof. right. split; [reflexivity | apply Less_irrefl]. Qed.

Lemma notOlder_trans (a b c : Liveness) :
  notOlder a b -> notOlder b c -> notOlder a c.
Proof.
  unfold notOlder. intros [H1 | [H1 X1]] [H2 | [H2 X2]].
  - left. lia.
  - left. lia.
  - left. lia.
  - right. split; [lia |]. eapply Less_false_trans; eassumption.
Qed.

(** What [maybeUpdate] does to the cache and to nothing else. *)
Lemma maybeUpdate_cache (nl : Config) (new : Liveness) (s : State) :
  let old := default LivenessZero (nodes s !! NodeID new) in
  let s' := snd (maybeUpdate nl new s) in
  nodes s' = (if shouldReplaceLiveness old new
              then <[NodeID new := new]> (nodes s) else nodes s)
  /\ kv s' = kv s /\ metrics s' = metrics s /\ callbacks s' = callbacks s
  /\ heartbeatCallback s' = heartbeatCallback s.
Proof.
  rewrite maybeUpdate_eq. cbn [snd].
  destruct (shouldReplaceLiveness _ new); [| auto].
  destruct (negb _ && _); cbn; auto.
Qed.

(** X2.  A record offered twice is accepted at most once: unless it is
    the zero record, offering it again changes nothing at all (no cache
    write, no clock reading, no callback). *)
Theorem maybeUpdate_idempotent (nl : Config) (new : Liveness) (s : State) :
  new <> LivenessZero ->
  maybeUpdate nl new (snd (maybeUpdate nl new s)) =
    (tt, snd (maybeUpdate nl new s)).
Proof.
  intros Hz.
  destruct (maybeUpdate_cache nl new s) as [Hn _].
  cbv zeta in Hn.
  rewrite (maybeUpdate_eq nl new (snd (maybeUpdate nl new s))).
  cbv zeta. rewrite Hn.
  destruct (shouldReplaceLiveness (default LivenessZero (nodes s !! NodeID new)) new)
    eqn:Hs.
  - rewrite lookup_insert_eq. cbn [default from_option id].
    assert (Hself : shouldReplaceLiveness new new = false).
    { unfold shouldReplaceLiveness.
      destruct (decide (new = LivenessZero)); [tauto |].
      rewrite Z.eqb_refl, bool_decide_eq_true_2 by reflexivity.
      cbn [negb]. destruct (Draining new), (Decommissioning new); reflexivity. }
    unfold id. rewrite Hself. reflexivity.
  - rewrite Hs. reflexivity.
Qed.

Lemma maybeUpdate_idempotent_witness :
  let nl := mkConfig 1 10 2 (fun _ => mkTimestamp 100 0) MaxInt64 in
  let s := mkState 0 ∅ ∅ [7%nat] None (mkMetrics 0 0 0) [] in
  let new := mkLiveness 4 1 (mkTimestamp 500 0) false false in
  maybeUpdate nl new (snd (maybeUpdate nl new s)) =
    (tt, snd (maybeUpdate nl new s)).
Proof.
  intros nl s new.
  exact (maybeUpdate_idempotent nl new s ltac:(discriminate)).
Defined.

Lemma maybeUpdate_monotone (nl : Config) (new : Liveness) (s : State) :
  wellKeyed (nodes s) ->
  let s' := snd (maybeUpdate nl new s) in
  wellKeyed (nodes s')
  /\ (forall n old, n <> 0 -> nodes s !! n = Some old ->
        exists l, nodes s' !! n = Some l /\ notOlder old l)
  /\ kv s' = kv s /\ metrics s' = metrics s.
Proof.
  intros Hwk s'.
  destruct (maybeUpdate_cache nl new s) as (Hn & Hk & Hm & _).
  fold s' in Hn, Hk, Hm. cbv zeta in Hn.
  split; [| split; [| auto]].
  - rewrite Hn. destruct (shouldReplaceLiveness _ new); [| exact Hwk].
    intros n l. rewrite lookup_insert. case_decide as Hd.
    + intros [= <-]. exact Hd.
    + apply Hwk.
  - intros n old Hn0 Hold. rewrite Hn.
    destruct (shouldReplaceLiveness _ new) eqn:Hs.
    + rewrite lookup_insert. case_decide as Hd.
      * exists new. split; [reflexivity |].
        subst n. rewrite Hold in Hs. cbn in Hs.
        apply shouldReplaceLiveness_not_older; [| exact Hs].
        intros ->. apply Hwk in Hold. cbn in Hold. congruence.
      * exists old. split; [exact Hold | apply notOlder_refl].
    + exists old. split; [exact Hold | apply notOlder_refl].
Qed.

(** X3.  Gossip never takes the cache back.  Through any run of gossip
    updates, decodable or not, a well-keyed cache stays well keyed, the
    record of a node (other than node 0) stays in the cache and is
    replaced only by records that are not older: greater epoch, or same
    epoch and an expiration that is not earlier.  The table and the
    counters are not touched. *)
Theorem gossipUpdates_monotone (nl : Config)
    (contents : list (option Liveness)) (s : State) :
  wellKeyed (nodes s) ->
  let s' := snd (gossipUpdates nl contents s) in
  wellKeyed (nodes s')
  /\ (forall n old, n <> 0 -> nodes s !! n = Some old ->
        exists l, nodes s' !! n = Some l /\ notOlder old l)
  /\ kv s' = kv s /\ metrics s' = metrics s.
Proof.
  revert s. induction contents as [| content contents IH]; intros s Hwk.
  - cbn. split; [exact Hwk |]. split; [| auto].
    intros n old _ H. exists old. split; [exact H | apply notOlder_refl].
  - cbn [gossipUpdates]. rewrite bind_eq.
    assert (Hstep : let s1 := snd (livenessGossipUpdate nl content s) in
              wellKeyed (nodes s1)
              /\ (forall n old, n <> 0 -> nodes s !! n = Some old ->
                    exists l, nodes s1 !! n = Some l /\ notOlder old l)
              /\ kv s1 = kv s /\ metrics s1 = metrics s).
    { destruct content as [l |]; cbn [livenessGossipUpdate].
      - apply maybeUpdate_monotone. exact Hwk.
      - cbn. split; [exact Hwk |]. split; [| auto].
        intros n old _ H. exists old. split; [exact H | apply notOlder_refl]. }
    cbv zeta in Hstep. destruct Hstep as (Hwk1 & Hmono1 & Hk1 & Hm1).
    destruct (IH _ Hwk1) as (Hwk2 & Hmono2 & Hk2 & Hm2).
    cbv zeta. split; [exact Hwk2 |]. split.
    + intros n old Hn0 Hold.
      destruct (Hmono1 n old Hn0 Hold) as (l1 & Hl1 & Ho1).
      destruct (Hmono2 n l1 Hn0 Hl1) as (l2 & Hl2 & Ho2).
      exists l2. split; [exact Hl2 |]. eapply notOlder_trans; eassumption.
    + split; congruence.
Qed.

Lemma gossipUpdates_monotone_witness :
  let nl := mkConfig 1 10 2 (fun _ => mkTimestamp 100 0) MaxInt64 in
  let old := mkLiveness 4 3 (mkTimestamp 500 0) false false in
  let stale := mkLiveness 4 2 (mkTimestamp 900 0) false false in
  let s := mkState 0 ∅ {[ 4 := old ]} [] None (mkMetrics 0 0 0) [] in
  exists l, nodes (snd (gossipUpdates nl [Some stale; None] s)) !! 4 = Some l /\
            notOlder old l.
Proof.
  intros nl old stale s.
  assert (Hwk : wellKeyed (nodes s)).
  { intros n l H.
    change (({[ 4 := old ]} : gmap Z Liveness) !! n = Some l) in H.
    apply lookup_singleton_Some in H as [<- <-]. reflexivity. }
  exact (proj1 (proj2 (gossipUpdates_monotone nl [Some stale; None] s Hwk))
           4 old ltac:(lia) eq_refl).
Defined.

(* ===================================================================== *)
(** ** More on the update path *)
(* ===================================================================== *)

Section UpdatePathFrame.

Context {C : Type}.
Variable update : livenessUpdate.
Variable oldLiveness : option Liveness.
Variable handleCondFailed : Liveness -> C -> M (option error * C).

(** Whatever the handler leaves alone, the update path leaves alone. *)
Lemma updateLiveness_metrics (script : list AttemptEvent) (c : C) (s : State) :
  (forall actual c' s', metrics (snd (handleCondFailed actual c' s')) = metrics s') ->
  metrics (snd (updateLiveness script update oldLiveness handleCondFailed c s))
    = metrics s.
Proof.
  intros Hh. revert c s.
  induction script as [| ev script IH]; intros c s; cbn [updateLiveness].
  - reflexivity.
  - destruct (syncEngines ev); [reflexivity |].
    rewrite bind_eq.
    assert (Ha : metrics (snd (updateLivenessAttempt ev update oldLiveness
                                 handleCondFailed c s)) = metrics s).
    { unfold updateLivenessAttempt. rewrite bind_eq.
      assert (Hk : forall known : M (option Liveness),
                 (forall s0, snd (known s0) = s0) ->
                 metrics (snd (match fst (known s) with
                   | Some l => handleCondFailed l c
                   | None =>
                       bind (db_Txn_CPut ev (NodeID (ULiveness update))
                               (ULiveness update) oldLiveness)
                         (fun res =>
                            match res with
                            | Some (ConditionFailedError actual) =>
                                handleCondFailed (default LivenessZero actual) c
                            | Some TransactionStatusError =>
                                ret (Some (errRetryLiveness TransactionStatusError), c)
                            | Some AmbiguousResultError =>
                                ret (Some (errRetryLiveness AmbiguousResultError), c)
                            | Some OtherKVError => ret (Some (errKV OtherKVError), c)
                            | None =>
                                bind (gets heartbeatCallback) (fun cb =>
                                  match cb with
                                  | Some fn =>
                                      modify (emit [EvHeartbeatCallback fn]) ;;;
                                      ret (None, c)
                                  | None => ret (None, c)
                                  end)
                            end)
                   end (snd (known s)))) = metrics s).
      { intros known Hid. rewrite Hid.
        destruct (fst (known s)) as [l |]; [apply Hh |].
        rewrite bind_eq.
        destruct (db_Txn_CPut_frame ev (NodeID (ULiveness update))
                    (ULiveness update) oldLiveness s) as (_ & _ & _ & _ & Hm).
        cbv zeta in Hm.
        destruct (fst (db_Txn_CPut ev _ _ oldLiveness s)) as [[a | | |] |];
          cbn [ret snd]; try exact Hm.
        - rewrite Hh. exact Hm.
        - rewrite bind_eq. unfold gets. cbn [fst snd].
          destruct (heartbeatCallback _); cbn; exact Hm. }
      apply Hk. intros s0.
      destruct (negb (ignoreCache update)); [| reflexivity].
      unfold GetLiveness. rewrite bind_eq. unfold gets. cbn [fst snd].
      destruct (nodes s0 !! _), oldLiveness as [old |]; try reflexivity.
      destruct (decide (l = old)); reflexivity. }
    destruct (updateLivenessAttempt ev update oldLiveness handleCondFailed c s)
      as [[[err |] c'] s1]; cbn [fst snd] in *; [| exact Ha].
    destruct err; cbn [ret snd]; try exact Ha.
    rewrite IH. exact Ha.
Qed.

End UpdatePathFrame.

Section UpdatePathErrors.

Context {C : Type}.
Variable update : livenessUpdate.
Variable oldLiveness : option Liveness.
Variable handleCondFailed : Liveness -> C -> M (option error * C).

(** The handler does not return an error of the key-value layer. *)
Hypothesis handler_error : forall actual c s e,
  fst (fst (handleCondFailed actual c s)) = Some e ->
  carriesRetryCause e = false.

(** Of the errors one attempt returns, only the retry error carries a
    transaction-status error or an ambiguous result. *)
Lemma updateLivenessAttempt_error (ev : AttemptEvent) (c : C) (s : State)
    (e : error) :
  fst (fst (updateLivenessAttempt ev update oldLiveness handleCondFailed c s))
    = Some e ->
  carriesRetryCause e = true -> exists k, e = errRetryLiveness k.
Proof.
  unfold updateLivenessAttempt. rewrite bind_eq.
  match goal with
  | |- context [fst (?known s)] =>
      generalize (snd (known s)); destruct (fst (known s)) as [l |]
  end; intros s0.
  - intros He Hc. rewrite (handler_error _ _ _ _ He) in Hc. discriminate.
  - rewrite bind_eq.
    generalize (snd (db_Txn_CPut ev (NodeID (ULiveness update))
                       (ULiveness update) oldLiveness s0)).
    destruct (fst (db_Txn_CPut ev _ _ oldLiveness s0)) as [[a | | |] |];
      intros s1; cbn [ret fst].
    + intros He Hc. rewrite (handler_error _ _ _ _ He) in Hc. discriminate.
    + intros [= <-] _. eauto.
    + intros [= <-] _. eauto.
    + intros [= <-] Hc. discriminate.
    + rewrite bind_eq. unfold gets. cbn [fst snd].
      destruct (heartbeatCallback s1); cbn; discriminate.
Qed.

(** No error of the update path carries a transaction-status error or an
    ambiguous result: the attempts that end in one are repeated. *)
Lemma updateLiveness_error (script : list AttemptEvent) (c : C) (s : State)
    (e : error) :
  fst (fst (updateLiveness script update oldLiveness handleCondFailed c s))
    = Some e ->
  carriesRetryCause e = false.
Proof.
  revert c s.
  induction script as [| ev script IH]; intros c s; cbn [updateLiveness].
  - intros [= <-]. reflexivity.
  - unfold syncEngines. destruct (ev_disk ev) as [[|] |];
      try (intros [= <-]; reflexivity).
    rewrite bind_eq.
    pose proof (updateLivenessAttempt_error ev c s) as Ha.
    destruct (updateLivenessAttempt ev update oldLiveness handleCondFailed c s)
      as [[[err |] c'] s1]; cbn [fst snd] in *; [| discriminate].
    specialize (Ha err eq_refl).
    destruct err; cbn [ret fst]; try (intros [= <-]);
      try (destruct (carriesRetryCause _) eqn:Hc; [| reflexivity];
           destruct (Ha eq_refl) as [k Hk]; discriminate Hk).
    apply IH.
Qed.

End UpdatePathErrors.

Lemma maybeUpdate_metrics (nl : Config) (new : Liveness) (s : State) :
  metrics (snd (maybeUpdate nl new s)) = metrics s.
Proof. apply maybeUpdate_cache. Qed.

Lemma heartbeatCondFailed_metrics (nl : Config) (inc : bool)
    (actual : Liveness) (c : unit) (s : State) :
  metrics (snd (heartbeatCondFailed nl inc actual c s)) = metrics s.
Proof.
  unfold heartbeatCondFailed. unfold bind at 1.
  pose proof (maybeUpdate_metrics nl actual s) as H.
  destruct (maybeUpdate nl actual s) as [[] s1]. cbn [snd] in H.
  unfold bind, Now. cbn. destruct (_ && _); cbn; exact H.
Qed.

(** X4.  The two heartbeat counters tell how a heartbeat ended.  A
    heartbeat that does not get the semaphore because its context is
    done returns the error of the context and changes nothing, no
    counter either.  Of the heartbeats that hold the semaphore, one
    rejected for an expiration that would regress counts nowhere; any
    other adds exactly one to heartbeatsuccesses when it returns nil,
    and exactly one to heartbeatfailures when it returns an error,
    whatever the disks and the key-value layer did.  The epoch counter
    is never touched. *)
Theorem heartbeat_counters (nl : Config) (acquired : bool)
    (script : list AttemptEvent)
    (liveness : option Liveness) (incrementEpoch : bool) (s : State) :
  let update := heartbeatUpdate nl liveness incrementEpoch
                  (clockNow nl (clockReads s)) in
  let regress := match liveness with
                 | Some l => Less (Expiration update) (Expiration l)
                 | None => false
                 end in
  let r := heartbeatInternal_sem nl acquired script liveness incrementEpoch s in
  let m := metrics s in
  let m' := metrics (snd r) in
  EpochIncrements m' = EpochIncrements m /\
  if negb acquired then r = (Some errContext, s)
  else if regress then fst r = Some errExpiresEarlier /\ m' = m
  else match fst r with
       | None => HeartbeatSuccesses m' = HeartbeatSuccesses m + 1 /\
                 HeartbeatFailures m' = HeartbeatFailures m
       | Some _ => HeartbeatFailures m' = HeartbeatFailures m + 1 /\
                   HeartbeatSuccesses m' = HeartbeatSuccesses m
       end.
Proof.
  intros update regress r m m'. subst r m'.
  unfold heartbeatInternal_sem.
  destruct acquired; cbn [negb]; [| split; reflexivity].
  unfold heartbeatInternal. rewrite bind_eq.
  change (Now nl s) with
    (clockNow nl (clockReads s), setClockReads (S (clockReads s)) s).
  cbn [fst snd]. fold update. fold regress.
  destruct regress; [cbn; auto |].
  rewrite bind_eq.
  pose proof (updateLiveness_metrics (mkUpdate update false) liveness
                (heartbeatCondFailed nl incrementEpoch) script tt
                (setClockReads (S (clockReads s)) s)
                (heartbeatCondFailed_metrics nl incrementEpoch)) as Hm.
  cbn [metrics setClockReads] in Hm. fold m in Hm.
  destruct (updateLiveness script _ liveness _ tt _) as [[[err |] []] s1].
  - cbn [fst snd] in *.
    destruct err; rewrite bind_eq; cbn; rewrite Hm; auto.
  - cbn [fst snd] in *. rewrite bind_eq.
    pose proof (maybeUpdate_metrics nl update s1) as Hu.
    destruct (maybeUpdate nl update s1) as [[] s2]. cbn [fst snd] in *.
    rewrite bind_eq. cbn. rewrite Hu, Hm. auto.
Qed.

Lemma heartbeatCondFailed_error (nl : Config) (inc : bool)
    (actual : Liveness) (c : unit) (s : State) :
  let err := fst (fst (heartbeatCondFailed nl inc actual c s)) in
  err = Some errNodeAlreadyLive \/ err = Some ErrEpochIncremented.
Proof.
  cbv zeta. unfold heartbeatCondFailed. rewrite !bind_eq.
  generalize (snd (maybeUpdate nl actual s)). intros s1.
  unfold Now. cbn [fst snd]. destruct (_ && _); cbn; [left | right]; reflexivity.
Qed.

Lemma incrementEpochCondFailed_error (nl : Config) (liveness actual : Liveness)
    (c : unit) (s : State) :
  fst (fst (incrementEpochCondFailed nl liveness actual c s))
    = Some (incrementEpochError liveness actual).
Proof.
  unfold incrementEpochCondFailed. rewrite !bind_eq. reflexivity.
Qed.

Lemma setDrainingCondFailed_error (nl : Config) (update actual : Liveness)
    (c : unit) (s : State) :
  let err := fst (fst (setDrainingCondFailed nl update actual c s)) in
  err = Some errNodeDrainingSet \/ err = Some errFailedToUpdate.
Proof.
  cbv zeta. unfold setDrainingCondFailed. rewrite !bind_eq.
  destruct (eqb _ _); cbn; [left | right]; reflexivity.
Qed.

(** X5.  Transaction-status errors and ambiguous results of the update
    path never reach a caller, under any wrapper: whatever the script,
    no error returned by [heartbeatInternal] (the exit at the semaphore
    included), [IncrementEpoch] or
    [setDrainingInternal] is the retry error or carries such an error
    of the key-value layer; the attempts that end in one are repeated
    until something else happens or the context expires.  The one place
    where such an error does surface is the read at the start of a round
    of [SetDecommissioning]: it is not retried, and the call returns it
    wrapped as unable-to-get-liveness; no other error returned by
    [SetDecommissioning] carries one. *)
Theorem retry_errors_do_not_escape (nl : Config) (s : State) :
  (forall acquired script liveness incrementEpoch e,
     fst (heartbeatInternal_sem nl acquired script liveness incrementEpoch s)
       = Some e ->
     carriesRetryCause e = false)
  /\ (forall script liveness e,
        fst (IncrementEpoch nl script liveness s) = Some e ->
        carriesRetryCause e = false)
  /\ (forall script liveness drain e,
        fst (setDrainingInternal nl script liveness drain s) = Some e ->
        carriesRetryCause e = false)
  /\ (forall rounds nodeID decommission changed e,
        fst (SetDecommissioning nl rounds nodeID decommission s)
          = Some (changed, Some e) ->
        carriesRetryCause e = true ->
        exists rd k,
          In rd rounds /\ rd_read rd = Some k /\
          e = errUnableToGetLiveness k).
Proof.
  split; [| split; [| split]].
  - intros acquired script liveness inc e. unfold heartbeatInternal_sem.
    destruct acquired; [| intros [= <-]; reflexivity].
    unfold heartbeatInternal. rewrite bind_eq.
    destruct (match liveness with Some _ => _ | None => false end);
      [intros [= <-]; reflexivity |].
    rewrite bind_eq.
    pose proof (updateLiveness_error
                  (mkUpdate (heartbeatUpdate nl liveness inc (fst (Now nl s))) false)
                  liveness (heartbeatCondFailed nl inc)) as H.
    assert (Hh : forall actual c' s' e',
               fst (fst (heartbeatCondFailed nl inc actual c' s')) = Some e' ->
               carriesRetryCause e' = false).
    { intros actual c' s' e'.
      destruct (heartbeatCondFailed_error nl inc actual c' s') as [-> | ->];
        intros [= <-]; reflexivity. }
    specialize (H Hh script tt (snd (Now nl s))).
    destruct (updateLiveness script _ liveness _ tt _) as [[[err |] []] s1];
      cbn [fst snd] in *.
    + specialize (H err eq_refl).
      destruct err; rewrite bind_eq; cbn [fst ret]; try discriminate;
        intros [= <-]; exact H.
    + rewrite !bind_eq. discriminate.
  - intros script liveness e. unfold IncrementEpoch. rewrite bind_eq.
    destruct (IsLive liveness _ _); [intros [= <-]; reflexivity |].
    rewrite bind_eq.
    pose proof (updateLiveness_error
                  (mkUpdate (withEpoch liveness (wrap64 (Epoch liveness + 1))) false)
                  (Some liveness) (incrementEpochCondFailed nl liveness)) as H.
    assert (Hh : forall actual c' s' e',
               fst (fst (incrementEpochCondFailed nl liveness actual c' s'))
                 = Some e' ->
               carriesRetryCause e' = false).
    { intros actual c' s' e'. rewrite incrementEpochCondFailed_error.
      unfold incrementEpochError. intros [= <-].
      destruct (_ <? _); [reflexivity |]. destruct (_ <? _); reflexivity. }
    specialize (H Hh script tt (snd (Now nl s))).
    destruct (updateLiveness script _ (Some liveness) _ tt _)
      as [[[err |] []] s1]; cbn [fst snd] in *.
    + specialize (H err eq_refl).
      destruct err; cbn [fst ret]; try discriminate; intros [= <-]; exact H.
    + rewrite !bind_eq. discriminate.
  - intros script liveness drain e. unfold setDrainingInternal. rewrite bind_eq.
    set (update := withDraining _ drain).
    pose proof (updateLiveness_error (mkUpdate update true) liveness
                  (setDrainingCondFailed nl update)) as H.
    assert (Hh : forall actual c' s' e',
               fst (fst (setDrainingCondFailed nl update actual c' s')) = Some e' ->
               carriesRetryCause e' = false).
    { intros actual c' s' e'.
      destruct (setDrainingCondFailed_error nl update actual c' s') as [-> | ->];
        intros [= <-]; reflexivity. }
    specialize (H Hh script tt s).
    destruct (updateLiveness script _ liveness _ tt _) as [[[err |] []] s1];
      cbn [fst snd] in *.
    + specialize (H err eq_refl).
      destruct err; cbn [fst ret]; try discriminate; intros [= <-]; exact H.
    + rewrite !bind_eq. discriminate.
  - intros rounds nodeID decommission changed e. revert s.
    induction rounds as [| rd rounds IH]; intros s; cbn [SetDecommissioning].
    + intros [= <- <-]. discriminate.
    + rewrite bind_eq.
      assert (Ha : forall ch e',
                 fst (SetDecommissioning_attempt nl rd nodeID decommission s)
                   = Some (ch, Some e') ->
                 carriesRetryCause e' = true ->
                 exists k, rd_read rd = Some k /\ e' = errUnableToGetLiveness k).
      { intros ch e'. unfold SetDecommissioning_attempt. rewrite bind_eq.
        unfold db_GetProto. destruct (rd_read rd) as [k |];
          cbn [fst snd ret gets].
        { intros [= <- <-] _. eauto. }
        destruct (decide _); [intros [= <- <-]; discriminate |].
        rewrite bind_eq. unfold setDecommissioningInternal. rewrite bind_eq.
        set (update := withDecommissioning _ decommission).
        set (s0 := snd (maybeUpdate nl _ s)).
        pose proof (updateLiveness_error (mkUpdate update true)
                      (Some (default LivenessZero (kv s !! nodeID)))
                      (setDecommissioningCondFailed update)) as H.
        assert (Hh : forall actual c' s' e0,
                   fst (fst (setDecommissioningCondFailed update actual c' s'))
                     = Some e0 ->
                   carriesRetryCause e0 = false).
        { intros actual c' s' e0. unfold setDecommissioningCondFailed.
          destruct (eqb _ _); [discriminate | intros [= <-]; reflexivity]. }
        specialize (H Hh (rd_script rd) false s0).
        destruct (updateLiveness (rd_script rd) _ _ _ false s0)
          as [[[err |] c'] s1]; cbn [fst snd ret] in *.
        - intros [= <- <-] Hc. rewrite (H err eq_refl) in Hc. discriminate.
        - destruct c'; discriminate. }
      destruct (SetDecommissioning_attempt nl rd nodeID decommission s)
        as [[[ch [err |]] |] s1]; cbn [fst snd ret] in *;
        try discriminate.
      assert (Hstop : Some (ch, Some err) = Some (changed, Some e) ->
                      carriesRetryCause e = true ->
                      exists rd0 k, In rd0 (rd :: rounds) /\ rd_read rd0 = Some k /\
                                    e = errUnableToGetLiveness k).
      { intros [= <- <-] Hc. destruct (Ha ch err eq_refl Hc) as (k & Hk & ->).
        exists rd, k. split; [left; reflexivity | auto]. }
      destruct (Cause err) eqn:Hc; cbn [fst ret]; try exact Hstop.
      intros Hr Hcr. destruct (IH s1 Hr Hcr) as (rd0 & k & Hin & Hk & He).
      exists rd0, k. split; [right; exact Hin | auto].
Qed.

Lemma retry_errors_do_not_escape_witness :
  let nl := mkConfig 1 10 2 (fun _ => mkTimestamp 100 0) MaxInt64 in
  let s := mkState 0 ∅ ∅ [] None (mkMetrics 0 0 0) [] in
  let rd := mkRound (Some TransactionStatusError) [] in
  let e := errUnableToGetLiveness TransactionStatusError in
  fst (SetDecommissioning nl [rd] 2 true s) = Some (false, Some e) /\
  exists rd0 k,
    In rd0 [rd] /\ rd_read rd0 = Some k /\ e = errUnableToGetLiveness k.
Proof.
  intros nl s rd e. split; [reflexivity |].
  exact (proj2 (proj2 (proj2 (retry_errors_do_not_escape nl s)))
           [rd] 2 true false e eq_refl eq_refl).
Defined.

(** The check against the cache, when it stops the update. *)
Lemma cache_check_fails {C : Type} (ev : AttemptEvent) (update : livenessUpdate)
    (oldLiveness : option Liveness)
    (handleCondFailed : Liveness -> C -> M (option error * C)) (c : C)
    (l : Liveness) (s : State) :
  ignoreCache update = false ->
  nodes s !! NodeID (ULiveness update) = Some l ->
  Some l <> oldLiveness ->
  updateLivenessAttempt ev update oldLiveness handleCondFailed c s =
    handleCondFailed l c s.
Proof.
  intros Hi Hc Hne.
  unfold updateLivenessAttempt, GetLiveness. rewrite Hi. cbn [negb].
  unfold bind at 1. unfold bind at 1. unfold gets at 1. rewrite Hc.
  destruct oldLiveness as [old |]; [| reflexivity].
  destruct (decide (l = old)) as [-> | _]; [congruence | reflexivity].
Qed.

(** X6.  A heartbeat that holds the semaphore and cannot sync the disks
    on its first attempt ([LogData] or [Commit] fails) sends no
    conditional put: it returns the error of the disk, counts as one
    failed heartbeat, and leaves table, cache and trace as they were. *)
Theorem heartbeat_disk_stall (nl : Config) (ev : AttemptEvent)
    (script : list AttemptEvent)
    (liveness : option Liveness) (incrementEpoch : bool) (e : error)
    (s : State) :
  let update := heartbeatUpdate nl liveness incrementEpoch
                  (clockNow nl (clockReads s)) in
  let r := heartbeatInternal_sem nl true (ev :: script) liveness
             incrementEpoch s in
  match liveness with
  | Some l => Less (Expiration update) (Expiration l) = false
  | None => True
  end ->
  syncEngines ev = Some e ->
  r = (Some e, snd (HeartbeatFailures_Inc (setClockReads (S (clockReads s)) s)))
  /\ (e = errLogDataFails \/ e = errCommitFails)
  /\ kv (snd r) = kv s /\ nodes (snd r) = nodes s /\ trace (snd r) = trace s
  /\ HeartbeatFailures (metrics (snd r)) = HeartbeatFailures (metrics s) + 1
  /\ HeartbeatSuccesses (metrics (snd r)) = HeartbeatSuccesses (metrics s).
Proof.
  intros update r Hreg He.
  assert (Hdisk : e = errLogDataFails \/ e = errCommitFails).
  { unfold syncEngines in He.
    destruct (ev_disk ev) as [[|] |]; [left | right | discriminate];
      congruence. }
  assert (E : r = (Some e, snd (HeartbeatFailures_Inc
                                  (setClockReads (S (clockReads s)) s)))).
  { unfold r, heartbeatInternal_sem, heartbeatInternal. rewrite bind_eq.
    change (Now nl s) with
      (clockNow nl (clockReads s), setClockReads (S (clockReads s)) s).
    cbn [fst snd]. fold update.
    assert (Hreg' : match liveness with
                    | Some l => Less (Expiration update) (Expiration l)
                    | None => false
                    end = false).
    { destruct liveness; [exact Hreg | reflexivity]. }
    rewrite Hreg', bind_eq. cbn [updateLiveness].
    rewrite He. cbn [ret fst snd].
    destruct Hdisk as [-> | ->]; reflexivity. }
  rewrite E. cbn. auto 10.
Qed.

Lemma heartbeat_disk_stall_witness :
  let nl := mkConfig 1 10 2 (fun _ => mkTimestamp 100 0) MaxInt64 in
  let l := mkLiveness 1 5 (mkTimestamp 105 0) false false in
  let s := mkState 0 {[ 1 := l ]} {[ 1 := l ]} [] None (mkMetrics 0 0 0) [] in
  let r := heartbeatInternal nl [mkAttempt (Some CommitFails) None NoFault]
             (Some l) false s in
  fst r = Some errCommitFails /\ trace (snd r) = [].
Proof.
  intros nl l s r.
  destruct (heartbeat_disk_stall nl (mkAttempt (Some CommitFails) None NoFault) []
              (Some l) false errCommitFails s eq_refl eq_refl)
    as (H1 & _ & _ & _ & H4 & _).
  split; [exact (f_equal fst H1) | exact H4].
Defined.

(** X7.  The check against the cache spares the key-value layer a
    conditional put that is known to fail: when the cache holds, for the
    node, a record other than the expected one, the heartbeat sends
    nothing and treats the cached record as the actual one (success if it
    is live and the epoch is not being incremented, the
    epoch-incremented error otherwise). *)
Theorem heartbeat_known_failure (nl : Config)
    (ev : AttemptEvent) (rest : list AttemptEvent)
    (liveness : option Liveness) (incrementEpoch : bool)
    (cached : Liveness) (s : State) :
  let update := heartbeatUpdate nl liveness incrementEpoch
                  (clockNow nl (clockReads s)) in
  let s1 := setClockReads (S (clockReads s)) s in
  let s2 := snd (maybeUpdate nl cached s1) in
  let live := IsLive cached (clockNow nl (clockReads s2)) (clockMaxOffset nl) in
  let s3 := setClockReads (S (clockReads s2)) s2 in
  let r := heartbeatInternal nl (ev :: rest) liveness incrementEpoch s in
  match liveness with
  | Some l => Less (Expiration update) (Expiration l) = false
  | None => True
  end ->
  syncEngines ev = None ->
  nodes s !! NodeID update = Some cached ->
  Some cached <> liveness ->
  r = (if live && negb incrementEpoch
       then (None, snd (HeartbeatSuccesses_Inc s3))
       else (Some ErrEpochIncremented, snd (HeartbeatFailures_Inc s3)))
  /\ kv (snd r) = kv s
  /\ exists evs, trace (snd r) = trace s ++ evs /\
                 forallb isIsLiveCallback evs = true.
Proof.
  intros update s1 s2 live s3 r Hreg Hd Hc Hne.
  assert (E : r = (if live && negb incrementEpoch
                   then (None, snd (HeartbeatSuccesses_Inc s3))
                   else (Some ErrEpochIncremented, snd (HeartbeatFailures_Inc s3)))).
  { unfold r, heartbeatInternal. rewrite bind_eq.
    change (Now nl s) with
      (clockNow nl (clockReads s), setClockReads (S (clockReads s)) s).
    cbn [fst snd]. fold update. fold s1.
    assert (Hreg' : match liveness with
                    | Some l => Less (Expiration update) (Expiration l)
                    | None => false
                    end = false).
    { destruct liveness; [exact Hreg | reflexivity]. }
    rewrite Hreg', bind_eq. cbn [updateLiveness]. rewrite Hd, bind_eq.
    assert (Ha : updateLivenessAttempt ev (mkUpdate update false) liveness
                   (heartbeatCondFailed nl incrementEpoch) tt s1
                 = heartbeatCondFailed nl incrementEpoch cached tt s1).
    { apply cache_check_fails; [reflexivity | exact Hc | exact Hne]. }
    rewrite Ha. unfold heartbeatCondFailed. rewrite !bind_eq. fold s2.
    unfold Now. cbn [fst snd]. fold live. fold s3.
    destruct (live && negb incrementEpoch); cbn [fst snd ret];
      rewrite ?bind_eq; reflexivity. }
  split; [exact E |].
  destruct (maybeUpdate_trace nl cached s1) as (Hk & evs & Ht & Hq).
  fold s2 in Hk, Ht.
  rewrite E.
  destruct (live && negb incrementEpoch); cbn; (split; [exact Hk |]);
    exists evs; auto.
Qed.

Lemma heartbeat_known_failure_witness :
  let nl := mkConfig 1 10 2 (fun _ => mkTimestamp 100 0) MaxInt64 in
  let expected := mkLiveness 1 5 (mkTimestamp 105 0) false false in
  let cached := mkLiveness 1 6 (mkTimestamp 90 0) false false in
  let s := mkState 0 {[ 1 := cached ]} {[ 1 := cached ]} [] None
             (mkMetrics 0 0 0) [] in
  let r := heartbeatInternal nl [mkAttempt None None NoFault] (Some expected)
             false s in
  fst r = Some ErrEpochIncremented /\ kv (snd r) = kv s.
Proof.
  intros nl expected cached s r.
  destruct (heartbeat_known_failure nl (mkAttempt None None NoFault) []
              (Some expected) false cached s eq_refl eq_refl eq_refl
              ltac:(discriminate)) as (H1 & H2 & _).
  split; [exact (f_equal fst H1) | exact H2].
Defined.

(** X8.  A heartbeat whose conditional put finds the expected record in
    the table commits: it returns nil, the table holds the proposed
    record, heartbeatsuccesses grows by one.  Without an epoch increment
    the proposed record is the expected one with nothing but its
    expiration renewed, and the cache ends up holding it as well. *)
Theorem heartbeat_commit (nl : Config)
    (pre : list AttemptEvent) (ev : AttemptEvent) (rest : list AttemptEvent)
    (liveness : option Liveness) (incrementEpoch : bool) (s : State) :
  let now := clockNow nl (clockReads s) in
  let update := heartbeatUpdate nl liveness incrementEpoch now in
  let key := NodeID update in
  let s1 := afterRetries pre key update liveness
              (setClockReads (S (clockReads s)) s) in
  let r := heartbeatInternal nl (pre ++ ev :: rest) liveness incrementEpoch s in
  match liveness with
  | Some l => Less (Expiration update) (Expiration l) = false
  | None => True
  end ->
  cacheAgrees (mkUpdate update false) liveness s ->
  Forall (fun e => retryable e = true) pre ->
  faultless ev = true ->
  kvSeen ev key (kv s1) !! key = liveness ->
  fst r = None
  /\ kv (snd r) = <[key := update]> (kvSeen ev key (kv s1))
  /\ HeartbeatSuccesses (metrics (snd r)) = HeartbeatSuccesses (metrics s) + 1
  /\ (incrementEpoch = false ->
      update = withExpiration (default (firstLiveness (gossipNodeID nl)) liveness)
                              (heartbeatExpiration nl now)
      /\ nodes (snd r) !! key = Some update).
Proof.
  intros now update key s1 r Hreg Hc Hpre Hf Hkv.
  destruct (afterRetries_frame pre key update liveness
              (setClockReads (S (clockReads s)) s))
    as (Hn1 & _ & _ & Hh1 & Hm1).
  fold s1 in Hn1, Hh1, Hm1. cbn in Hn1, Hh1, Hm1.
  assert (Hc1 : cacheAgrees (mkUpdate update false) liveness s1).
  { unfold cacheAgrees in *. cbn in *. rewrite Hn1. exact Hc. }
  set (s2 := emit (EvCPut key update liveness None ::
                   match heartbeatCallback s1 with
                   | Some fn => [EvHeartbeatCallback fn]
                   | None => []
                   end)
                  (setKv (<[key := update]> (kvSeen ev key (kv s1))) s1)).
  assert (E : r = (None, snd (HeartbeatSuccesses_Inc
                                (snd (maybeUpdate nl update s2))))).
  { unfold r, heartbeatInternal. rewrite bind_eq.
    change (Now nl s) with
      (clockNow nl (clockReads s), setClockReads (S (clockReads s)) s).
    cbn [fst snd]. fold now. fold update.
    assert (Hreg' : match liveness with
                    | Some l => Less (Expiration update) (Expiration l)
                    | None => false
                    end = false).
    { destruct liveness; [exact Hreg | reflexivity]. }
    rewrite Hreg', bind_eq.
    rewrite updateLiveness_afterRetries; [| exact Hpre | exact Hc].
    change (NodeID (ULiveness {| ULiveness := update; ignoreCache := false |}))
      with key.
    cbn [ULiveness]. fold s1.
    cbn [updateLiveness]. unfold syncEngines.
    assert (Hd : ev_disk ev = None).
    { unfold faultless in Hf. destruct (ev_disk ev); [discriminate | reflexivity]. }
    rewrite Hd, bind_eq.
    rewrite updateLivenessAttempt_commit; [| exact Hf | exact Hc1 | exact Hkv].
    change (NodeID (ULiveness {| ULiveness := update; ignoreCache := false |}))
      with key.
    cbn [ULiveness fst snd ret]. fold s2.
    rewrite !bind_eq. reflexivity. }
  destruct (maybeUpdate_cache nl update s2) as (Hn2 & Hk2 & Hm2 & _).
  cbv zeta in Hn2. fold key in Hn2.
  rewrite E. cbn [fst snd]. unfold HeartbeatSuccesses_Inc, modify.
  cbn [snd kv nodes metrics setMetrics HeartbeatSuccesses].
  split; [reflexivity |]. split; [rewrite Hk2; reflexivity |].
  split; [rewrite Hm2; cbn; rewrite Hm1; reflexivity |].
  intros ->. split.
  { unfold update, heartbeatUpdate. destruct liveness; reflexivity. }
  rewrite Hn2.
  change (nodes s2) with (nodes s1). rewrite Hn1.
  clear Hn2.
  destruct (shouldReplaceLiveness (default LivenessZero (nodes s !! key)) update)
    eqn:Hs; [apply lookup_insert_eq |].
  (* the cache refused the record: then it already holds it *)
  destruct Hc as [Hc | [Hc | Hc]]; [discriminate | |];
    cbn [ULiveness] in Hc; fold key in Hc; rewrite Hc in Hs |- *.
  - discriminate Hs.
  - destruct liveness as [l |]; [| discriminate Hs].
    cbn in Hs. f_equal.
    assert (Hu : update = withExpiration l (heartbeatExpiration nl now))
      by reflexivity.
    unfold shouldReplaceLiveness in Hs.
    destruct (decide (l = LivenessZero)); [discriminate |].
    rewrite Hu in Hs. cbn [Epoch withExpiration] in Hs.
    rewrite Z.eqb_refl in Hs. unfold withExpiration in Hs.
    cbn [negb Expiration Draining Decommissioning] in Hs.
    destruct (bool_decide_reflect
                (Expiration l = heartbeatExpiration nl now)) as [Hx | Hx].
    + rewrite Hu, <- Hx. destruct l; reflexivity.
    + cbn [negb] in Hs. exfalso. apply Hx.
      apply Less_total; [exact Hs |].
      rewrite Hu in Hreg. exact Hreg.
Qed.

Lemma heartbeat_commit_witness :
  let nl := mkConfig 1 10 2 (fun _ => mkTimestamp 100 0) MaxInt64 in
  let l := mkLiveness 1 5 (mkTimestamp 105 0) true false in
  let s := mkState 0 {[ 1 := l ]} {[ 1 := l ]} [] None (mkMetrics 0 0 0) [] in
  let r := heartbeatInternal nl ([] ++ [mkAttempt None None NoFault]) (Some l)
             false s in
  fst r = None /\
  nodes (snd r) !! 1 = Some (mkLiveness 1 5 (mkTimestamp 112 0) true false).
Proof.
  intros nl l s r.
  destruct (heartbeat_commit nl [] (mkAttempt None None NoFault) [] (Some l)
              false s eq_refl (or_intror (or_intror eq_refl))
              ltac:(constructor) eq_refl eq_refl) as (H1 & _ & _ & H4).
  split; [exact H1 | exact (proj2 (H4 eq_refl))].
Defined.

(* ===================================================================== *)
(** ** Commits of the update path *)
(* ===================================================================== *)

Section UpdatePathCommits.

Context {C : Type}.
Variable update : livenessUpdate.
Variable oldLiveness : option Liveness.
Variable handleCondFailed : Liveness -> C -> M (option error * C).

(** The handler fails, and all it adds to the trace are invocations of
    becomes-live callbacks. *)
Hypothesis handler_fails : forall actual c s,
  fst (fst (handleCondFailed actual c s)) <> None.
Hypothesis handler_trace : forall actual c s,
  exists evs, trace (snd (handleCondFailed actual c s)) = trace s ++ evs /\
              forallb isIsLiveCallback evs = true.

(** One attempt goes to the handler with the cached record, or sends the
    conditional put. *)
Lemma updateLivenessAttempt_cases (ev : AttemptEvent) (c : C) (s : State) :
  (exists l, updateLivenessAttempt ev update oldLiveness handleCondFailed c s
             = handleCondFailed l c s)
  \/ cacheAgrees update oldLiveness s.
Proof.
  unfold cacheAgrees.
  destruct (ignoreCache update) eqn:Hi; [right; left; reflexivity |].
  destruct (nodes s !! NodeID (ULiveness update)) as [l |] eqn:Hn;
    [| right; right; left; reflexivity].
  destruct (decide (Some l = oldLiveness)) as [He | Hne];
    [right; right; right; exact He |].
  left. exists l. apply cache_check_fails; assumption.
Qed.

(** A call of the update path commits at most once, and it returns nil
    exactly when it has committed. *)
Lemma updateLiveness_commits (script : list AttemptEvent) (c : C) (s : State) :
  let r := updateLiveness script update oldLiveness handleCondFailed c s in
  exists evs, trace (snd r) = trace s ++ evs /\
    ((fst (fst r) = None /\
      List.filter isCommit evs =
        [EvCPut (NodeID (ULiveness update)) (ULiveness update) oldLiveness None])
     \/ (fst (fst r) <> None /\ List.filter isCommit evs = [])).
Proof.
  revert c s. induction script as [| ev script IH]; intros c s;
    cbn [updateLiveness].
  - exists []. rewrite app_nil_r. split; [reflexivity |].
    right. split; [discriminate | reflexivity].
  - destruct (syncEngines ev) as [err |].
    + exists []. rewrite app_nil_r. split; [reflexivity |].
      right. split; [discriminate | reflexivity].
    + rewrite bind_eq.
      destruct (updateLivenessAttempt_cases ev c s) as [[l Hl] | Hc].
      * rewrite Hl.
        destruct (handler_trace l c s) as (evs & Ht & Hq).
        pose proof (handler_fails l c s) as Hf.
        destruct (handleCondFailed l c s) as [[[err |] c'] s1];
          cbn [fst snd] in *; [| congruence].
        destruct err; cbn [ret fst snd];
          try (exists evs; split; [exact Ht |]; right;
               split; [discriminate | apply filter_isCommit_isLive; exact Hq]).
        destruct (IH c' s1) as (evs2 & Ht2 & Hcase).
        exists (evs ++ evs2). split.
        -- rewrite Ht2, Ht, app_assoc. reflexivity.
        -- rewrite List.filter_app, (filter_isCommit_isLive evs Hq). exact Hcase.
      * rewrite (cache_check_passes update oldLiveness handleCondFailed ev c s Hc).
        rewrite bind_eq.
        set (key := NodeID (ULiveness update)).
        set (holds := bool_decide (kvSeen ev key (kv s) !! key = oldLiveness)).
        unfold db_Txn_CPut. fold key. fold holds.
        destruct (ev_txn ev) as [| | applied |].
        -- destruct holds; cbn [fst snd].
           ++ rewrite bind_eq. unfold gets. cbn [fst snd].
              destruct (heartbeatCallback _); cbn [fst snd ret].
              ** rewrite bind_eq. cbn [fst snd ret modify emit trace setKv].
                 eexists. split; [rewrite <- app_assoc; reflexivity |].
                 left. split; reflexivity.
              ** eexists. split; [reflexivity |]. left. split; reflexivity.
           ++ match goal with
              | |- context [handleCondFailed ?a c ?s0] =>
                  destruct (handler_trace a c s0) as (evs & Ht & Hq);
                  pose proof (handler_fails a c s0) as Hf;
                  destruct (handleCondFailed a c s0) as [[[err |] c'] s1]
              end; cbn [fst snd] in *; [| congruence].
              cbn [trace emit setKv] in Ht.
              destruct err; cbn [ret fst snd];
                try (eexists; split; [rewrite Ht, <- app_assoc; reflexivity |];
                     right; split; [discriminate |];
                     cbn [List.filter isCommit app];
                     apply filter_isCommit_isLive; exact Hq).
              destruct (IH c' s1) as (evs2 & Ht2 & Hcase).
              eexists. split.
              ** rewrite Ht2, Ht, <- !app_assoc. reflexivity.
              ** cbn [List.filter isCommit app].
                 rewrite List.filter_app, (filter_isCommit_isLive evs Hq).
                 exact Hcase.
        -- cbn [fst snd ret].
           match goal with
           | |- context [updateLiveness script _ _ _ c ?s1] =>
               destruct (IH c s1) as (evs & Ht & Hcase)
           end.
           eexists. split.
           ++ rewrite Ht. cbn [trace emit setKv]. rewrite <- app_assoc. reflexivity.
           ++ exact Hcase.
        -- cbn [fst snd ret].
           match goal with
           | |- context [updateLiveness script _ _ _ c ?s1] =>
               destruct (IH c s1) as (evs & Ht & Hcase)
           end.
           eexists. split.
           ++ rewrite Ht. cbn [trace emit setKv]. rewrite <- app_assoc. reflexivity.
           ++ exact Hcase.
        -- cbn [fst snd ret]. eexists. split; [reflexivity |].
           right. split; [discriminate | reflexivity].
Qed.

End UpdatePathCommits.

Lemma maybeUpdate_handler_trace (nl : Config) (actual : Liveness) (s : State) :
  exists evs, trace (snd (maybeUpdate nl actual s)) = trace s ++ evs /\
              forallb isIsLiveCallback evs = true.
Proof. apply maybeUpdate_trace. Qed.

Lemma incrementEpochCondFailed_trace (nl : Config) (liveness actual : Liveness)
    (c : unit) (s : State) :
  exists evs,
    trace (snd (incrementEpochCondFailed nl liveness actual c s)) = trace s ++ evs /\
    forallb isIsLiveCallback evs = true.
Proof.
  unfold incrementEpochCondFailed. rewrite !bind_eq. cbn [ret snd].
  apply maybeUpdate_handler_trace.
Qed.

Lemma incrementEpochCondFailed_metrics (nl : Config) (liveness actual : Liveness)
    (c : unit) (s : State) :
  metrics (snd (incrementEpochCondFailed nl liveness actual c s)) = metrics s.
Proof.
  unfold incrementEpochCondFailed. rewrite !bind_eq. cbn [ret snd].
  apply maybeUpdate_metrics.
Qed.

Lemma incrementEpochCondFailed_fails (nl : Config) (liveness actual : Liveness)
    (c : unit) (s : State) :
  fst (fst (incrementEpochCondFailed nl liveness actual c s)) <> None.
Proof. rewrite incrementEpochCondFailed_error. discriminate. Qed.

(** X9.  The epoch counter counts the increments the key-value layer
    acknowledged to this node.  Whatever the script, among the events of
    a call of [IncrementEpoch] at most one is a conditional put
    acknowledged as committed (the transaction returned no error), and
    epochincrements grows by exactly the number of these acknowledged
    commits, so by 0 or by 1; the heartbeat counters stay.  A put that
    was applied behind an ambiguous result is no acknowledged commit and
    is not in this count. *)
Theorem IncrementEpoch_counter (nl : Config) (script : list AttemptEvent)
    (liveness : Liveness) (s : State) :
  let r := IncrementEpoch nl script liveness s in
  exists evs, trace (snd r) = trace s ++ evs /\
    (length (List.filter isCommit evs) <= 1)%nat /\
    EpochIncrements (metrics (snd r)) =
      EpochIncrements (metrics s) + Z.of_nat (length (List.filter isCommit evs)) /\
    HeartbeatSuccesses (metrics (snd r)) = HeartbeatSuccesses (metrics s) /\
    HeartbeatFailures (metrics (snd r)) = HeartbeatFailures (metrics s).
Proof.
  intros r. subst r. unfold IncrementEpoch. rewrite bind_eq.
  change (Now nl s) with
    (clockNow nl (clockReads s), setClockReads (S (clockReads s)) s).
  cbn [fst snd].
  destruct (IsLive liveness _ _).
  - exists []. rewrite app_nil_r. cbn. repeat split; lia.
  - rewrite bind_eq.
    set (update := withEpoch liveness (wrap64 (Epoch liveness + 1))).
    set (s1 := setClockReads (S (clockReads s)) s).
    pose proof (updateLiveness_metrics (mkUpdate update false) (Some liveness)
                  (incrementEpochCondFailed nl liveness) script tt s1
                  (incrementEpochCondFailed_metrics nl liveness)) as Hm.
    destruct (updateLiveness_commits (mkUpdate update false) (Some liveness)
                (incrementEpochCondFailed nl liveness)
                (incrementEpochCondFailed_fails nl liveness)
                (incrementEpochCondFailed_trace nl liveness) script tt s1)
      as (evs & Ht & Hcase).
    destruct (updateLiveness script _ (Some liveness) _ tt s1)
      as [[err []] s2]. cbn [fst snd] in *.
    change (metrics s1) with (metrics s) in Hm.
    change (trace s1) with (trace s) in Ht.
    destruct Hcase as [[-> Hf] | [Hne Hf]].
    + rewrite bind_eq.
      destruct (maybeUpdate_trace nl update s2) as (_ & evs2 & Ht2 & Hq2).
      pose proof (maybeUpdate_metrics nl update s2) as Hm2.
      rewrite bind_eq. cbn [ret snd fst].
      unfold EpochIncrements_Inc, modify.
      cbn [snd trace metrics setMetrics EpochIncrements HeartbeatSuccesses
           HeartbeatFailures].
      exists (evs ++ evs2). split; [rewrite Ht2, Ht, app_assoc; reflexivity |].
      rewrite List.filter_app, Hf, (filter_isCommit_isLive evs2 Hq2).
      rewrite Hm2, Hm. cbn. repeat split; lia.
    + destruct err as [err |]; [| congruence].
      exists evs. rewrite Hf.
      destruct err; cbn [ret snd fst]; rewrite Hm; cbn;
        (split; [exact Ht |]); repeat split; lia.
Qed.

(** X10.  An [IncrementEpoch] on a record that is not live, whose
    conditional put finds that record in the table, commits: it returns
    nil, table and cache hold the record with the epoch raised by one and
    everything else as it was (the expiration too: the record stays
    expired), and epochincrements grows by one. *)
Theorem IncrementEpoch_commit (nl : Config)
    (pre : list AttemptEvent) (ev : AttemptEvent) (rest : list AttemptEvent)
    (liveness : Liveness) (s : State) :
  let update := withEpoch liveness (Epoch liveness + 1) in
  let key := NodeID liveness in
  let s1 := afterRetries pre key update (Some liveness)
              (setClockReads (S (clockReads s)) s) in
  let r := IncrementEpoch nl (pre ++ ev :: rest) liveness s in
  - 2 ^ 63 <= Epoch liveness < MaxInt64 ->
  IsLive liveness (clockNow nl (clockReads s)) (clockMaxOffset nl) = false ->
  cacheAgrees (mkUpdate update false) (Some liveness) s ->
  Forall (fun e => retryable e = true) pre ->
  faultless ev = true ->
  kvSeen ev key (kv s1) !! key = Some liveness ->
  fst r = None
  /\ kv (snd r) = <[key := update]> (kvSeen ev key (kv s1))
  /\ nodes (snd r) !! key = Some update
  /\ EpochIncrements (metrics (snd r)) = EpochIncrements (metrics s) + 1.
Proof.
  intros update key s1 r Hrange Hlive Hc Hpre Hf Hkv.
  assert (Hw : wrap64 (Epoch liveness + 1) = Epoch liveness + 1).
  { apply wrap64_small. unfold MaxInt64 in Hrange. lia. }
  destruct (afterRetries_frame pre key update (Some liveness)
              (setClockReads (S (clockReads s)) s))
    as (Hn1 & _ & _ & Hh1 & Hm1).
  fold s1 in Hn1, Hh1, Hm1. cbn in Hn1, Hh1, Hm1.
  assert (Hc1 : cacheAgrees (mkUpdate update false) (Some liveness) s1).
  { unfold cacheAgrees in *. cbn in *. rewrite Hn1. exact Hc. }
  set (s2 := emit (EvCPut key update (Some liveness) None ::
                   match heartbeatCallback s1 with
                   | Some fn => [EvHeartbeatCallback fn]
                   | None => []
                   end)
                  (setKv (<[key := update]> (kvSeen ev key (kv s1))) s1)).
  assert (E : r = (None, snd (EpochIncrements_Inc
                                (snd (maybeUpdate nl update s2))))).
  { unfold r, IncrementEpoch. rewrite bind_eq.
    change (Now nl s) with
      (clockNow nl (clockReads s), setClockReads (S (clockReads s)) s).
    cbn [fst snd]. rewrite Hlive, Hw. fold update. rewrite bind_eq.
    rewrite updateLiveness_afterRetries; [| exact Hpre | exact Hc].
    change (NodeID (ULiveness {| ULiveness := update; ignoreCache := false |}))
      with key.
    cbn [ULiveness]. fold s1.
    cbn [updateLiveness]. unfold syncEngines.
    assert (Hd : ev_disk ev = None).
    { unfold faultless in Hf. destruct (ev_disk ev); [discriminate | reflexivity]. }
    rewrite Hd, bind_eq.
    rewrite updateLivenessAttempt_commit; [| exact Hf | exact Hc1 | exact Hkv].
    change (NodeID (ULiveness {| ULiveness := update; ignoreCache := false |}))
      with key.
    cbn [ULiveness fst snd ret]. fold s2.
    rewrite !bind_eq. reflexivity. }
  destruct (maybeUpdate_cache nl update s2) as (Hn2 & Hk2 & Hm2 & _).
  cbv zeta in Hn2. change (NodeID update) with key in Hn2.
  rewrite E. cbn [fst snd]. unfold EpochIncrements_Inc, modify.
  cbn [snd kv nodes metrics setMetrics EpochIncrements].
  split; [reflexivity |]. split; [rewrite Hk2; reflexivity |].
  split; [| rewrite Hm2; cbn; rewrite Hm1; reflexivity].
  rewrite Hn2. change (nodes s2) with (nodes s1). rewrite Hn1. clear Hn2.
  assert (Hs : shouldReplaceLiveness
                 (default LivenessZero (nodes s !! key)) update = true).
  { destruct Hc as [Hc | [Hc | Hc]]; [discriminate | |];
      cbn [ULiveness] in Hc; change (NodeID update) with key in Hc; rewrite Hc.
    - reflexivity.
    - cbn. unfold shouldReplaceLiveness.
      destruct (decide (liveness = LivenessZero)); [reflexivity |].
      cbn [update withEpoch Epoch].
      destruct (Z.eqb_spec (Epoch liveness) (Epoch liveness + 1)); [lia |].
      cbn [negb]. apply Z.ltb_lt. lia. }
  rewrite Hs. apply lookup_insert_eq.
Qed.

Lemma IncrementEpoch_commit_witness :
  let nl := mkConfig 1 10 2 (fun _ => mkTimestamp 100 0) MaxInt64 in
  let expired := mkLiveness 2 5 (mkTimestamp 50 0) false false in
  let s := mkState 0 {[ 2 := expired ]} {[ 2 := expired ]} [] None
             (mkMetrics 0 0 0) [] in
  let r := IncrementEpoch nl ([] ++ [mkAttempt None None NoFault]) expired s in
  fst r = None /\
  nodes (snd r) !! 2 = Some (mkLiveness 2 6 (mkTimestamp 50 0) false false).
Proof.
  intros nl expired s r.
  destruct (IncrementEpoch_commit nl [] (mkAttempt None None NoFault) []
              expired s ltac:(unfold MaxInt64; cbn; lia) eq_refl
              (or_intror (or_intror eq_refl)) ltac:(constructor)
              eq_refl eq_refl) as (H1 & _ & H3 & _).
  split; [exact H1 | exact H3].
Defined.

(* ===================================================================== *)
(** ** Draining and decommissioning *)
(* ===================================================================== *)

Lemma gets_eq {A : Type} (f : State -> A) (s : State) : gets f s = (f s, s).
Proof. reflexivity. Qed.

(** X11.  When the conditional put of [setDrainingInternal] fails, the
    stored value is offered to the cache, and the call succeeds exactly
    when that value already has the requested draining flag; otherwise
    it fails, for [SetDraining] to try again.  A missing record counts
    as the zero record, whose flag is false. *)
Theorem setDrainingInternal_condition_failed (nl : Config)
    (pre : list AttemptEvent) (ev : AttemptEvent) (rest : list AttemptEvent)
    (liveness : option Liveness) (drain : bool) (s : State) :
  let update := withDraining (default (firstLiveness (gossipNodeID nl)) liveness)
                             drain in
  let key := NodeID update in
  let s1 := afterRetries pre key update liveness s in
  let actual := default LivenessZero (kvSeen ev key (kv s1) !! key) in
  let s2 := condFailedState ev update liveness s1 in
  Forall (fun e => retryable e = true) pre ->
  faultless ev = true ->
  kvSeen ev key (kv s1) !! key <> liveness ->
  setDrainingInternal nl (pre ++ ev :: rest) liveness drain s =
    (if eqb (Draining actual) drain then None else Some errFailedToUpdate,
     snd (maybeUpdate nl actual s2)).
Proof.
  intros update key s1 actual s2 Hpre Hf Hne.
  unfold setDrainingInternal. fold update. rewrite bind_eq.
  rewrite updateLiveness_afterRetries; [| exact Hpre | left; reflexivity].
  change (NodeID (ULiveness {| ULiveness := update; ignoreCache := true |}))
    with key.
  cbn [ULiveness]. fold s1.
  cbn [updateLiveness]. unfold syncEngines.
  assert (Hd : ev_disk ev = None).
  { unfold faultless in Hf. destruct (ev_disk ev); [discriminate | reflexivity]. }
  rewrite Hd, bind_eq.
  rewrite updateLivenessAttempt_condition_failed;
    [| exact Hf | left; reflexivity | exact Hne].
  change (NodeID (ULiveness {| ULiveness := update; ignoreCache := true |}))
    with key.
  cbn [ULiveness]. fold actual. fold s2.
  unfold setDrainingCondFailed. rewrite !bind_eq.
  change (Draining update) with drain.
  destruct (eqb (Draining actual) drain); reflexivity.
Qed.

Lemma setDrainingInternal_condition_failed_witness :
  let nl := mkConfig 1 10 2 (fun _ => mkTimestamp 100 0) MaxInt64 in
  let cached := mkLiveness 1 5 (mkTimestamp 90 0) false false in
  let stored := mkLiveness 1 5 (mkTimestamp 95 0) true false in
  let s := mkState 0 {[ 1 := stored ]} {[ 1 := cached ]} [] None
             (mkMetrics 0 0 0) [] in
  fst (setDrainingInternal nl ([] ++ [mkAttempt None None NoFault])
         (Some cached) true s) = None.
Proof.
  intros nl cached stored s.
  exact (f_equal fst
           (setDrainingInternal_condition_failed nl []
              (mkAttempt None None NoFault) [] (Some cached) true s
              ltac:(constructor) eq_refl ltac:(discriminate))).
Defined.

Lemma setDrainingInternal_commit (nl : Config)
    (ev : AttemptEvent) (rest : list AttemptEvent)
    (liveness : option Liveness) (drain : bool) (s : State) :
  let update := withDraining (default (firstLiveness (gossipNodeID nl)) liveness)
                             drain in
  let key := NodeID update in
  let s2 := emit (EvCPut key update liveness None ::
                  match heartbeatCallback s with
                  | Some fn => [EvHeartbeatCallback fn]
                  | None => []
                  end)
                 (setKv (<[key := update]> (kvSeen ev key (kv s))) s) in
  faultless ev = true ->
  kvSeen ev key (kv s) !! key = liveness ->
  setDrainingInternal nl (ev :: rest) liveness drain s =
    (None, snd (maybeUpdate nl update s2)).
Proof.
  intros update key s2 Hf Hkv.
  unfold setDrainingInternal. fold update. rewrite bind_eq.
  cbn [updateLiveness]. unfold syncEngines.
  assert (Hd : ev_disk ev = None).
  { unfold faultless in Hf. destruct (ev_disk ev); [discriminate | reflexivity]. }
  rewrite Hd, bind_eq.
  rewrite updateLivenessAttempt_commit;
    [| exact Hf | left; reflexivity | exact Hkv].
  change (NodeID (ULiveness {| ULiveness := update; ignoreCache := true |}))
    with key.
  cbn [ULiveness fst snd ret]. fold s2.
  rewrite !bind_eq. reflexivity.
Qed.

(** X12.  [SetDraining] gets through a stale cache.  If the table holds
    this node's record, the cache holds an older one (or none) and the
    flag is not yet the requested one, then the first round fails on the
    stale expected value and heals the cache, and the second round
    commits: table and cache end with the table's record carrying the
    requested draining flag, nothing else changed in it. *)
Theorem SetDraining_heals_stale_cache (nl : Config)
    (ev1 ev2 : AttemptEvent) (rest1 rest2 : list AttemptEvent)
    (more : list (list AttemptEvent)) (drain : bool)
    (stored : Liveness) (s : State) :
  let self := gossipNodeID nl in
  let cached := nodes s !! self in
  let s' := snd (SetDraining nl ((ev1 :: rest1) :: (ev2 :: rest2) :: more)
                   drain s) in
  wellKeyed (nodes s) ->
  kv s !! self = Some stored -> NodeID stored = self ->
  stored <> LivenessZero ->
  Some stored <> cached ->
  shouldReplaceLiveness (default LivenessZero cached) stored = true ->
  Draining stored <> drain ->
  faultless ev1 = true -> ev_remote ev1 = None ->
  faultless ev2 = true -> ev_remote ev2 = None ->
  kv s' = <[self := withDraining stored drain]> (kv s)
  /\ nodes s' !! self = Some (withDraining stored drain).
Proof.
  intros self cached s' Hwk Hkv Hid Hz Hstale Hnewer Hflag Hf1 Hr1 Hf2 Hr2.
  assert (Hkey : NodeID (withDraining (default (firstLiveness self) cached) drain)
                 = self).
  { destruct cached as [c |] eqn:Hc; [| reflexivity].
    cbn. apply Hwk. exact Hc. }
  (* the first round *)
  assert (E1 : setDrainingInternal nl ([] ++ ev1 :: rest1) cached drain s =
               (Some errFailedToUpdate,
                snd (maybeUpdate nl stored
                       (condFailedState ev1
                          (withDraining (default (firstLiveness self) cached) drain)
                          cached s)))).
  { rewrite setDrainingInternal_condition_failed;
      [| constructor | exact Hf1 |].
    - fold self. cbn [afterRetries]. rewrite Hkey.
      unfold kvSeen. rewrite Hr1, Hkv.
      change (default LivenessZero (Some stored)) with stored.
      apply bool_neq_eqb in Hflag. rewrite Hflag. reflexivity.
    - fold self. cbn [afterRetries]. rewrite Hkey.
      unfold kvSeen. rewrite Hr1, Hkv. exact Hstale. }
  cbn [app] in E1.
  set (s1 := snd (maybeUpdate nl stored
                    (condFailedState ev1
                       (withDraining (default (firstLiveness self) cached) drain)
                       cached s))) in *.
  assert (Hs1 : nodes s1 = <[self := stored]> (nodes s) /\ kv s1 = kv s).
  { unfold s1.
    destruct (maybeUpdate_cache nl stored
                (condFailedState ev1
                   (withDraining (default (firstLiveness self) cached) drain)
                   cached s)) as (Hn & Hk & _).
    cbv zeta in Hn. rewrite Hn, Hk. unfold condFailedState.
    cbn [nodes kv emit setKv]. rewrite Hid. fold cached. rewrite Hnewer.
    split; [reflexivity |]. rewrite Hkey. unfold kvSeen. rewrite Hr1.
    reflexivity. }
  destruct Hs1 as [Hn1 Hk1].
  (* the second round *)
  assert (Hself1 : nodes s1 !! self = Some stored).
  { rewrite Hn1. apply lookup_insert_eq. }
  assert (E2 : setDrainingInternal nl (ev2 :: rest2) (Some stored) drain s1 =
               (None,
                snd (maybeUpdate nl (withDraining stored drain)
                       (emit (EvCPut self (withDraining stored drain)
                                (Some stored) None ::
                              match heartbeatCallback s1 with
                              | Some fn => [EvHeartbeatCallback fn]
                              | None => []
                              end)
                             (setKv (<[self := withDraining stored drain]> (kv s1))
                                    s1))))).
  { rewrite setDrainingInternal_commit; [| exact Hf2 |].
    - cbn [default from_option id withDraining NodeID]. rewrite Hid.
      unfold kvSeen. rewrite Hr2. reflexivity.
    - cbn [default from_option id withDraining NodeID]. rewrite Hid.
      unfold kvSeen. rewrite Hr2, Hk1. exact Hkv. }
  assert (E : s' = snd (maybeUpdate nl (withDraining stored drain)
                       (emit (EvCPut self (withDraining stored drain)
                                (Some stored) None ::
                              match heartbeatCallback s1 with
                              | Some fn => [EvHeartbeatCallback fn]
                              | None => []
                              end)
                             (setKv (<[self := withDraining stored drain]> (kv s1))
                                    s1)))).
  { unfold s'. cbn [SetDraining]. unfold Self, GetLiveness.
    rewrite bind_eq, gets_eq. cbn [fst snd]. fold self. fold cached.
    rewrite bind_eq, E1. cbn [fst snd].
    rewrite bind_eq, gets_eq. cbn [fst snd]. rewrite Hself1.
    rewrite bind_eq, E2. reflexivity. }
  rewrite E.
  match goal with
  | |- context [maybeUpdate nl ?u ?s0] =>
      destruct (maybeUpdate_cache nl u s0) as (Hn & Hk & _)
  end.
  cbv zeta in Hn. rewrite Hn, Hk. cbn [nodes kv emit setKv withDraining NodeID].
  rewrite Hid, Hself1, Hk1.
  change (default LivenessZero (Some stored)) with stored.
  split; [reflexivity |].
  assert (Hs : shouldReplaceLiveness stored (withDraining stored drain) = true).
  { unfold shouldReplaceLiveness, withDraining.
    destruct (decide (stored = LivenessZero)); [tauto |].
    cbn [Epoch Expiration Draining Decommissioning].
    rewrite Z.eqb_refl, bool_decide_eq_true_2 by reflexivity. cbn [negb].
    apply bool_neq_eqb in Hflag. rewrite Hflag. reflexivity. }
  rewrite Hs. apply lookup_insert_eq.
Qed.

Lemma SetDraining_heals_stale_cache_witness :
  let nl := mkConfig 1 10 2 (fun _ => mkTimestamp 100 0) MaxInt64 in
  let cached := mkLiveness 1 5 (mkTimestamp 90 0) false false in
  let stored := mkLiveness 1 5 (mkTimestamp 95 0) false false in
  let s := mkState 0 {[ 1 := stored ]} {[ 1 := cached ]} [] None
             (mkMetrics 0 0 0) [] in
  let ok := mkAttempt None None NoFault in
  nodes (snd (SetDraining nl [[ok]; [ok]] true s)) !! 1 =
    Some (mkLiveness 1 5 (mkTimestamp 95 0) true false).
Proof.
  intros nl cached stored s ok.
  assert (Hwk : wellKeyed (nodes s)).
  { intros n l H.
    change (({[ 1 := cached ]} : gmap Z Liveness) !! n = Some l) in H.
    apply lookup_singleton_Some in H as [<- <-]. reflexivity. }
  exact (proj2 (SetDraining_heals_stale_cache nl ok ok [] [] [] true stored s
                  Hwk eq_refl eq_refl ltac:(discriminate) ltac:(discriminate)
                  eq_refl ltac:(discriminate) eq_refl eq_refl eq_refl eq_refl)).
Defined.

Lemma SetDecommissioning_commit (nl : Config)
    (ev : AttemptEvent) (rest : list AttemptEvent)
    (rounds : list DecommissionRound) (nodeID : roachpb_NodeID)
    (decommission : bool) (old : Liveness) (s : State) :
  let r := SetDecommissioning nl (mkRound None (ev :: rest) :: rounds) nodeID
             decommission s in
  nodeID <> 0 -> kv s !! nodeID = Some old -> NodeID old = nodeID ->
  faultless ev = true -> ev_remote ev = None ->
  fst r = Some (negb (eqb (Decommissioning old) decommission), None)
  /\ kv (snd r) = <[nodeID := withDecommissioning old decommission]> (kv s).
Proof.
  intros r Hn0 Hkv Hid Hf Hr.
  assert (Hz : old <> LivenessZero).
  { intros ->. cbn in Hid. congruence. }
  set (update := withDecommissioning old decommission).
  set (s1 := snd (maybeUpdate nl old s)).
  destruct (maybeUpdate_cache nl old s) as (_ & Hk1 & _).
  fold s1 in Hk1.
  set (s2 := emit (EvCPut nodeID update (Some old) None ::
                   match heartbeatCallback s1 with
                   | Some fn => [EvHeartbeatCallback fn]
                   | None => []
                   end)
                  (setKv (<[nodeID := update]> (kv s)) s1)).
  assert (E : r = (Some (negb (eqb (Decommissioning old) decommission), None), s2)).
  { unfold r. cbn [SetDecommissioning].
    rewrite bind_eq. unfold SetDecommissioning_attempt. rewrite bind_eq.
    unfold db_GetProto. cbn [rd_read rd_script]. rewrite gets_eq.
    cbn [fst snd]. rewrite Hkv.
    change (default LivenessZero (Some old)) with old.
    destruct (decide (old = LivenessZero)) as [Habs | _]; [tauto |].
    rewrite bind_eq. fold s1. unfold setDecommissioningInternal.
    change (default (firstLiveness nodeID) (Some old)) with old. fold update.
    rewrite bind_eq. cbn [updateLiveness]. unfold syncEngines.
    assert (Hdisk : ev_disk ev = None).
    { unfold faultless in Hf. destruct (ev_disk ev); [discriminate | reflexivity]. }
    rewrite Hdisk, bind_eq.
    rewrite updateLivenessAttempt_commit; [| exact Hf | left; reflexivity |].
    2:{ cbn [ULiveness]. change (NodeID update) with (NodeID old).
        rewrite Hid. unfold kvSeen. rewrite Hr, Hk1. exact Hkv. }
    cbn [ULiveness]. change (NodeID update) with (NodeID old). rewrite Hid.
    unfold kvSeen. rewrite Hr, Hk1. fold s2. reflexivity. }
  rewrite E. split; reflexivity.
Qed.

(** X13.  Decommissioning is idempotent.  A call that finds the node's
    record in the table and is not disturbed commits the requested flag,
    leaving the rest of the record as it was, and reports whether the
    flag changed; the same call made again reports no change and leaves
    the table as the first call left it. *)
Theorem SetDecommissioning_idempotent (nl : Config)
    (ev1 ev2 : AttemptEvent) (rest1 rest2 : list AttemptEvent)
    (rounds1 rounds2 : list DecommissionRound) (nodeID : roachpb_NodeID)
    (decommission : bool) (old : Liveness) (s : State) :
  let r1 := SetDecommissioning nl (mkRound None (ev1 :: rest1) :: rounds1)
              nodeID decommission s in
  let r2 := SetDecommissioning nl (mkRound None (ev2 :: rest2) :: rounds2)
              nodeID decommission (snd r1) in
  nodeID <> 0 -> kv s !! nodeID = Some old -> NodeID old = nodeID ->
  faultless ev1 = true -> ev_remote ev1 = None ->
  faultless ev2 = true -> ev_remote ev2 = None ->
  fst r1 = Some (negb (eqb (Decommissioning old) decommission), None)
  /\ kv (snd r1) = <[nodeID := withDecommissioning old decommission]> (kv s)
  /\ fst r2 = Some (false, None)
  /\ kv (snd r2) = kv (snd r1).
Proof.
  intros r1 r2 Hn0 Hkv Hid Hf1 Hr1 Hf2 Hr2.
  destruct (SetDecommissioning_commit nl ev1 rest1 rounds1 nodeID decommission
              old s Hn0 Hkv Hid Hf1 Hr1) as [H1 H2].
  fold r1 in H1, H2.
  assert (Hkv' : kv (snd r1) !! nodeID = Some (withDecommissioning old decommission)).
  { rewrite H2. apply lookup_insert_eq. }
  destruct (SetDecommissioning_commit nl ev2 rest2 rounds2 nodeID decommission
              (withDecommissioning old decommission) (snd r1) Hn0 Hkv' Hid Hf2 Hr2)
    as [H3 H4].
  fold r2 in H3, H4.
  split; [exact H1 |]. split; [exact H2 |]. split.
  - rewrite H3. cbn [withDecommissioning Decommissioning].
    rewrite eqb_reflx. reflexivity.
  - rewrite H4, H2.
    assert (Hsame : withDecommissioning (withDecommissioning old decommission)
                      decommission = withDecommissioning old decommission)
      by reflexivity.
    rewrite Hsame. apply insert_insert_eq.
Qed.

Lemma SetDecommissioning_idempotent_witness :
  let nl := mkConfig 1 10 2 (fun _ => mkTimestamp 100 0) MaxInt64 in
  let old := mkLiveness 2 5 (mkTimestamp 50 0) false false in
  let s := mkState 0 {[ 2 := old ]} ∅ [] None (mkMetrics 0 0 0) [] in
  let ok := mkAttempt None None NoFault in
  let r1 := SetDecommissioning nl [mkRound None [ok]] 2 true s in
  fst r1 = Some (true, None) /\
  fst (SetDecommissioning nl [mkRound None [ok]] 2 true (snd r1))
    = Some (false, None).
Proof.
  intros nl old s ok r1.
  destruct (SetDecommissioning_idempotent nl ok ok [] [] [] [] 2 true old s
              ltac:(lia) eq_refl eq_refl eq_refl eq_refl eq_refl eq_refl)
    as (H1 & _ & H3 & _).
  split; [exact H1 | exact H3].
Defined.

(* ===================================================================== *)
(** ** What the mutators write *)
(* ===================================================================== *)

Section Sends.

Variable nl : Config.
Variable P : Event -> bool.

Hypothesis P_isLive : forall fn n, P (EvIsLiveCallback fn n) = true.
Hypothesis P_heartbeat : forall fn, P (EvHeartbeatCallback fn) = true.

Lemma sends_ret {A : Type} (a : A) : sends P (ret a).
Proof. intros s. exists []. rewrite app_nil_r. auto. Qed.

Lemma sends_bind {A B : Type} (m : M A) (k : A -> M B) :
  sends P m -> (forall a, sends P (k a)) -> sends P (bind m k).
Proof.
  intros Hm Hk s. rewrite bind_eq.
  destruct (Hm s) as (e1 & H1 & Q1).
  destruct (Hk (fst (m s)) (snd (m s))) as (e2 & H2 & Q2).
  exists (e1 ++ e2). split.
  - rewrite H2, H1, app_assoc. reflexivity.
  - rewrite forallb_app, Q1, Q2. reflexivity.
Qed.

Lemma sends_frame {A : Type} (m : M A) :
  (forall s, trace (snd (m s)) = trace s) -> sends P m.
Proof. intros H s. exists []. rewrite app_nil_r. auto. Qed.

Lemma sends_if {A : Type} (b : bool) (m1 m2 : M A) :
  sends P m1 -> sends P m2 -> sends P (if b then m1 else m2).
Proof. destruct b; auto. Qed.

Lemma sends_maybeUpdate (new : Liveness) : sends P (maybeUpdate nl new).
Proof.
  intros s. destruct (maybeUpdate_trace nl new s) as (_ & evs & Ht & Hq).
  exists evs. split; [exact Ht |].
  clear Ht. induction evs as [| e evs IH]; [reflexivity |].
  cbn in Hq |- *. apply andb_true_iff in Hq as [He Hq].
  destruct e; try discriminate. rewrite P_isLive. apply IH. exact Hq.
Qed.

Lemma sends_updateLivenessAttempt {C : Type} (ev : AttemptEvent)
    (update : livenessUpdate) (oldLiveness : option Liveness)
    (handleCondFailed : Liveness -> C -> M (option error * C)) (c : C) :
  (forall res, P (EvCPut (NodeID (ULiveness update)) (ULiveness update)
                         oldLiveness res) = true) ->
  (forall actual c', sends P (handleCondFailed actual c')) ->
  sends P (updateLivenessAttempt ev update oldLiveness handleCondFailed c).
Proof.
  intros HP Hh. unfold updateLivenessAttempt.
  apply sends_bind.
  - destruct (negb (ignoreCache update)); [| apply sends_ret].
    apply sends_bind; [apply sends_frame; reflexivity |].
    intros [l |]; [| apply sends_ret].
    destruct oldLiveness as [old |]; [| apply sends_ret].
    destruct (decide (l = old)); apply sends_ret.
  - intros [l |]; [apply Hh |].
    intros s. rewrite bind_eq.
    set (key := NodeID (ULiveness update)) in *.
    set (holds := bool_decide (kvSeen ev key (kv s) !! key = oldLiveness)).
    unfold db_Txn_CPut. fold key. fold holds.
    destruct (ev_txn ev) as [| | applied |].
    + destruct holds; cbn [fst snd].
      * rewrite bind_eq, gets_eq. cbn [fst snd heartbeatCallback emit setKv].
        destruct (heartbeatCallback s); cbn [fst snd ret].
        -- rewrite bind_eq. cbn [fst snd ret modify emit trace setKv].
           eexists. split; [rewrite <- app_assoc; reflexivity |].
           cbn. rewrite HP, P_heartbeat. reflexivity.
        -- eexists. split; [reflexivity |]. cbn. rewrite HP. reflexivity.
      * match goal with
        | |- context [handleCondFailed ?a c ?s0] =>
            destruct (Hh a c s0) as (evs & Ht & Hq)
        end.
        cbn [trace emit setKv] in Ht.
        eexists. split; [rewrite Ht, <- app_assoc; reflexivity |].
        cbn. rewrite HP, Hq. reflexivity.
    + cbn [fst snd ret]. eexists. split; [reflexivity |].
      cbn. rewrite HP. reflexivity.
    + cbn [fst snd ret]. eexists. split; [reflexivity |].
      cbn. rewrite HP. reflexivity.
    + cbn [fst snd ret]. eexists. split; [reflexivity |].
      cbn. rewrite HP. reflexivity.
Qed.

Lemma sends_updateLiveness {C : Type} (script : list AttemptEvent)
    (update : livenessUpdate) (oldLiveness : option Liveness)
    (handleCondFailed : Liveness -> C -> M (option error * C)) (c : C) :
  (forall res, P (EvCPut (NodeID (ULiveness update)) (ULiveness update)
                         oldLiveness res) = true) ->
  (forall actual c', sends P (handleCondFailed actual c')) ->
  sends P (updateLiveness script update oldLiveness handleCondFailed c).
Proof.
  intros HP Hh. revert c.
  induction script as [| ev script IH]; intros c; cbn [updateLiveness].
  - apply sends_ret.
  - destruct (syncEngines ev); [apply sends_ret |].
    apply sends_bind; [apply sends_updateLivenessAttempt; assumption |].
    intros [[err |] c']; [| apply sends_ret].
    destruct err; try apply sends_ret. apply IH.
Qed.

End Sends.

Lemma cputOK_isLive (Q : Liveness -> option Liveness -> bool) (fn : nat)
    (n : roachpb_NodeID) : cputOK Q (EvIsLiveCallback fn n) = true.
Proof. reflexivity. Qed.

Lemma cputOK_heartbeat (Q : Liveness -> option Liveness -> bool) (fn : nat) :
  cputOK Q (EvHeartbeatCallback fn) = true.
Proof. reflexivity. Qed.

Lemma cputOK_here (Q : Liveness -> option Liveness -> bool) (value : Liveness)
    (expected : option Liveness) :
  Q value expected = true ->
  forall res, cputOK Q (EvCPut (NodeID value) value expected res) = true.
Proof. intros H res. cbn. rewrite Z.eqb_refl, H. reflexivity. Qed.

Section WhatMutatorsWrite.

Variable nl : Config.

(** The shapes of the conditional puts of the four mutators. *)
Let renewsExpiration (value : Liveness) (expected : option Liveness) : bool :=
  bool_decide (value = withExpiration
                         (default (firstLiveness (gossipNodeID nl)) expected)
                         (Expiration value)).
Let bumpsEpoch (value : Liveness) (expected : option Liveness) : bool :=
  match expected with
  | Some l => bool_decide (value = withEpoch l (wrap64 (Epoch l + 1)))
  | None => false
  end.
Let setsDraining (drain : bool) (value : Liveness) (expected : option Liveness)
    : bool :=
  bool_decide (value = withDraining
                         (default (firstLiveness (gossipNodeID nl)) expected)
                         drain).
Let setsDecommissioning (decommission : bool) (value : Liveness)
    (expected : option Liveness) : bool :=
  match expected with
  | Some l => bool_decide (value = withDecommissioning l decommission)
  | None => false
  end.

Lemma sends_heartbeatInternal (script : list AttemptEvent)
    (liveness : option Liveness) :
  sends (cputOK renewsExpiration) (heartbeatInternal nl script liveness false).
Proof.
  unfold heartbeatInternal.
  apply sends_bind; [apply sends_frame; reflexivity |]. intros now.
  apply sends_if; [apply sends_ret |].
  apply sends_bind.
  - apply sends_updateLiveness.
    + apply cputOK_heartbeat.
    + apply cputOK_here. unfold renewsExpiration.
      apply bool_decide_eq_true_2. cbn [ULiveness].
      unfold heartbeatUpdate. destruct liveness; reflexivity.
    + intros actual c'. unfold heartbeatCondFailed.
      apply sends_bind; [apply sends_maybeUpdate; apply cputOK_isLive |].
      intros _. apply sends_bind; [apply sends_frame; reflexivity |].
      intros now'. apply sends_if; apply sends_ret.
  - intros [[err |] c']; cbn [fst].
    + destruct err;
        (apply sends_bind; [apply sends_frame; reflexivity
                           | intros _; apply sends_ret]).
    + apply sends_bind; [apply sends_maybeUpdate; apply cputOK_isLive |].
      intros _. apply sends_bind; [apply sends_frame; reflexivity |].
      intros _. apply sends_ret.
Qed.

Lemma sends_heartbeatTick (rounds : list (list AttemptEvent)) :
  sends (cputOK renewsExpiration) (heartbeatTick nl rounds false).
Proof.
  induction rounds as [| script rounds IH]; cbn [heartbeatTick].
  - apply sends_ret.
  - apply sends_bind; [apply sends_frame; reflexivity |]. intros liveness.
    apply sends_bind; [apply sends_heartbeatInternal |].
    intros [err |]; [| apply sends_ret].
    destruct err; try apply sends_ret. apply IH.
Qed.

Lemma heartbeatTick_false (rounds : list (list AttemptEvent)) (s : State) :
  fst (heartbeatTick nl rounds false s) = false.
Proof.
  revert s. induction rounds as [| script rounds IH]; intros s;
    cbn [heartbeatTick]; [reflexivity |].
  rewrite !bind_eq.
  destruct (fst (heartbeatInternal nl script _ false _)) as [err |];
    [| reflexivity].
  destruct err; try reflexivity. apply IH.
Qed.

Lemma sends_heartbeatLoop (ticks : list (list (list AttemptEvent))) :
  sends (cputOK renewsExpiration) (heartbeatLoop nl ticks false).
Proof.
  induction ticks as [| rounds ticks IH]; cbn [heartbeatLoop].
  - apply sends_ret.
  - intros s. rewrite bind_eq.
    destruct (sends_heartbeatTick rounds s) as (e1 & H1 & Q1).
    rewrite heartbeatTick_false.
    destruct (IH (snd (heartbeatTick nl rounds false s))) as (e2 & H2 & Q2).
    exists (e1 ++ e2). split.
    + rewrite H2, H1, app_assoc. reflexivity.
    + rewrite forallb_app, Q1, Q2. reflexivity.
Qed.

Lemma sends_IncrementEpoch (script : list AttemptEvent) (liveness : Liveness) :
  sends (cputOK bumpsEpoch) (IncrementEpoch nl script liveness).
Proof.
  unfold IncrementEpoch.
  apply sends_bind; [apply sends_frame; reflexivity |]. intros now.
  apply sends_if; [apply sends_ret |].
  apply sends_bind.
  - apply sends_updateLiveness.
    + apply cputOK_heartbeat.
    + apply cputOK_here. cbn. apply bool_decide_eq_true_2. reflexivity.
    + intros actual c'. unfold incrementEpochCondFailed.
      apply sends_bind; [apply sends_maybeUpdate; apply cputOK_isLive |].
      intros _. apply sends_ret.
  - intros [[err |] c']; cbn [fst].
    + destruct err; apply sends_ret.
    + apply sends_bind; [apply sends_maybeUpdate; apply cputOK_isLive |].
      intros _. apply sends_bind; [apply sends_frame; reflexivity |].
      intros _. apply sends_ret.
Qed.

Lemma sends_SetDraining (rounds : list (list AttemptEvent)) (drain : bool) :
  sends (cputOK (setsDraining drain)) (SetDraining nl rounds drain).
Proof.
  induction rounds as [| script rounds IH]; cbn [SetDraining].
  - apply sends_ret.
  - apply sends_bind; [apply sends_frame; reflexivity |]. intros liveness.
    apply sends_bind.
    + unfold setDrainingInternal. apply sends_bind.
      * apply sends_updateLiveness.
        -- apply cputOK_heartbeat.
        -- apply cputOK_here. unfold setsDraining.
           apply bool_decide_eq_true_2. reflexivity.
        -- intros actual c'. unfold setDrainingCondFailed.
           apply sends_bind; [apply sends_maybeUpdate; apply cputOK_isLive |].
           intros _. apply sends_if; apply sends_ret.
      * intros [[err |] c']; cbn [fst].
        -- destruct err; apply sends_ret.
        -- apply sends_bind; [apply sends_maybeUpdate; apply cputOK_isLive |].
           intros _. apply sends_ret.
    + intros [err |]; [apply IH | apply sends_ret].
Qed.

Lemma sends_SetDecommissioning (rounds : list DecommissionRound)
    (nodeID : roachpb_NodeID) (decommission : bool) :
  sends (cputOK (setsDecommissioning decommission))
        (SetDecommissioning nl rounds nodeID decommission).
Proof.
  induction rounds as [| rd rounds IH]; cbn [SetDecommissioning].
  - apply sends_ret.
  - apply sends_bind.
    + unfold SetDecommissioning_attempt. apply sends_bind.
      * unfold db_GetProto. destruct (rd_read rd); apply sends_frame; reflexivity.
      * intros [[e |] oldLiveness]; [apply sends_ret |].
        destruct (decide (oldLiveness = LivenessZero)); [apply sends_ret |].
        apply sends_bind; [apply sends_maybeUpdate; apply cputOK_isLive |].
        intros _. unfold setDecommissioningInternal. apply sends_bind.
        -- apply sends_updateLiveness.
           ++ apply cputOK_heartbeat.
           ++ apply cputOK_here. cbn. apply bool_decide_eq_true_2. reflexivity.
           ++ intros actual c'. unfold setDecommissioningCondFailed.
              apply sends_if; apply sends_ret.
        -- intros [[err |] c']; [apply sends_ret |].
           destruct c'; apply sends_ret.
    + intros [[changed [err |]] |]; try apply sends_ret.
      destruct (Cause err); try apply sends_ret. apply IH.
Qed.

(** X14.  Every mutator writes under the key of the record it writes,
    and changes nothing but the field it is there for, whatever the
    script.  The heartbeat loop, once it has stopped incrementing the
    epoch, proposes the expected record (or a first record of epoch 1)
    with a new expiration only; [IncrementEpoch] proposes the expected
    record with the epoch plus one only; [SetDraining] and
    [SetDecommissioning] propose the expected record with the requested
    flag only: they never renew the expiration of the record. *)
Theorem mutators_write_their_field (s : State) :
  (forall ticks, exists evs,
     trace (snd (heartbeatLoop nl ticks false s)) = trace s ++ evs /\
     forallb (cputOK (fun value expected =>
       bool_decide (value = withExpiration
                      (default (firstLiveness (gossipNodeID nl)) expected)
                      (Expiration value)))) evs = true)
  /\ (forall script liveness, exists evs,
        trace (snd (IncrementEpoch nl script liveness s)) = trace s ++ evs /\
        forallb (cputOK (fun value expected =>
          match expected with
          | Some l => bool_decide (value = withEpoch l (wrap64 (Epoch l + 1)))
          | None => false
          end)) evs = true)
  /\ (forall rounds drain, exists evs,
        trace (snd (SetDraining nl rounds drain s)) = trace s ++ evs /\
        forallb (cputOK (fun value expected =>
          bool_decide (value = withDraining
                         (default (firstLiveness (gossipNodeID nl)) expected)
                         drain))) evs = true)
  /\ (forall rounds nodeID decommission, exists evs,
        trace (snd (SetDecommissioning nl rounds nodeID decommission s))
          = trace s ++ evs /\
        forallb (cputOK (fun value expected =>
          match expected with
          | Some l => bool_decide (value = withDecommissioning l decommission)
          | None => false
          end)) evs = true).
Proof.
  repeat split; intros.
  - apply sends_heartbeatLoop.
  - apply sends_IncrementEpoch.
  - apply sends_SetDraining.
  - apply sends_SetDecommissioning.
Qed.

End WhatMutatorsWrite.

(* ===================================================================== *)
(** ** The heartbeat loop *)
(* ===================================================================== *)

Lemma filter_isEpochBump_commits (evs : list Event) :
  List.filter isEpochBump evs = List.filter isEpochBump (List.filter isCommit evs).
Proof.
  induction evs as [| e evs IH]; [reflexivity |].
  cbn [List.filter].
  destruct e as [k v [l |] [err |] | fn n | fn]; cbn [isCommit isEpochBump];
    try exact IH.
  all: cbn [List.filter isEpochBump]; rewrite <- IH; reflexivity.
Qed.

Lemma filter_isEpochBump_isLive (evs : list Event) :
  forallb isIsLiveCallback evs = true -> List.filter isEpochBump evs = [].
Proof.
  intros H. rewrite filter_isEpochBump_commits, (filter_isCommit_isLive evs H).
  reflexivity.
Qed.

Lemma heartbeatCondFailed_trace (nl : Config) (inc : bool) (actual : Liveness)
    (c : unit) (s : State) :
  exists evs,
    trace (snd (heartbeatCondFailed nl inc actual c s)) = trace s ++ evs /\
    forallb isIsLiveCallback evs = true.
Proof.
  unfold heartbeatCondFailed. rewrite !bind_eq.
  destruct (maybeUpdate_trace nl actual s) as (_ & evs & Ht & Hq).
  exists evs. split; [| exact Hq].
  unfold Now. cbn [fst snd]. destruct (_ && _); cbn; exact Ht.
Qed.

Lemma heartbeatCondFailed_fails (nl : Config) (inc : bool) (actual : Liveness)
    (c : unit) (s : State) :
  fst (fst (heartbeatCondFailed nl inc actual c s)) <> None.
Proof.
  destruct (heartbeatCondFailed_error nl inc actual c s) as [H | H];
    cbv zeta in H; rewrite H; discriminate.
Qed.

Section HeartbeatLoop.

Variable nl : Config.

Let bumps (evs : list Event) : nat := length (List.filter isEpochBump evs).

(** One heartbeat bumps the epoch at most once, only when asked to, and
    then it succeeds. *)
Lemma heartbeatInternal_bumps (script : list AttemptEvent)
    (liveness : option Liveness) (inc : bool) (s : State) :
  let r := heartbeatInternal nl script liveness inc s in
  exists evs, trace (snd r) = trace s ++ evs /\
    (bumps evs <= 1)%nat /\
    (inc = false -> bumps evs = 0%nat) /\
    (bumps evs = 1%nat -> fst r = None).
Proof.
  intros r. subst r. unfold heartbeatInternal. rewrite bind_eq.
  change (Now nl s) with
    (clockNow nl (clockReads s), setClockReads (S (clockReads s)) s).
  cbn [fst snd].
  set (update := heartbeatUpdate nl liveness inc _).
  set (s1 := setClockReads (S (clockReads s)) s).
  destruct (match liveness with Some _ => _ | None => false end).
  { exists []. rewrite app_nil_r. cbn. repeat split; auto; discriminate. }
  rewrite bind_eq.
  destruct (updateLiveness_commits (mkUpdate update false) liveness
              (heartbeatCondFailed nl inc)
              (heartbeatCondFailed_fails nl inc)
              (heartbeatCondFailed_trace nl inc) script tt s1)
    as (evs & Ht & Hcase).
  destruct (updateLiveness script _ liveness _ tt s1) as [[err []] s2].
  cbn [fst snd] in *. change (trace s1) with (trace s) in Ht.
  assert (Hb : List.filter isEpochBump evs
               = List.filter isEpochBump (List.filter isCommit evs))
    by apply filter_isEpochBump_commits.
  destruct Hcase as [[-> Hf] | [Hne Hf]].
  - rewrite !bind_eq.
    destruct (maybeUpdate_trace nl update s2) as (_ & evs2 & Ht2 & Hq2).
    exists (evs ++ evs2). split.
    { unfold HeartbeatSuccesses_Inc, modify.
      cbn [snd fst ret trace setMetrics].
      rewrite Ht2, Ht, app_assoc. reflexivity. }
    unfold bumps. rewrite List.filter_app, Hb, Hf,
      (filter_isEpochBump_isLive evs2 Hq2), app_nil_r.
    cbn [ULiveness List.filter isEpochBump].
    split; [| split; [| reflexivity]].
    + destruct liveness; [destruct (negb _) |]; cbn; lia.
    + intros ->. destruct liveness as [l |]; [| reflexivity].
      assert (Hsame : Epoch update = Epoch l) by reflexivity.
      rewrite Hsame, Z.eqb_refl. reflexivity.
  - destruct err as [err |]; [| congruence].
    exists evs. unfold bumps. rewrite Hb, Hf. cbn [List.filter length].
    destruct err; rewrite bind_eq; cbn [fst snd ret];
      (split; [exact Ht |]); repeat split; auto; discriminate.
Qed.

Lemma heartbeatTick_bumps (rounds : list (list AttemptEvent)) (inc : bool)
    (s : State) :
  let r := heartbeatTick nl rounds inc s in
  exists evs, trace (snd r) = trace s ++ evs /\
    (bumps evs <= 1)%nat /\
    (inc = false -> bumps evs = 0%nat /\ fst r = false) /\
    (bumps evs = 1%nat -> fst r = false).
Proof.
  revert s. induction rounds as [| script rounds IH]; intros s;
    cbn [heartbeatTick].
  - exists []. rewrite app_nil_r. cbn. repeat split; auto; discriminate.
  - rewrite bind_eq.
    change (Self nl s) with (nodes s !! gossipNodeID nl, s). cbn [fst snd].
    rewrite bind_eq.
    destruct (heartbeatInternal_bumps script (nodes s !! gossipNodeID nl) inc s)
      as (e1 & H1 & B1 & F1 & S1).
    destruct (heartbeatInternal nl script (nodes s !! gossipNodeID nl) inc s)
      as [err s1]. cbn [fst snd] in *.
    assert (Hstop : forall inc' : bool,
              (inc = false -> inc' = false) -> err <> None ->
              exists evs, trace s1 = trace s ++ evs /\
                (bumps evs <= 1)%nat /\
                (inc = false -> bumps evs = 0%nat /\ inc' = false) /\
                (bumps evs = 1%nat -> inc' = false)).
    { intros inc' Hinc Herr. exists e1. split; [exact H1 |].
      split; [exact B1 |]. split; [auto |].
      intros Hb. apply S1 in Hb. congruence. }
    destruct err as [err |].
    + destruct err; cbn [ret fst snd];
        try (apply Hstop; [auto | discriminate]).
      (* the epoch was incremented: go round again *)
      destruct (IH s1) as (e2 & H2 & B2 & F2 & S2).
      assert (Hz : bumps e1 = 0%nat).
      { destruct (bumps e1) as [| [| n]] eqn:Hb; [reflexivity | | lia].
        specialize (S1 eq_refl). discriminate. }
      exists (e1 ++ e2). split; [rewrite H2, H1, app_assoc; reflexivity |].
      assert (Hsum : bumps (e1 ++ e2) = bumps e2).
      { unfold bumps in *. rewrite List.filter_app, length_app, Hz. reflexivity. }
      rewrite Hsum. auto.
    + cbn [ret fst snd]. exists e1. split; [exact H1 |].
      split; [exact B1 |]. split; [auto |]. reflexivity.
Qed.

Lemma heartbeatLoop_bumps (ticks : list (list (list AttemptEvent)))
    (inc : bool) (s : State) :
  exists evs, trace (snd (heartbeatLoop nl ticks inc s)) = trace s ++ evs /\
    (bumps evs <= 1)%nat /\ (inc = false -> bumps evs = 0%nat).
Proof.
  revert inc s. induction ticks as [| rounds ticks IH]; intros inc s;
    cbn [heartbeatLoop].
  - exists []. rewrite app_nil_r. cbn. auto.
  - rewrite bind_eq.
    destruct (heartbeatTick_bumps rounds inc s) as (e1 & H1 & B1 & F1 & S1).
    destruct (IH (fst (heartbeatTick nl rounds inc s))
                 (snd (heartbeatTick nl rounds inc s)))
      as (e2 & H2 & B2 & F2).
    exists (e1 ++ e2). split; [rewrite H2, H1, app_assoc; reflexivity |].
    assert (Hsum : bumps (e1 ++ e2) = (bumps e1 + bumps e2)%nat).
    { unfold bumps. rewrite List.filter_app, length_app. reflexivity. }
    rewrite Hsum. split.
    + destruct (bumps e1) as [| [| n]] eqn:Hb; [lia | | lia].
      rewrite (F2 (S1 eq_refl)). lia.
    + intros ->. destruct (F1 eq_refl) as [Hz Hf]. rewrite Hz, (F2 Hf).
      reflexivity.
Qed.

(** X15.  Among the events of the worker of [StartHeartbeat], whatever
    the ticks, the rounds and the scripts, at most one is a conditional
    put acknowledged as committed (the transaction returned no error)
    that replaces a record by one with another epoch: the loop stops
    asking for an increment as soon as a heartbeat has succeeded.  Puts
    applied behind an ambiguous result are no acknowledged commits and
    are not in this count. *)
Theorem StartHeartbeat_bumps_epoch_once (alive : option nat)
    (ticks : list (list (list AttemptEvent))) (s : State) :
  exists evs,
    trace (snd (StartHeartbeat nl alive ticks s)) = trace s ++ evs /\
    (length (List.filter isEpochBump evs) <= 1)%nat.
Proof.
  unfold StartHeartbeat. rewrite !bind_eq. cbn [ret snd modify fst].
  destruct (heartbeatLoop_bumps ticks true (setHeartbeatCallback alive s))
    as (evs & Ht & Hb & _).
  exists evs. split; [exact Ht | exact Hb].
Qed.

End HeartbeatLoop.

(* ===================================================================== *)
(** ** Queries *)
(* ===================================================================== *)

(** X16.  The three liveness queries agree.  Asked about the same node
    in the same state, [IsLive] answers true without error exactly when
    the snapshot of [GetIsLiveMap] has a live entry for the node, and
    exactly when the live clock of [AsLiveClock] returns a timestamp;
    that timestamp is the clock reading against which the record is
    live, and the epoch returned with it is the one in the snapshot. *)
Theorem liveness_queries_agree (nl : Config) (nodeID : roachpb_NodeID)
    (s : State) :
  let now := clockNow nl (clockReads s) in
  let isLive := fst (NodeLiveness_IsLive nl nodeID s) in
  let lMap := fst (GetIsLiveMap nl s) in
  let clock := fst (AsLiveClock nl nodeID s) in
  (isLive = (true, None) <->
   exists e, lMap !! nodeID = Some e /\ EIsLive e = true)
  /\ (isLive = (true, None) <-> snd clock = None)
  /\ (snd clock = None ->
      fst (fst clock) = now /\
      exists l, nodes s !! nodeID = Some l /\
                IsLive l now (clockMaxOffset nl) = true /\
                snd (fst clock) = Epoch l /\
                lMap !! nodeID = Some (mkEntry true (Epoch l))).
Proof.
  intros now isLive lMap clock. subst isLive lMap clock.
  unfold NodeLiveness_IsLive, GetIsLiveMap, AsLiveClock, GetLiveness.
  rewrite !bind_eq, !gets_eq.
  change (Now nl s) with (now, setClockReads (S (clockReads s)) s).
  cbn [fst snd nodes setClockReads]. rewrite lookup_omap.
  destruct (nodes s !! nodeID) as [l |]; cbn [fst snd ret option_bind mbind].
  - rewrite bind_eq.
    change (Now nl s) with (now, setClockReads (S (clockReads s)) s).
    cbn [fst snd ret].
    destruct (IsLive l now (clockMaxOffset nl)) eqn:Hl; cbn.
    + split; [| split].
      * split; [intros _; eexists; split; reflexivity | reflexivity].
      * split; reflexivity.
      * intros _. split; [reflexivity |]. exists l. auto.
    + split; [| split].
      * split; [discriminate |]. intros (e & He & Hlive).
        destruct (Decommissioning l); cbn in He; [discriminate |].
        injection He as <-. discriminate.
      * split; discriminate.
      * discriminate.
  - cbn. split; [| split].
    + split; [discriminate | intros (e & He & _); discriminate].
    + split; discriminate.
    + discriminate.
Qed.

(** X17.  [numLiveNodes] is positive exactly when this node has an
    identifier and its own cached record is live at the clock reading
    taken; in every other case the gauge reads 0, however many other
    nodes are live.  It never exceeds the size of the cache. *)
Theorem numLiveNodes_positive (nl : Config) (s : State) :
  let now := clockNow nl (clockReads s) in
  let n := fst (numLiveNodes nl s) in
  0 <= n <= Z.of_nat (size (nodes s))
  /\ (0 < n <->
      gossipNodeID nl <> 0 /\
      exists self, nodes s !! gossipNodeID nl = Some self /\
                   IsLive self now (clockMaxOffset nl) = true).
Proof.
  intros now n. subst n. unfold numLiveNodes.
  destruct (Z.eqb_spec (gossipNodeID nl) 0) as [Hz | Hz].
  { cbn. split; [lia |]. split; [lia | tauto]. }
  rewrite bind_eq.
  change (Now nl s) with (now, setClockReads (S (clockReads s)) s).
  cbn [fst snd]. unfold GetLiveness. rewrite bind_eq, gets_eq.
  cbn [fst snd nodes setClockReads].
  destruct (nodes s !! gossipNodeID nl) as [self |] eqn:Hself.
  - destruct (IsLive self now (clockMaxOffset nl)) eqn:Hlive; cbn [negb].
    + rewrite gets_eq. cbn [fst nodes setClockReads].
      set (live := List.filter _ (map_to_list (nodes s))).
      assert (Hle : (length live <= size (nodes s))%nat).
      { rewrite <- length_map_to_list. apply List.filter_length_le. }
      assert (Hin : In (gossipNodeID nl, self) live).
      { apply List.filter_In. split; [| exact Hlive].
        apply list_elem_of_In, elem_of_map_to_list. exact Hself. }
      split; [lia |]. split.
      * intros _. split; [exact Hz |]. exists self. auto.
      * intros _. destruct live; [destruct Hin | cbn; lia].
    + cbn. split; [lia |]. split; [lia |].
      intros (_ & self' & [= <-] & H). congruence.
  - cbn. split; [lia |]. split; [lia |].
    intros (_ & self' & H & _). discriminate.
Qed.

(* ===================================================================== *)
(** ** The pause switch *)
(* ===================================================================== *)

Lemma pauseAll_invariant (calls : list bool) (g : HeartbeatGate) :
  (heartbeatPaused g = 0 /\ heartbeatToken g = 1%nat) \/
  (heartbeatPaused g = 1 /\ heartbeatToken g = 0%nat) ->
  exists g', pauseAll calls g = Some g' /\
    ((heartbeatPaused g' = 0 /\ heartbeatToken g' = 1%nat) \/
     (heartbeatPaused g' = 1 /\ heartbeatToken g' = 0%nat)) /\
    heartbeatPaused g' = match last calls with
                         | Some true => 1
                         | Some false => 0
                         | None => heartbeatPaused g
                         end.
Proof.
  revert g. induction calls as [| pause calls IH]; intros g Hinv.
  - exists g. auto.
  - cbn [pauseAll].
    assert (Hstep : exists g1, PauseHeartbeat pause g = Some g1 /\
              ((heartbeatPaused g1 = 0 /\ heartbeatToken g1 = 1%nat) \/
               (heartbeatPaused g1 = 1 /\ heartbeatToken g1 = 0%nat)) /\
              heartbeatPaused g1 = if pause then 1 else 0).
    { unfold PauseHeartbeat.
      destruct Hinv as [[Hp Ht] | [Hp Ht]]; rewrite Hp, Ht; destruct pause;
        cbn; eexists; (split; [reflexivity |]); cbn; auto;
        destruct g; cbn in *; subst; auto. }
    destruct Hstep as (g1 & -> & Hinv1 & Hp1).
    destruct (IH g1 Hinv1) as (g' & Hrun & Hinv' & Hlast).
    exists g'. split; [exact Hrun |]. split; [exact Hinv' |].
    rewrite Hlast. destruct calls as [| c calls'].
    + cbn. rewrite Hp1. destruct pause; reflexivity.
    + change (last (pause :: c :: calls')) with (last (c :: calls')).
      destruct (last (c :: calls')) as [[|] |] eqn:E; try reflexivity.
      apply last_None in E. discriminate.
Qed.

(** X18.  With no heartbeat in flight, the pause switch never blocks
    and is idempotent: after any sequence of [PauseHeartbeat] calls on a
    new node the loop is paused exactly when the last call asked for it,
    and the token is in the channel exactly when the loop is not paused,
    so that repeating a call takes or puts no second token. *)
Theorem PauseHeartbeat_never_blocks (calls : list bool) :
  exists g, pauseAll calls newHeartbeatGate = Some g /\
    heartbeatPaused g = match last calls with
                        | Some true => 1
                        | _ => 0
                        end /\
    heartbeatToken g = if heartbeatPaused g =? 0 then 1%nat else 0%nat.
Proof.
  destruct (pauseAll_invariant calls newHeartbeatGate) as (g & Hrun & Hinv & Hlast).
  { left. split; reflexivity. }
  exists g. split; [exact Hrun |]. split.
  - rewrite Hlast. destruct (last calls) as [[|] |]; reflexivity.
  - destruct Hinv as [[-> ->] | [-> ->]]; reflexivity.
Qed.

Lemma liveness_queries_agree_witness :
  let nl := mkConfig 1 10 2 (fun _ => mkTimestamp 100 0) MaxInt64 in
  let l := mkLiveness 4 7 (mkTimestamp 500 0) false false in
  let s := mkState 0 ∅ {[ 4 := l ]} [] None (mkMetrics 0 0 0) [] in
  fst (fst (fst (AsLiveClock nl 4 s))) = mkTimestamp 100 0.
Proof.
  intros nl l s.
  exact (proj1 (proj2 (proj2 (liveness_queries_agree nl 4 s)) eq_refl)).
Defined.

(* ===================================================================== *)
(** ** The model at work *)
(* ===================================================================== *)

Module Scenarios.

Definition nl : Config :=
  mkConfig 1 10 2 (fun k => mkTimestamp (100 + Z.of_nat k) 0) MaxInt64.
Definition fresh : State :=
  mkState 0 ∅ ∅ [7%nat] (Some 9%nat) (mkMetrics 0 0 0) [].
Definition ok : AttemptEvent := mkAttempt None None NoFault.

(** S1: the first heartbeat creates the record; the callbacks run. *)
Example first_heartbeat :
  let r := heartbeatInternal nl [ok] None true fresh in
  let record := mkLiveness 1 1 (mkTimestamp 112 0) false false in
  fst r = None /\
  kv (snd r) !! 1 = Some record /\
  trace (snd r) =
    [EvCPut 1 record None None; EvHeartbeatCallback 9; EvIsLiveCallback 7 1] /\
  metrics (snd r) = mkMetrics 1 0 0.
Proof. vm_compute. auto. Qed.

(** S3: node 1 bumps the epoch of the expired record of node 2; the
    heartbeat callback of node 1 runs although the record is not its own. *)
Example expired_peer_epoch_bump :
  let expired := mkLiveness 2 5 (mkTimestamp 50 0) false false in
  let bumped := mkLiveness 2 6 (mkTimestamp 50 0) false false in
  let r := IncrementEpoch nl [ok] expired (setKv {[ 2 := expired ]} fresh) in
  fst r = None /\
  kv (snd r) !! 2 = Some bumped /\
  nodes (snd r) !! 2 = Some bumped /\
  trace (snd r) = [EvCPut 2 bumped (Some expired) None; EvHeartbeatCallback 9] /\
  metrics (snd r) = mkMetrics 0 0 1.
Proof. vm_compute. auto. Qed.

(** S4: the heartbeat finds the epoch incremented; no heartbeat callback. *)
Example epoch_race_on_heartbeat :
  let expected := mkLiveness 1 5 (mkTimestamp 90 0) false false in
  let actual := mkLiveness 1 6 (mkTimestamp 90 0) false false in
  let r := heartbeatInternal nl [ok] (Some expected) false
             (setKv {[ 1 := actual ]} fresh) in
  fst r = Some ErrEpochIncremented /\
  nodes (snd r) !! 1 = Some actual /\
  kv (snd r) !! 1 = Some actual /\
  existsb (fun e => match e with EvHeartbeatCallback _ => true | _ => false end)
          (trace (snd r)) = false /\
  metrics (snd r) = mkMetrics 0 1 0.
Proof. vm_compute. auto. Qed.

(** A status error is retried; an expired context ends the loop. *)
Example retry_then_commit :
  let r := heartbeatInternal nl [mkAttempt None None FaultStatus; ok] None true
             fresh in
  fst r = None /\ length (trace (snd r)) = 4%nat.
Proof. vm_compute. auto. Qed.

Example context_expired :
  fst (heartbeatInternal nl [mkAttempt None None FaultStatus] None true fresh)
    = Some errContext.
Proof. vm_compute. auto. Qed.

(** Decommissioning a node whose record is in the table commits and
    reports the change; doing it again reports none. *)
Example decommission_commits :
  let old := mkLiveness 2 5 (mkTimestamp 50 0) false false in
  let r := SetDecommissioning nl [mkRound None [ok]] 2 true
             (setKv {[ 2 := old ]} fresh) in
  fst r = Some (true, None) /\
  kv (snd r) !! 2 = Some (withDecommissioning old true) /\
  fst (SetDecommissioning nl [mkRound None [ok]] 2 true (snd r))
    = Some (false, None).
Proof. vm_compute. auto. Qed.

(** A concurrent writer with the other flag makes the attempt fail with
    the change-failed error, and the loop takes the next round. *)
Example decommission_epoch_race :
  let old := mkLiveness 2 5 (mkTimestamp 50 0) false false in
  let bumped := mkLiveness 2 6 (mkTimestamp 50 0) false false in
  let r := SetDecommissioning nl
             [mkRound None [mkAttempt None (Some bumped) NoFault];
              mkRound None [ok]] 2 true
             (setKv {[ 2 := old ]} fresh) in
  fst r = Some (true, None) /\
  kv (snd r) !! 2 = Some (withDecommissioning bumped true).
Proof. vm_compute. auto. Qed.

(** An ambiguous result behind which the put was applied: the call of
    [SetDecommissioning] changes the stored flag and reports no change. *)
Example decommission_behind_ambiguous_result :
  let old := mkLiveness 2 5 (mkTimestamp 50 0) false false in
  let r := SetDecommissioning nl
             [mkRound None [mkAttempt None None (FaultAmbiguous true); ok]] 2 true
             (setKv {[ 2 := old ]} fresh) in
  fst r = Some (false, None) /\
  kv (snd r) !! 2 = Some (withDecommissioning old true).
Proof. vm_compute. auto. Qed.

(** The same for [IncrementEpoch]: the stored epoch goes from 5 to 6, the
    retry finds the epoch already incremented, and the call returns nil
    with epochincrements unchanged. *)
Example increment_behind_ambiguous_result :
  let expired := mkLiveness 2 5 (mkTimestamp 50 0) false false in
  let r := IncrementEpoch nl [mkAttempt None None (FaultAmbiguous true); ok]
             expired (setKv {[ 2 := expired ]} fresh) in
  fst r = None /\
  kv (snd r) !! 2 = Some (withEpoch expired 6) /\
  List.filter isCommit (trace (snd r)) = [] /\
  metrics (snd r) = mkMetrics 0 0 0.
Proof. vm_compute. auto. Qed.

(** And for the heartbeat loop: the first heartbeat of the worker stores
    epoch 6 behind an ambiguous result and fails on its own write; the
    next round, still incrementing, stores epoch 7.  One acknowledged
    commit changed the epoch; the stored epoch rose twice. *)
Example heartbeat_epoch_raised_twice :
  let l := mkLiveness 1 5 (mkTimestamp 90 0) false false in
  let s := setNodes {[ 1 := l ]} (setKv {[ 1 := l ]} fresh) in
  let r := StartHeartbeat nl (Some 9%nat)
             [[[mkAttempt None None (FaultAmbiguous true); ok]; [ok]]] s in
  Epoch <$> kv (snd r) !! 1 = Some 7 /\
  length (List.filter isEpochBump (trace (snd r))) = 1%nat.
Proof. vm_compute. auto. Qed.

(** A commit that is not followed by the callback is told apart. *)
Example commit_without_callback :
  hbFollowsCommits 9 false
    [EvCPut 1 (firstLiveness 1) None None; EvIsLiveCallback 7 1] = false.
Proof. reflexivity. Qed.

(** Draining: set while the cache is behind the table. *)
Example draining_after_refresh :
  let cached := mkLiveness 1 5 (mkTimestamp 90 0) false false in
  let stored := mkLiveness 1 5 (mkTimestamp 95 0) false false in
  let s := setNodes {[ 1 := cached ]} (setKv {[ 1 := stored ]} fresh) in
  let s' := snd (SetDraining nl [[ok]; [ok]] true s) in
  kv s' !! 1 = Some (withDraining stored true) /\
  nodes s' !! 1 = Some (withDraining stored true).
Proof. vm_compute. auto. Qed.

End Scenarios.
